(** * eBay analytics: report normalisation and the CSV SQL explorer

    A shallow embedding of the data-handling code of the repository:

    - [SqlQuery]: ebay_sql_dash_app/ebay_sql_query.py
      ([clean_column_name], [clean_column_names], [run_query]);
    - the pandas operations the scripts use, on a small column-major
      model of a DataFrame;
    - [Hoold]: hoold.py ([parse_contents], the daily sales aggregation);
    - [GenDash]: gen_dash_app_1.py ([parse_contents]);
    - [CalculatePayout]: calculate_payout.py (the report, [ref], the
      backfill loop);
    - [App]: app/app.py ([transform], which updates its argument in place);
    - [Themes], [Uploads], [HooldApp], [GenDashApp]: the theme toggle and
      [parse_contents] from the upload string, of both dashboards;
    - [SqlUpload]: [validate_csv] and [process_upload] of
      ebay_sql_query.py;
    - [DateFilters], [MonthYear]: the date filters and the month
      selector of both dashboards.

    The definitions come first, the proofs after them. Strings are
    sequences of ASCII characters. *)

From stdpp Require Import gmap strings list pretty sorting.
From Stdlib Require Import Ascii.

(** ** Python string primitives *)

Module PyStr.

Definition code (c : ascii) : nat := nat_of_ascii c.

Definition between (lo hi : nat) (c : ascii) : bool :=
  (lo <=? code c)%nat && (code c <=? hi)%nat.

(** [0-9], [a-z], [A-Z] *)
Definition is_digit : ascii → bool := between 48 57.
Definition is_lower : ascii → bool := between 97 122.
Definition is_upper : ascii → bool := between 65 90.

(** [str.isalpha] on one character. *)
Definition isalpha (c : ascii) : bool := is_lower c || is_upper c.

(** The class [\s] of [re], which is also what [str.split()] splits on:
    tab, newline, vertical tab, form feed, carriage return, the four
    separators 0x1c-0x1f, and space. *)
Definition is_space (c : ascii) : bool :=
  between 9 13 c || between 28 31 c || (code c =? 32)%nat.

Definition lower_char (c : ascii) : ascii :=
  if is_upper c then ascii_of_nat (code c + 32) else c.

Fixpoint map_chars (f : ascii → ascii) (s : string) : string :=
  match s with
  | "" => ""
  | String c r => String (f c) (map_chars f r)
  end.

(** [str.lower] *)
Definition lower : string → string := map_chars lower_char.

Fixpoint all_chars (p : ascii → bool) (s : string) : bool :=
  match s with
  | "" => true
  | String c r => p c && all_chars p r
  end.

(** [re.sub(r'\s+', ' ', s)]: every maximal run of whitespace becomes
    one space. [in_run] tells whether the previous character was
    whitespace. *)
Fixpoint squeeze (in_run : bool) (s : string) : string :=
  match s with
  | "" => ""
  | String c r =>
      if is_space c
      then (if in_run then squeeze true r else String " " (squeeze true r))
      else String c (squeeze false r)
  end.

(** [str.split()] without argument: the maximal runs of non-whitespace
    characters. [cur] is the word being read, reversed. *)
Fixpoint split_go (cur : list ascii) (s : string) : list string :=
  let flush (k : list string) :=
    match cur with
    | [] => k
    | _ => String.string_of_list_ascii (rev cur) :: k
    end in
  match s with
  | "" => flush []
  | String c r =>
      if is_space c then flush (split_go [] r) else split_go (c :: cur) r
  end.

Definition split : string → list string := split_go [].

(** [sep.join(words)] *)
Fixpoint join (sep : string) (ws : list string) : string :=
  match ws with
  | [] => ""
  | [w] => w
  | w :: ws' => w +:+ sep +:+ join sep ws'
  end.

End PyStr.

(** ** Values, exceptions, tables *)

(** A float64 is modelled by the exact decimal [mant / 10^scale] it is
    read from; binary rounding is not modelled. *)
Record decimal := Dec { mant : Z; scale : nat }.

Record datetime := DT {
  year : nat; month : nat; day : nat;
  hour : nat; minute : nat; second : nat
}.

(** What a cell of a table can hold. [NaN] is the absent marker of pandas
    ([np.nan], [None], [NaT]). *)
Inductive cell :=
| NaN
| Str (s : string)
| Num (x : decimal)
| Timestamp (t : datetime).

Global Instance decimal_eq_dec : EqDecision decimal.
Proof. solve_decision. Defined.
Global Instance datetime_eq_dec : EqDecision datetime.
Proof. solve_decision. Defined.
Global Instance cell_eq_dec : EqDecision cell.
Proof. solve_decision. Defined.

Global Instance decimal_countable : Countable decimal.
Proof.
  apply (inj_countable' (λ d, (mant d, scale d)) (λ p, Dec p.1 p.2)).
  by intros [].
Defined.

Global Instance datetime_countable : Countable datetime.
Proof.
  apply (inj_countable'
    (λ t, (year t, month t, day t, hour t, minute t, second t))
    (λ p, match p with (y, mo, d, h, mi, s) => DT y mo d h mi s end)).
  by intros [].
Defined.

Global Instance cell_countable : Countable cell.
Proof.
  apply (inj_countable'
    (λ c, match c with
          | NaN => inl ()
          | Str s => inr (inl s)
          | Num x => inr (inr (inl x))
          | Timestamp t => inr (inr (inr t))
          end)
    (λ e, match e with
          | inl _ => NaN
          | inr (inl s) => Str s
          | inr (inr (inl x)) => Num x
          | inr (inr (inr t)) => Timestamp t
          end)).
  by intros [].
Defined.

Inductive exn :=
| KeyError (key : string)
| ParserError (text : string)
| NameError (name : string)
| DatabaseError (msg : string).

Inductive result (A : Type) :=
| Ok (a : A)
| Raise (e : exn).
Arguments Ok {A} a.
Arguments Raise {A} e.

Global Instance result_ret : MRet result := λ A a, Ok a.
Global Instance result_bind : MBind result := λ A B f r,
  match r with
  | Ok a => f a
  | Raise e => Raise e
  end.

(** Run [f] over a list, stopping at the first exception. *)
Fixpoint mapR {A B} (f : A → result B) (l : list A) : result (list B) :=
  match l with
  | [] => Ok []
  | a :: l' => b ← f a; bs ← mapR f l'; mret (b :: bs)
  end.

(** A column of a table. *)
Abbreviation Series := (list cell).

(** A DataFrame, column by column: the number of rows and the labelled
    columns in display order. *)
Record DataFrame := DF {
  nrows : nat;
  cols : list (string * Series)
}.

Definition columns (df : DataFrame) : list string := (cols df).*1.

(** Every column has one cell per row. *)
Definition wf (df : DataFrame) : Prop :=
  Forall (λ cs, length cs.2 = nrows df) (cols df).

Fixpoint assoc_get (c : string) (l : list (string * Series)) : option Series :=
  match l with
  | [] => None
  | (c', s) :: l' => if decide (c' = c) then Some s else assoc_get c l'
  end.

Fixpoint assoc_set (c : string) (s : Series) (l : list (string * Series))
  : list (string * Series) :=
  match l with
  | [] => [(c, s)]
  | (c', s') :: l' =>
      if decide (c' = c) then (c, s) :: l' else (c', s') :: assoc_set c s l'
  end.

(** [df[c]] *)
Definition getitem (c : string) (df : DataFrame) : result Series :=
  match assoc_get c (cols df) with
  | Some s => Ok s
  | None => Raise (KeyError c)
  end.

(** [df[c] = s]: the column is overwritten where it stands, or added as
    the last column. *)
Definition setitem (c : string) (s : Series) (df : DataFrame) : DataFrame :=
  DF (nrows df) (assoc_set c s (cols df)).

(** Row [i] as the list of its labelled fields. *)
Definition row (df : DataFrame) (i : nat) : list (string * cell) :=
  (λ cs, (cs.1, default NaN (cs.2 !! i))) <$> cols df.

(** The table as a sequence of rows. *)
Definition rows (df : DataFrame) : list (list (string * cell)) :=
  row df <$> seq 0 (nrows df).

(** The field [c] of a row. *)
Fixpoint field (c : string) (r : list (string * cell)) : option cell :=
  match r with
  | [] => None
  | (c', v) :: r' => if decide (c' = c) then Some v else field c r'
  end.

Definition isna (c : cell) : bool := bool_decide (c = NaN).
Definition notna (c : cell) : bool := negb (isna c).

(** [s.fillna(v)] *)
Definition fillna (v : cell) (s : Series) : Series :=
  (λ c, if isna c then v else c) <$> s.

(** [s.replace(old, new)] *)
Definition replace (old new : cell) (s : Series) : Series :=
  (λ c, if decide (c = old) then new else c) <$> s.

(** [df.replace(old, new)], over every column. *)
Definition df_replace (old new : cell) (df : DataFrame) : DataFrame :=
  DF (nrows df) (prod_map id (replace old new) <$> cols df).

(** [s[mask]] and [df[mask]] for a boolean mask. *)
Fixpoint select {A} (mask : list bool) (l : list A) : list A :=
  match mask, l with
  | b :: mask', a :: l' => if b then a :: select mask' l' else select mask' l'
  | _, _ => []
  end.

Definition df_select (mask : list bool) (df : DataFrame) : DataFrame :=
  DF (length (select mask (seq 0 (nrows df))))
     (prod_map id (select mask) <$> cols df).

(** [df[[c1; ...; cn]]] *)
Definition project (cs : list string) (df : DataFrame) : result DataFrame :=
  ss ← mapR (λ c, s ← getitem c df; mret (c, s)) cs;
  mret (DF (nrows df) ss).

(** [df.rename(columns={old: new})] *)
Definition rename (old new : string) (df : DataFrame) : DataFrame :=
  DF (nrows df)
     ((λ cs, (if decide (cs.1 = old) then new else cs.1, cs.2)) <$> cols df).

(** ** Numbers and dates as pandas reads and prints them *)

Module Pandas.
Import PyStr.

(** *** Decimals *)

(** Canonical form: no trailing zero in the fraction. *)
Fixpoint dec_norm_go (m : Z) (s : nat) : decimal :=
  match s with
  | O => Dec m 0
  | S s' =>
      if decide (m `mod` 10 = 0)%Z then dec_norm_go (m `div` 10)%Z s'
      else Dec m s
  end.

Definition dec_norm (d : decimal) : decimal := dec_norm_go (mant d) (scale d).

Definition dec_zero : decimal := Dec 0 0.

Definition dec_add (a b : decimal) : decimal :=
  dec_norm (Dec (mant a * 10 ^ Z.of_nat (scale b) + mant b * 10 ^ Z.of_nat (scale a))
                (scale a + scale b)).

Definition canonical (d : decimal) : Prop :=
  scale d = 0 ∨ (mant d `mod` 10 ≠ 0)%Z.

(** *** Reading a number: [pd.to_numeric(..., errors='coerce')] *)

Definition digit_val (c : ascii) : N := N.of_nat (code c - 48).

(** The longest prefix of digits: its value on top of [acc], how many
    digits were read on top of [n], and the rest. *)
Fixpoint read_digits (acc : N) (n : nat) (s : string) : N * nat * string :=
  match s with
  | String c r =>
      if is_digit c then read_digits (10 * acc + digit_val c) (S n) r
      else (acc, n, s)
  | "" => (acc, n, "")
  end.

(** An optional sign, digits, an optional point and more digits, at least
    one digit in all, and nothing after. Exponents, infinities and blanks
    around the number, which pandas reads too, contain characters that
    the callers below have removed before; they are read as unparseable
    here. *)
Definition parse_number (s : string) : option decimal :=
  let '(neg, s1) :=
    match s with
    | String "-" r => (true, r)
    | String "+" r => (false, r)
    | _ => (false, s)
    end in
  let '(i, ni, s2) := read_digits 0 0 s1 in
  let '(m, nf, s3) :=
    match s2 with
    | String "." r => read_digits i 0 r
    | _ => (i, 0, s2)
    end in
  if decide (ni + nf = 0) then None
  else match s3 with
       | "" => Some (dec_norm (Dec (if neg : bool then - Z.of_N m else Z.of_N m) nf))
       | _ => None
       end.

(** With [errors='coerce'] what cannot be read, the empty string
    included, becomes NaN. *)
Definition to_numeric (s : string) : cell :=
  match parse_number s with
  | Some d => Num d
  | None => NaN
  end.

(** *** Printing *)

Fixpoint zeros (n : nat) : string :=
  match n with
  | O => ""
  | S n' => String "0" (zeros n')
  end.

(** [s] padded with zeros on the left to [n] characters. *)
Definition pad (n : nat) (s : string) : string :=
  zeros (n - String.length s) +:+ s.

Fixpoint drop_right_zeros (s : string) : string :=
  match s with
  | "" => ""
  | String c r =>
      match drop_right_zeros r with
      | "" => if decide (c = "0"%char) then "" else String c ""
      | r' => String c r'
      end
  end.

(** [str] of a float, as [astype(str)] prints it: positional notation
    with at least one digit after the point when the decimal point is
    within 16 digits after and 4 digits before the first significant
    digit, exponent notation otherwise. *)
Definition float_repr (d : decimal) : string :=
  let m := Z.abs_N (mant d) in
  let s := scale d in
  let sign := if (mant d <? 0)%Z then "-" else "" in
  let decpt : Z := (Z.of_nat (String.length (pretty m)) - Z.of_nat s)%Z in
  if decide (m = 0%N) then "0.0"
  else if decide (-4 < decpt ∧ decpt ≤ 16)%Z then
    sign +:+ pretty (m `div` 10 ^ N.of_nat s)%N +:+ "." +:+
      (if decide (s = 0) then "0" else pad s (pretty (m `mod` 10 ^ N.of_nat s)%N))
  else
    let e := (decpt - 1)%Z in
    match drop_right_zeros (pretty m) with
    | String c r =>
        sign +:+ String c (match r with "" => "" | _ => "." +:+ r end)
          +:+ "e" +:+ (if (e <? 0)%Z then "-" else "+")
          +:+ pad 2 (pretty (Z.abs_N e))
    | "" => "0.0"
    end.

(** Where the decimal point stands, counted from the first digit of
    the mantissa as printed. *)
Definition decpt (d : decimal) : Z :=
  Z.of_nat (String.length (pretty (Z.abs_N (mant d)))) - Z.of_nat (scale d).

(** The numbers that [float_repr] prints in positional notation: zero,
    and those from 0.0001 up to, not including, 1e16 in magnitude. *)
Definition positional (d : decimal) : Prop :=
  mant d = 0%Z ∨ (-4 < decpt d ∧ decpt d ≤ 16)%Z.

(** [strftime('%Y-%m-%d %H:%M:%S')], which is also [str] of a timestamp. *)
Definition strftime (t : datetime) : string :=
  pad 4 (pretty (year t)) +:+ "-" +:+ pad 2 (pretty (month t)) +:+ "-" +:+
  pad 2 (pretty (day t)) +:+ " " +:+ pad 2 (pretty (hour t)) +:+ ":" +:+
  pad 2 (pretty (minute t)) +:+ ":" +:+ pad 2 (pretty (second t)).

(** [astype(str)] on one cell. *)
Definition astype_str (c : cell) : string :=
  match c with
  | NaN => "nan"
  | Str s => s
  | Num x => float_repr x
  | Timestamp t => strftime t
  end.

Fixpoint filter_chars (p : ascii → bool) (s : string) : string :=
  match s with
  | "" => ""
  | String c r => if p c then String c (filter_chars p r) else filter_chars p r
  end.

Definition numeric_char (c : ascii) : bool :=
  is_digit c || bool_decide (c = "."%char) || bool_decide (c = "-"%char).

(** [.str.replace(r'[^\d.-]', '', regex=True)] *)
Definition strip_non_numeric : string → string := filter_chars numeric_char.

(** [pd.to_numeric(s.astype(str).str.replace(r'[^\d.-]', '', regex=True),
    errors='coerce')] on one cell. *)
Definition coerce (c : cell) : cell :=
  to_numeric (strip_non_numeric (astype_str c)).

(** The cell is read back from its printed form as it is. *)
Definition reread (c : cell) : Prop := coerce c = c.

(** The number that a run of digits denotes, on top of [acc]. *)
Fixpoint digits_value (acc : N) (s : string) : N :=
  match s with
  | "" => acc
  | String c r => digits_value (10 * acc + digit_val c) r
  end.

(** *** Dates *)

(** The date reader of pandas is taken as given: [parse_datetime s] is
    [None] when pandas raises on the text [s], [Some None] when it reads
    [NaT] and [Some (Some t)] when it reads the time [t];
    [epoch_datetime] does the same for a number. *)
Class DateParser := {
  parse_datetime : string → option (option datetime);
  epoch_datetime : decimal → option (option datetime)
}.

Definition to_datetime_cell `{DateParser} (c : cell) : result cell :=
  match c with
  | NaN => Ok NaN
  | Timestamp t => Ok (Timestamp t)
  | Str s =>
      match parse_datetime s with
      | Some t => Ok (from_option Timestamp NaN t)
      | None => Raise (ParserError s)
      end
  | Num x =>
      match epoch_datetime x with
      | Some t => Ok (from_option Timestamp NaN t)
      | None => Raise (ParserError (float_repr x))
      end
  end.

(** [pd.to_datetime(s)] with the default [errors='raise'], each cell
    read on its own. *)
Definition to_datetime `{DateParser} (s : Series) : result Series :=
  mapR to_datetime_cell s.

(** [s.dt.strftime('%Y-%m-%d %H:%M:%S')] *)
Definition dt_strftime (s : Series) : Series :=
  (λ c, match c with Timestamp t => Str (strftime t) | _ => NaN end) <$> s.

(** *** Lookup tables and masks *)

(** [df[df[k].notna() & df[v].notna()].groupby(k)[v].first()]: for every
    key, the value on the first row that has both. *)
Definition groupby_first (keys vals : Series) : gmap cell cell :=
  foldr (λ kv m, if notna kv.1 && notna kv.2 then <[kv.1 := kv.2]> m else m)
        ∅ (zip keys vals).

(** [s.map(mapping)]: keys the mapping lacks give NaN. *)
Definition map_series (m : gmap cell cell) (s : Series) : Series :=
  (λ k, default NaN (m !! k)) <$> s.

(** [df.loc[mask, c] = values]: the cells of [old] where the mask holds
    are taken from [values]. *)
Fixpoint assign_where (mask : list bool) (values old : Series) : Series :=
  match mask, values, old with
  | b :: mask', v :: values', o :: old' =>
      (if b then v else o) :: assign_where mask' values' old'
  | _, _, _ => old
  end.

(** *** Sums *)

(** The cells of a float64 column: numbers and NaN. *)
Definition float64 (s : Series) : option (list (option decimal)) :=
  mapM (λ c, match c with
             | Num x => Some (Some x)
             | NaN => Some None
             | _ => None
             end) s.

(** [sum] skips NaN. *)
Definition add_value (acc : decimal) (v : option decimal) : decimal :=
  match v with Some x => dec_add acc x | None => acc end.

Definition nansum (l : list (option decimal)) : decimal :=
  foldl add_value dec_zero l.

(** One row added to the totals of its key. *)
Definition sum_step (m : gmap cell decimal) (kv : cell * option decimal)
  : gmap cell decimal :=
  if isna kv.1 then m
  else <[kv.1 := add_value (default dec_zero (m !! kv.1)) kv.2]> m.

(** [df.groupby(key)[col].sum()] on a float64 column, as the mapping
    from each key to its total. Rows whose key is NaN belong to no
    group. A column that is not float64 is not summed as numbers and is
    outside this model ([None]). *)
Definition groupby_sum (keys vals : Series) : option (gmap cell decimal) :=
  vs ← float64 vals;
  Some (foldl sum_step ∅ (zip keys vs)).

(** [df[cs].sum(axis=1)]: the row-wise total of the float64 columns
    [cs], NaN skipped. *)
Definition number_or_zero (c : cell) : decimal :=
  match c with Num x => x | _ => dec_zero end.

Definition sum_axis1 (n : nat) (ss : list Series) : Series :=
  (λ i, Num (foldl (λ acc s, dec_add acc (number_or_zero (default NaN (s !! i))))
                   dec_zero ss)) <$> seq 0 n.

End Pandas.

(** ** ebay_sql_dash_app/ebay_sql_query.py *)

Module SqlQuery.
Import PyStr.

(** [re.sub(r'[^a-z0-9\s]', ' ', name)] *)
Definition sub_special : string → string :=
  map_chars (λ c, if is_lower c || is_digit c || is_space c then c else " "%char).

Definition filler_words : list string :=
  ["the"; "a"; "an"; "and"; "or"; "but"; "in"; "on"; "at"; "to"; "for"; "of"; "with"].

Definition clean_column_name (column : string) : string :=
  let name := lower column in
  let name := sub_special name in
  let name := squeeze false name in
  let words := split name in
  let words := filter (λ w, w ∉ filler_words) words in
  match words with
  | [] => "column"
  | _ =>
      let name := join "_" words in
      match name with
      | String c _ => if isalpha c then name else "col_" +:+ name
      | "" => name
      end
  end.

(** Characters of a word: [a-z0-9]. *)
Definition word_char (c : ascii) : bool := is_lower c || is_digit c.

(** What is left after the first substitution: word characters and
    whitespace. *)
Definition spaced (c : ascii) : bool := word_char c || is_space c.

(** A non-empty run of word characters. *)
Definition word (w : string) : Prop := w ≠ "" ∧ all_chars word_char w.

(** Characters of an identifier after the first: [a-z0-9_]. *)
Definition ident_char (c : ascii) : bool :=
  word_char c || bool_decide (c = "_"%char).

(** A letter, then lowercase letters, digits and underscores. *)
Definition sql_identifier (s : string) : bool :=
  match s with
  | String c r => isalpha c && all_chars ident_char r
  | "" => false
  end.

(** The names tried by the loop of [clean_column_names]. *)
Definition candidate (base_name : string) (k : nat) : string :=
  base_name +:+ "_" +:+ pretty k.

(** The loop [while clean_name in new_names] of [clean_column_names].
    [fuel] bounds the number of turns; [unique_name_total] below shows
    that [length new_names] turns are always enough. *)
Fixpoint unique_name (fuel : nat) (new_names : list string)
    (base_name clean_name : string) (counter : nat) : option string :=
  if bool_decide (clean_name ∈ new_names) then
    match fuel with
    | O => None
    | S fuel' =>
        unique_name fuel' new_names base_name
          (candidate base_name counter) (S counter)
    end
  else Some clean_name.

(** One turn of the loop over [df.columns]. *)
Definition clean_step (st : option (list string * gmap string string))
    (col : string) : option (list string * gmap string string) :=
  '(new_names, original_names) ← st;
  let clean_name := clean_column_name col in
  clean_name ← unique_name (length new_names) new_names clean_name clean_name 1;
  Some (new_names ++ [clean_name], <[clean_name := col]> original_names).

(** The table with its columns renamed, and the mapping from the new
    names to the original ones. *)
Definition clean_column_names (df : DataFrame)
  : option (DataFrame * gmap string string) :=
  '(new_names, original_names) ← foldl clean_step (Some ([], ∅)) (columns df);
  Some (DF (nrows df) (zip new_names (cols df).*2), original_names).

(** What the page shows for a result. *)
Inductive component :=
| NoResults
| ScalarResult (value : cell)
| SingleRow (fields : list (string * cell))
| DataTable (df : DataFrame).

(** [df.empty] *)
Definition empty (df : DataFrame) : bool :=
  bool_decide (nrows df = 0) || bool_decide (cols df = []).

Definition is_scalar_result (df : DataFrame) : bool :=
  bool_decide (nrows df = 1) && bool_decide (length (cols df) = 1).

Definition is_single_row_result (df : DataFrame) : bool :=
  bool_decide (nrows df = 1) && bool_decide (1 < length (cols df)).

Definition create_result_component (result_df : DataFrame) : component :=
  if empty result_df then NoResults
  else if is_scalar_result result_df then
    match row result_df 0 with
    | (_, value) :: _ => ScalarResult value
    | [] => NoResults
    end
  else if is_single_row_result result_df then SingleRow (row result_df 0)
  else DataTable result_df.

(** [df.head()] *)
Definition head (df : DataFrame) : DataFrame :=
  DF (nrows df `min` 5) (prod_map id (take 5) <$> cols df).

(** The names bound in the module when a callback runs: the imports
    ([from dash import Dash, html, dcc, dash_table, Input, Output, State],
    [import pandas as pd], ...) and the module's own definitions. *)
Definition module_names : list string :=
  [ "Dash"; "html"; "dcc"; "dash_table"; "Input"; "Output"; "State";
    "pd"; "sqlite3"; "io"; "base64"; "re"; "np"; "dbc";
    "app"; "DataStore"; "data_store"; "clean_column_name";
    "clean_column_names"; "format_scalar_value"; "is_scalar_result";
    "is_single_row_result"; "create_result_component"; "validate_csv";
    "process_upload"; "run_query" ].

(** Evaluating a global name. *)
Definition global (name : string) : result unit :=
  if bool_decide (name ∈ module_names) then Ok () else Raise (NameError name).

(** An output of a callback: a new value, or [no_update]. *)
Inductive output (A : Type) :=
| no_update
| update (a : A).
Arguments no_update {A}.
Arguments update {A} a.

(** [str(e)] *)
Definition exn_str (e : exn) : string :=
  match e with
  | KeyError k => "'" +:+ k +:+ "'"
  | ParserError t => "Unknown datetime string format, unable to parse: " +:+ t
  | NameError n => "name '" +:+ n +:+ "' is not defined"
  | DatabaseError m => m
  end.

Section run_query.
(** [pd.read_sql_query(query, conn)] on the shared connection: the
    result table, or the exception of the database. *)
Variable read_sql_query : string → result DataFrame.
(** [data_store.df] *)
Variable data_store_df : DataFrame.

Definition run_query (n_clicks : nat) (query : option string)
  : result (output component * string * output string) :=
  match query with
  | None | Some "" =>
      _ ← global "dash";
      mret (no_update, "", no_update)
  | Some query =>
      match read_sql_query query with
      | Ok result_df =>
          let result_component := create_result_component result_df in
          let info_message :=
            if is_scalar_result result_df then "Query returned a single value"
            else if is_single_row_result result_df then "Query returned a single row"
            else "Query returned " +:+ pretty (nrows result_df) +:+ " rows" in
          mret (update result_component, "", update info_message)
      | Raise e =>
          mret (update (create_result_component (head data_store_df)),
                "Query error: " +:+ exn_str e,
                update ("Showing first 5 rows of " +:+ pretty (nrows data_store_df)
                          +:+ " total rows"))
      end
  end.
End run_query.

End SqlQuery.

(** ** hoold.py *)

Module Hoold.
Import Pandas.

Inductive message :=
| Successfully_loaded
| Error_processing (e : exn).

(** The columns that [parse_contents] writes. *)
Definition written_columns : list string :=
  ["Transaction creation date"; "Net amount"; "Item title"].

(** The Item title column that [parse_contents] leaves, from the Order
    number and Item title columns it found: the four statements on that
    column, in one expression. *)
Definition resolved_titles (orders title : Series) : Series :=
  let title := replace (Str "--") NaN title in
  fillna (Str "--")
    (assign_where (notna <$> orders)
       (map_series (groupby_first orders title) orders) title).

Section parse.
Context `{DateParser}.

(** The [try] block of [parse_contents], from the table [df] that
    [pd.read_csv] or [pd.read_excel] has read. *)
Definition parse_contents_try (df : DataFrame) : result DataFrame :=
  date ← getitem "Transaction creation date" df;
  date ← to_datetime date;
  let df := setitem "Transaction creation date" date df in
  net ← getitem "Net amount" df;
  let df := setitem "Net amount" (coerce <$> net) df in
  title ← getitem "Item title" df;
  let df := setitem "Item title" (replace (Str "--") NaN title) df in
  orders ← getitem "Order number" df;
  title ← getitem "Item title" df;
  let title_mapping := groupby_first orders title in
  orders ← getitem "Order number" df;
  let mapped := map_series title_mapping orders in
  orders ← getitem "Order number" df;
  let df := setitem "Item title" (assign_where (notna <$> orders) mapped title) df in
  title ← getitem "Item title" df;
  let df := setitem "Item title" (fillna (Str "--") title) df in
  mret df.

(** [parse_contents] returns the table and a message, or [None] and
    the message of the exception that the [except] clause caught. *)
Definition parse_contents (df : DataFrame) : option DataFrame * message :=
  match parse_contents_try df with
  | Ok df' => (Some df', Successfully_loaded)
  | Raise e => (None, Error_processing e)
  end.

(** [update_sales_trend]:
    [df.groupby('Transaction creation date')['Net amount'].sum()] *)
Definition daily_sales (df : DataFrame) : result (option (gmap cell decimal)) :=
  date ← getitem "Transaction creation date" df;
  net ← getitem "Net amount" df;
  mret (groupby_sum date net).

End parse.

End Hoold.

(** ** gen_dash_app_1.py *)

Module GenDash.
Import Pandas.
Export Hoold (message, Successfully_loaded, Error_processing).

(** The column [Very high "item not as described" fee]. *)
Definition item_not_as_described_fee : string :=
  "Very high " +:+ String (ascii_of_nat 34) "item not as described"
    +:+ String (ascii_of_nat 34) " fee".

Definition numeric_columns : list string :=
  [ "eBay collected tax"; "Item price"; "Quantity"; "Item subtotal";
    "Shipping and handling"; "Seller collected tax"; "Discount";
    "Gross amount"; "Final Value Fee - fixed"; "Final Value Fee - variable";
    "Below standard performance fee"; item_not_as_described_fee;
    "International fee"; "Deposit processing fee"; "Regulatory operating fee";
    "Promoted Listing Standard fee"; "Charity donation"; "Shipping labels";
    "Payment Dispute Fee"; "Expenses"; "Refunds"; "Order earnings" ].

(** The columns whose NaN cells are shown as [--], in the order of the
    assignments. *)
Definition filled_columns : list string :=
  [ "Order number"; "Item ID"; "Buyer name"; "Ship to city";
    "Ship to province/region/state"; "Ship to zip"; "Ship to country";
    "Transaction currency"; "Payout currency" ].

Definition fee_columns : list string :=
  [ "Final Value Fee - fixed"; "Final Value Fee - variable";
    "Below standard performance fee"; item_not_as_described_fee;
    "International fee"; "Deposit processing fee"; "Regulatory operating fee";
    "Promoted Listing Standard fee" ].

(** The columns that [parse_contents] cannot do without. *)
Definition required_columns : list string :=
  "Order creation date" :: "Item title" :: "Order number"
    :: filled_columns ++ fee_columns.

(** The columns that [parse_contents] writes. *)
Definition written_columns : list string :=
  "Order creation date" :: "Item title" :: "Total Fees"
    :: numeric_columns ++ filled_columns.

(** What the loop over [numeric_columns] makes of one column:
    [pd.to_numeric(...).fillna(0)]. *)
Definition coerced (s : Series) : Series :=
  fillna (Num dec_zero) (coerce <$> s).

(** One turn of the loop over [numeric_columns]. *)
Definition coerce_column (df : DataFrame) (col : string) : DataFrame :=
  match assoc_get col (cols df) with
  | Some s => setitem col (coerced s) df
  | None => df
  end.

(** [df[col] = df[col].fillna('--')] *)
Definition fill_column (df : result DataFrame) (col : string) : result DataFrame :=
  df ← df;
  s ← getitem col df;
  mret (setitem col (fillna (Str "--") s) df).

Section parse.
Context `{DateParser}.

(** The [try] block of [parse_contents], from the table [df] that has
    been read, with the three lists of column names as arguments. *)
Definition try_with (numeric filled fee : list string) (df : DataFrame)
  : result DataFrame :=
  date ← getitem "Order creation date" df;
  date ← to_datetime date;
  let df := setitem "Order creation date" date df in
  let df := foldl coerce_column df numeric in
  title ← getitem "Item title" df;
  let df := setitem "Item title" (replace (Str "--") NaN title) df in
  orders ← getitem "Order number" df;
  title ← getitem "Item title" df;
  let title_mapping := groupby_first orders title in
  orders ← getitem "Order number" df;
  let mapped := map_series title_mapping orders in
  orders ← getitem "Order number" df;
  let df := setitem "Item title" (assign_where (notna <$> orders) mapped title) df in
  title ← getitem "Item title" df;
  let df := setitem "Item title" (fillna (Str "--") title) df in
  df ← foldl fill_column (Ok df) filled;
  fees ← mapR (λ c, getitem c df) fee;
  let df := setitem "Total Fees" (sum_axis1 (nrows df) fees) df in
  date ← getitem "Order creation date" df;
  let df := setitem "Order creation date" (dt_strftime date) df in
  mret df.

Definition parse_contents_try : DataFrame → result DataFrame :=
  try_with numeric_columns filled_columns fee_columns.

Definition parse_contents (df : DataFrame) : option DataFrame * message :=
  match parse_contents_try df with
  | Ok df' => (Some df', Successfully_loaded)
  | Raise e => (None, Error_processing e)
  end.

End parse.

End GenDash.

(** ** calculate_payout.py *)

Module CalculatePayout.
Import Pandas.

(** [csv.replace('--', np.nan, inplace=True)] *)
Definition replace_sentinel : DataFrame → DataFrame :=
  df_replace (Str "--") NaN.

Definition report_columns : list string :=
  ["Transaction creation date"; "Type"; "Order number"; "Net amount"; "Item title"].

(** [csv[csv['Type'] != 'Payout']] *)
Definition drop_payouts (csv : DataFrame) : result DataFrame :=
  type ← getitem "Type" csv;
  mret (df_select ((λ c, bool_decide (c ≠ Str "Payout")) <$> type) csv).

(** The projection on [report_columns] and the renaming of the date
    column. *)
Definition project_rename (report : DataFrame) : result DataFrame :=
  report ← project report_columns report;
  mret (rename "Transaction creation date" "Date" report).

(** [ref]: the dictionary filled by the loop over the Order rows,
    [ref[order] = item]. *)
Definition ref_of (orders items : Series) : gmap cell cell :=
  foldl (λ ref oi, <[oi.1 := oi.2]> ref) ∅ (zip orders items).

Definition ref (report : DataFrame) : result (gmap cell cell) :=
  type ← getitem "Type" report;
  let orders := df_select ((λ c, bool_decide (c = Str "Order")) <$> type) report in
  order ← getitem "Order number" orders;
  item ← getitem "Item title" orders;
  mret (ref_of order item).

(** The second loop: a title that is NaN is looked up in [ref]; the
    [KeyError] of a missing order number is caught and the title stays. *)
Definition backfill_cell (ref : gmap cell cell) (order title : cell) : cell :=
  if isna title then default title (ref !! order) else title.

Definition backfill (ref : gmap cell cell) (report : DataFrame) : result DataFrame :=
  order ← getitem "Order number" report;
  title ← getitem "Item title" report;
  mret (setitem "Item title" (zip_with (backfill_cell ref) order title) report).

(** The script up to [print(report)], from the table read from the CSV
    file: the table [csv] as the script leaves it, and the report. *)
Definition report (csv : DataFrame) : DataFrame * result DataFrame :=
  let csv := replace_sentinel csv in
  (csv,
   report ← drop_payouts csv;
   report ← project_rename report;
   r ← ref report;
   backfill r report).

(** [cabi.groupby(['Date'])['Net amount'].sum()] *)
Definition bydate (cabi : DataFrame) : result (option (gmap cell decimal)) :=
  date ← getitem "Date" cabi;
  net ← getitem "Net amount" cabi;
  mret (groupby_sum date net).

(** [cabi.groupby(['Item title'])['Net amount'].sum()] *)
Definition res (cabi : DataFrame) : result (option (gmap cell decimal)) :=
  title ← getitem "Item title" cabi;
  net ← getitem "Net amount" cabi;
  mret (groupby_sum title net).

End CalculatePayout.

(** ** app/app.py *)

Module App.
Import Pandas.

Definition report_columns : list string :=
  [ "Transaction creation date"; "Type"; "Order number"; "Net amount";
    "Item title"; "Buyer username" ].

Definition renames : list (string * string) :=
  [ ("Transaction creation date", "date"); ("Type", "type");
    ("Order number", "order"); ("Net amount", "net");
    ("Item title", "title"); ("Buyer username", "buyer") ].

Definition ref (report : DataFrame) : result (gmap cell cell) :=
  type ← getitem "type" report;
  let orders := df_select ((λ c, bool_decide (c = Str "order")) <$> type) report in
  order ← getitem "order" orders;
  item ← getitem "title" orders;
  mret (CalculatePayout.ref_of order item).

Definition backfill (ref : gmap cell cell) (report : DataFrame) : result DataFrame :=
  order ← getitem "order" report;
  title ← getitem "title" report;
  mret (setitem "title" (zip_with (CalculatePayout.backfill_cell ref) order title) report).

(** [transform(df)]. The first statement,
    [df.replace('--', np.nan, inplace=True)], writes into the table of
    the caller; everything after works on [report], a table of its own.
    The result is the caller's table after the call, and what the call
    returns or raises. *)
Definition transform (df : DataFrame) : DataFrame * result DataFrame :=
  let df := df_replace (Str "--") NaN df in
  (df,
   type ← getitem "Type" df;
   let report := df_select ((λ c, bool_decide (c = Str "Order")) <$> type) df in
   report ← project report_columns report;
   let report := foldl (λ r on, rename on.1 on.2 r) report renames in
   r ← ref report;
   backfill r report).

End App.

(** ** A date reader for the examples *)

Module IsoDates.
Import PyStr Pandas.

(** Exactly [n] digits. *)
Fixpoint take_number (n acc : nat) (s : string) : option (nat * string) :=
  match n with
  | O => Some (acc, s)
  | S n' =>
      match s with
      | String c r =>
          if is_digit c then take_number n' (10 * acc + (code c - 48)) r else None
      | "" => None
      end
  end.

Definition expect (c : ascii) (s : string) : option string :=
  match s with
  | String c' r => if decide (c = c') then Some r else None
  | "" => None
  end.

(** [YYYY-MM-DD] and [YYYY-MM-DD HH:MM:SS]; the empty text reads as NaT.
    pandas reads these so, and more formats besides, which this reader
    rejects; it rejects texts without any digit, as pandas does. *)
Definition parse_iso (s : string) : option (option datetime) :=
  if decide (s = "") then Some None else
  '(y, s) ← take_number 4 0 s;
  s ← expect "-" s;
  '(mo, s) ← take_number 2 0 s;
  s ← expect "-" s;
  '(d, s) ← take_number 2 0 s;
  if decide (s = "") then Some (Some (DT y mo d 0 0 0)) else
  s ← expect " " s;
  '(h, s) ← take_number 2 0 s;
  s ← expect ":" s;
  '(mi, s) ← take_number 2 0 s;
  s ← expect ":" s;
  '(se, s) ← take_number 2 0 s;
  if decide (s = "") then Some (Some (DT y mo d h mi se)) else None.

(** Numbers are read as nanoseconds since 1970, to the second. *)
Definition epoch (x : decimal) : option (option datetime) :=
  if decide (0 ≤ mant x < 10 ^ 9)%Z then Some (Some (DT 1970 1 1 0 0 0)) else None.

#[export] Instance iso_dates : DateParser :=
  {| parse_datetime := parse_iso; epoch_datetime := epoch |}.

End IsoDates.

(** ** Notions used to state the properties *)

Module Titles.
Import Pandas.

(** The value on the first row that has the key [k] and a value. *)
Fixpoint first_value (k : cell) (kvs : list (cell * cell)) : option cell :=
  match kvs with
  | [] => None
  | (k', v) :: kvs' =>
      if decide (k' = k) then
        if notna k' && notna v then Some v else first_value k kvs'
      else first_value k kvs'
  end.

(** [df.loc[orders.notna(), 'Item title'] = orders.map(m)] on one row. *)
Definition backfilled (m : gmap cell cell) (o t : cell) : cell :=
  if notna o then default NaN (m !! o) else t.

Definition backfill_rows (m : gmap cell cell) (kvs : list (cell * cell))
  : list (cell * cell) :=
  (λ ot, (ot.1, backfilled m ot.1 ot.2)) <$> kvs.

(** No cell of [s] is the sentinel. *)
Definition sentinel_free (s : Series) : Prop := Forall (λ c, c ≠ Str "--") s.

End Titles.

Module Sums.
Import Pandas.

(** The values of the rows whose key is [k], in row order. *)
Definition group (k : cell) (keys : Series) (vs : list (option decimal))
  : list (option decimal) :=
  (filter (λ kv, kv.1 = k) (zip keys vs)).*2.

(** The sum in which an absent value counts as zero. *)
Definition zero_filled_sum (l : list (option decimal)) : decimal :=
  foldl dec_add dec_zero (default dec_zero <$> l).

End Sums.

(** ** Tables for the examples *)

Module Examples.

(** Two Order rows with the same order number and different titles,
    and a Refund row of that order without a title. *)
Definition two_orders : DataFrame := DF 3 [
  ("Transaction creation date", [Str "2024-01-05"; Str "2024-01-06"; Str "2024-01-07"]);
  ("Type", [Str "Order"; Str "Order"; Str "Refund"]);
  ("Order number", [Str "O1"; Str "O1"; Str "O1"]);
  ("Net amount", [Str "10.00"; Str "20.00"; Str "-5.00"]);
  ("Item title", [Str "Widget A"; Str "Widget B"; Str "--"]) ].

Definition money : Series := [Str "$1,234.56"; Str "--"; Str "abc"].

Definition prices : DataFrame := DF 3 [("Item price", money)].

Definition raw_ledger : DataFrame := DF 2 [
  ("Transaction creation date", [Str "2024-01-05"; Str "2024-01-06"]);
  ("Type", [Str "Order"; Str "Refund"]);
  ("Order number", [Str "O1"; Str "O1"]);
  ("Net amount", [Str "10.00"; Str "-10.00"]);
  ("Item title", [Str "Widget A"; Str "--"]);
  ("Buyer username", [Str "bob"; Str "--"]) ].

Definition day : cell := Timestamp (DT 2024 1 5 0 0 0).

(** An orders report as gen_dash_app_1.py reads it. *)
Definition orders_report : DataFrame := DF 2 [
  ("Order creation date", [Str "2024-01-05"; Str "2024-01-06"]);
  ("Order number", [Str "O1"; Str "O2"]);
  ("Item ID", [Str "1001"; Str "1002"]);
  ("Item title", [Str "Widget A"; Str "Widget B"]);
  ("Buyer username", [Str "bob99"; Str "al"]);
  ("Buyer name", [Str "bob"; NaN]);
  ("Ship to city", [Str "Reno"; Str "Boise"]);
  ("Ship to province/region/state", [Str "NV"; Str "ID"]);
  ("Ship to zip", [Str "89501"; Str "83702"]);
  ("Ship to country", [Str "US"; Str "US"]);
  ("Transaction currency", [Str "USD"; Str "USD"]);
  ("Payout currency", [Str "USD"; Str "USD"]);
  ("Gross amount", [Str "$1,234.56"; Str "--"]);
  ("Final Value Fee - fixed", [Str "0.30"; Str "0.30"]);
  ("Final Value Fee - variable", [Str "1.25"; Str "--"]);
  ("Below standard performance fee", [Str "--"; Str "--"]);
  (GenDash.item_not_as_described_fee, [Str "--"; Str "--"]);
  ("International fee", [Str "--"; Str "--"]);
  ("Deposit processing fee", [Str "--"; Str "--"]);
  ("Regulatory operating fee", [Str "--"; Str "--"]);
  ("Promoted Listing Standard fee", [Str "--"; Str "0.45"]) ].

(** The same report with a date that cannot be read. *)
Definition bad_dates : DataFrame :=
  setitem "Order creation date" [Str "abc"; Str "2024-01-06"] orders_report.

(** The same report with no order numbers. *)
Definition no_order_numbers : DataFrame :=
  setitem "Order number" [NaN; NaN] orders_report.

(** A ledger with an amount below 0.0001. *)
Definition tiny_amount : DataFrame := DF 1 [
  ("Transaction creation date", [Str "2024-01-05"]);
  ("Type", [Str "Other fee"]);
  ("Order number", [NaN]);
  ("Net amount", [Str "0.00001"]);
  ("Item title", [Str "--"]) ].

End Examples.

(** ** More notions used to state the properties *)

Module Names.
Import PyStr SqlQuery.

(** The name that [clean_column_name] makes of a list of words. *)
Definition named (ws : list string) : string :=
  let name := join "_" ws in
  match name with
  | String c _ => if isalpha c then name else "col_" +:+ name
  | "" => name
  end.

(** The first [k] names given to columns that all clean to
    [base_name]. *)
Definition numbered (base_name : string) (k : nat) : list string :=
  (λ i, match i with 0 => base_name | _ => candidate base_name i end) <$> seq 0 k.

End Names.

Module LastTitles.

(** The value on the last row that has the key [k]. *)
Definition last_value (k : cell) (kvs : list (cell * cell)) : option cell :=
  snd <$> last (filter (λ kv, kv.1 = k) kvs).

(** What the second loop of calculate_payout.py makes of a title, from
    the Order rows [order_rows] of the report. *)
Definition filled (order_rows : list (cell * cell)) (o t : cell) : cell :=
  if isna t then default NaN (last_value o order_rows) else t.

End LastTitles.

Module Untitled.

(** A title cell that holds no title: NaN or the sentinel. *)
Definition untitled (t : cell) : Prop := t = NaN ∨ t = Str "--".

Global Instance untitled_dec t : Decision (untitled t).
Proof. unfold untitled. apply _. Defined.

End Untitled.

(** ** More Python string primitives *)

Module PyStr2.

(** [s.split(sep)] for a separator of one character: the pieces between
    the separators, empty ones included. *)
Fixpoint split_on (sep : ascii) (s : string) : list string :=
  match s with
  | "" => [""]
  | String c r =>
      if decide (c = sep) then "" :: split_on sep r
      else match split_on sep r with
           | w :: ws => String c w :: ws
           | [] => [String c ""]
           end
  end.

(** [sub in s] *)
Fixpoint contains (sub s : string) : bool :=
  String.prefix sub s ||
  match s with
  | "" => false
  | String _ r => contains sub r
  end.

(** [s.endswith(suffix)] *)
Definition endswith (suffix s : string) : bool :=
  bool_decide (String.length suffix ≤ String.length s) &&
  bool_decide
    (String.substring (String.length s - String.length suffix) (String.length suffix) s
     = suffix).

(** [s.startswith(prefix)] *)
Definition startswith (prefix s : string) : bool := String.prefix prefix s.

End PyStr2.

(** ** The theme toggle of hoold.py and gen_dash_app_1.py *)

Module Themes.

Record theme := {
  background : string; paper : string; text : string; secondary_text : string;
  border : string; hover : string; accent : string
}.

Definition DARK_THEME : theme := {|
  background := "#1a1a1a"; paper := "#2d2d2d"; text := "#ffffff";
  secondary_text := "#a3a3a3"; border := "#404040"; hover := "#404040";
  accent := "#3498db" |}.

Definition LIGHT_THEME : theme := {|
  background := "#ffffff"; paper := "#f5f5f5"; text := "#000000";
  secondary_text := "#666666"; border := "#dddddd"; hover := "#f0f0f0";
  accent := "#2980b9" |}.

(** A style dictionary, in the order of its keys in the source. *)
Abbreviation style := (list (string * string)).

(** What the callback returns: the theme to store and five styles. *)
Record outputs := {
  theme_store : string;
  container_style : style;
  table_data_style : style;
  table_header_style : style;
  upload_style : style;
  toggle_style : style
}.

(** [toggle_theme(n_clicks, current_theme)], with the theme [first] that
    the callback sets before any click. *)
Definition toggle_with (first : string) (n_clicks : option nat)
    (current_theme : string) : outputs :=
  let current_theme :=
    match n_clicks with
    | None => first
    | Some _ => if decide (current_theme = "light") then "dark" else "light"
    end in
  let theme := if decide (current_theme = "dark") then DARK_THEME else LIGHT_THEME in
  {| theme_store := current_theme;
     container_style :=
       [ ("backgroundColor", background theme); ("color", text theme);
         ("minHeight", "100vh"); ("padding", "20px") ];
     table_data_style :=
       [ ("backgroundColor", paper theme); ("color", text theme);
         ("border", "1px solid " +:+ border theme) ];
     table_header_style :=
       [ ("backgroundColor", paper theme); ("color", text theme);
         ("border", "1px solid " +:+ border theme); ("fontWeight", "bold") ];
     upload_style :=
       [ ("width", "100%"); ("height", "60px"); ("lineHeight", "60px");
         ("borderWidth", "1px"); ("borderStyle", "dashed"); ("borderRadius", "5px");
         ("textAlign", "center"); ("margin", "10px 0");
         ("backgroundColor", paper theme); ("borderColor", border theme);
         ("color", text theme) ];
     toggle_style :=
       [ ("backgroundColor", paper theme); ("color", text theme);
         ("border", "1px solid " +:+ border theme); ("padding", "10px 20px");
         ("borderRadius", "5px"); ("cursor", "pointer"); ("marginLeft", "20px") ] |}.

(** The theme after a click. *)
Definition flipped (current_theme : string) : string :=
  if decide (current_theme = "light") then "dark" else "light".

End Themes.

(** ** [parse_contents(contents, filename)] of hoold.py and
    gen_dash_app_1.py, from the upload string *)

Module Uploads.
Import PyStr2.

(** The exceptions that are raised before the [try] block. *)
Inductive escaped :=
| ValueError_unpack (got : nat)
| binascii_Error.

Section parse_contents.
(** [base64.b64decode], [None] when it raises. *)
Variable b64decode : string → option (list Byte.byte).
(** [pd.read_csv(io.StringIO(decoded.decode('utf-8')))] and
    [pd.read_excel(io.BytesIO(decoded))]: the table, or the text of the
    exception raised. *)
Variables read_csv read_excel : list Byte.byte → string + DataFrame.
(** The statements of the [try] block that follow the reading. *)
Variable try_block : DataFrame → result DataFrame.

Definition parse_contents (contents filename : string)
  : escaped + (option DataFrame * string) :=
  match split_on "," contents with
  | [content_type; content_string] =>
      match b64decode content_string with
      | None => inl binascii_Error
      | Some decoded =>
          let read :=
            if contains "csv" filename then Some (read_csv decoded)
            else if contains "xls" filename then Some (read_excel decoded)
            else None in
          inr match read with
              | None =>
                  (None, "Unsupported file type: " +:+ filename
                           +:+ ". Please upload a CSV or Excel file.")
              | Some (inl e) =>
                  (None, "Error processing " +:+ filename +:+ ": " +:+ e)
              | Some (inr df) =>
                  match try_block df with
                  | Ok df => (Some df, "Successfully loaded " +:+ filename)
                  | Raise e =>
                      (None, "Error processing " +:+ filename +:+ ": "
                               +:+ SqlQuery.exn_str e)
                  end
              end
      end
  | parts => inl (ValueError_unpack (length parts))
  end.

End parse_contents.

(** How often [c] occurs in [s]. *)
Fixpoint count_char (c : ascii) (s : string) : nat :=
  match s with
  | "" => 0
  | String c' r => (if decide (c' = c) then 1 else 0) + count_char c r
  end.

End Uploads.

(** ** The callbacks of hoold.py *)

Module HooldApp.

(** hoold.py starts in the dark theme. *)
Definition toggle_theme : option nat → string → Themes.outputs :=
  Themes.toggle_with "dark".

(** [parse_contents] of hoold.py. *)
Definition parse_contents `{Pandas.DateParser}
    (b64decode : string → option (list Byte.byte))
    (read_csv read_excel : list Byte.byte → string + DataFrame)
  : string → string → Uploads.escaped + (option DataFrame * string) :=
  Uploads.parse_contents b64decode read_csv read_excel Hoold.parse_contents_try.

End HooldApp.

(** ** The callbacks of gen_dash_app_1.py *)

Module GenDashApp.

(** gen_dash_app_1.py starts in the light theme. *)
Definition toggle_theme : option nat → string → Themes.outputs :=
  Themes.toggle_with "light".

(** [parse_contents] of gen_dash_app_1.py. *)
Definition parse_contents `{Pandas.DateParser}
    (b64decode : string → option (list Byte.byte))
    (read_csv read_excel : list Byte.byte → string + DataFrame)
  : string → string → Uploads.escaped + (option DataFrame * string) :=
  Uploads.parse_contents b64decode read_csv read_excel GenDash.parse_contents_try.

End GenDashApp.

(** ** ebay_sql_query.py: the upload *)

Module SqlUpload.
Import PyStr PyStr2 SqlQuery.

(** The exceptions that the [except] clause of [validate_csv] catches. *)
Inductive caught :=
| ValueError_unpack (got : nat)
| binascii_Error
| ReadError (text : string).

(** The messages of the upload status. [File_size_exceeds size max] is
    printed with [size] in megabytes. *)
Inductive upload_message :=
| No_message
| Please_upload_a_CSV_file
| File_size_exceeds (size : nat) (max_size_mb : nat)
| The_CSV_file_is_empty
| CSV_must_have_labeled_columns
| File_uploaded_successfully
| Error_processing_file (e : caught).

(** [data_store]: the table, the connection with the database behind
    it, the column names and their original names. *)
Record DataStore (db : Type) := {
  ds_df : DataFrame;
  ds_connection : option db;
  ds_columns : list string;
  ds_original_columns : gmap string string
}.
Arguments ds_df {db} _.
Arguments ds_connection {db} _.
Arguments ds_columns {db} _.
Arguments ds_original_columns {db} _.

(** What [process_upload] returns. *)
Record outputs := {
  query_section_shown : bool;
  upload_status : upload_message;
  upload_status_class : string;
  column_list : string;
  sql_query : string;
  query_results : option component;
  results_info : string
}.

Section upload.
Variable b64decode : string → option (list Byte.byte).
(** [pd.read_csv(io.StringIO(decoded.decode('utf-8')))]: the table, or
    the text of the exception raised. *)
Variable read_csv : list Byte.byte → string + DataFrame.
(** The databases, the one that [sqlite3.connect] opens, and
    [df.to_sql('data', conn, index=False, if_exists='replace')]: the
    database after the call and, when it raises, the text of the
    exception. *)
Variable db : Type.
Variable connect : db.
Variable to_sql : DataFrame → db → db * option string.

(** [validate_csv(contents, filename, max_size_mb)]. The result is
    [None] when the loop of [clean_column_names] does not end. *)
Definition validate_csv (contents filename : string) (max_size_mb : nat)
  : option (option (DataFrame * gmap string string) * upload_message) :=
  if negb (endswith ".csv" (lower filename)) then
    Some (None, Please_upload_a_CSV_file)
  else
    match split_on "," contents with
    | [_; content_string] =>
        match b64decode content_string with
        | None => Some (None, Error_processing_file binascii_Error)
        | Some decoded =>
            if decide (max_size_mb * (1024 * 1024) < length decoded) then
              Some (None, File_size_exceeds (length decoded) max_size_mb)
            else
              match read_csv decoded with
              | inl e => Some (None, Error_processing_file (ReadError e))
              | inr df =>
                  if empty df then Some (None, The_CSV_file_is_empty)
                  else if existsb (startswith "Unnamed:") (columns df) then
                    Some (None, CSV_must_have_labeled_columns)
                  else
                    cleaned ← clean_column_names df;
                    Some (Some cleaned, File_uploaded_successfully)
              end
        end
    | parts => Some (None, Error_processing_file (ValueError_unpack (length parts)))
    end.

(** [data_store.get_connection()] *)
Definition get_connection (data_store : DataStore db) : db * DataStore db :=
  match ds_connection data_store with
  | Some conn => (conn, data_store)
  | None =>
      (connect,
       {| ds_df := ds_df data_store; ds_connection := Some connect;
          ds_columns := ds_columns data_store;
          ds_original_columns := ds_original_columns data_store |})
  end.

(** [data_store.create_table(df)]: the store after the call, and the
    text of the exception when [to_sql] raises. *)
Definition create_table (data_store : DataStore db) (df : DataFrame)
  : DataStore db * option string :=
  let '(conn, data_store) := get_connection data_store in
  let '(conn, raised) := to_sql df conn in
  ({| ds_df := ds_df data_store; ds_connection := Some conn;
      ds_columns := ds_columns data_store;
      ds_original_columns := ds_original_columns data_store |}, raised).

(** [process_upload(contents, filename)]: the store after the call, and
    the outputs or the text of the exception raised. *)
Definition process_upload (data_store : DataStore db)
    (contents : option string) (filename : string)
  : option (DataStore db * (string + outputs)) :=
  match contents with
  | None =>
      Some (data_store,
            inr {| query_section_shown := false; upload_status := No_message;
                   upload_status_class := ""; column_list := ""; sql_query := "";
                   query_results := None; results_info := "" |})
  | Some contents =>
      '(validated, message) ← validate_csv contents filename 10;
      match validated with
      | None =>
          Some (data_store,
                inr {| query_section_shown := false; upload_status := message;
                       upload_status_class := "mt-3 text-sm text-red-600";
                       column_list := ""; sql_query := "";
                       query_results := None; results_info := "" |})
      | Some (df, original_names) =>
          let data_store :=
            {| ds_df := df; ds_connection := ds_connection data_store;
               ds_columns := ds_columns data_store;
               ds_original_columns := ds_original_columns data_store |} in
          let '(data_store, raised) := create_table data_store df in
          match raised with
          | Some e => Some (data_store, inl e)
          | None =>
              Some ({| ds_df := ds_df data_store;
                       ds_connection := ds_connection data_store;
                       ds_columns := columns df;
                       ds_original_columns := original_names |},
                    inr {| query_section_shown := true; upload_status := message;
                           upload_status_class := "mt-3 text-sm text-green-600";
                           column_list := join ", " (columns df);
                           sql_query := "SELECT * FROM data LIMIT 5";
                           query_results := Some (create_result_component (head df));
                           results_info :=
                             "Showing first 5 rows of " +:+ pretty (nrows df)
                               +:+ " total rows" |})
          end
      end
  end.

End upload.

End SqlUpload.

(** ** The date filters of the dashboards *)

Module DateFilters.
Import Pandas.

(** Timestamps are ordered as the lists of their fields. *)
Definition dt_fields (t : datetime) : list nat :=
  [year t; month t; day t; hour t; minute t; second t].

Fixpoint lex_lt (a b : list nat) : bool :=
  match a, b with
  | x :: a', y :: b' => (x <? y) || ((x =? y) && lex_lt a' b')
  | _, _ => false
  end.

Definition dt_lt (a b : datetime) : bool := lex_lt (dt_fields a) (dt_fields b).
Definition dt_le (a b : datetime) : bool := negb (dt_lt b a).

(** [pd.to_datetime(s, format='%B %Y')] is taken as given, as the date
    reader is: [None] when pandas raises on the text, [Some None] when
    it reads [NaT]. *)
Class MonthYearParser := {
  parse_month_year : string → option (option datetime)
}.

(** A cell of a datetime column compared with a timestamp; every
    comparison with [NaT] is false. *)
Definition ge_cell (bound : option datetime) (c : cell) : bool :=
  match c, bound with
  | Timestamp t, Some a => dt_le a t
  | _, _ => false
  end.

Definition le_cell (bound : option datetime) (c : cell) : bool :=
  match c, bound with
  | Timestamp t, Some b => dt_le t b
  | _, _ => false
  end.

(** [s.dt.month == m.month] and [s.dt.year == m.year] on one cell. *)
Definition month_is (m : option datetime) (c : cell) : bool :=
  match c, m with
  | Timestamp t, Some my => bool_decide (month t = month my)
  | _, _ => false
  end.

Definition year_is (m : option datetime) (c : cell) : bool :=
  match c, m with
  | Timestamp t, Some my => bool_decide (year t = year my)
  | _, _ => false
  end.

(** The truth value of a callback input that holds a text or [None]. *)
Definition truthy (s : option string) : bool :=
  match s with
  | None | Some "" => false
  | Some _ => true
  end.

(** What the filters raise. *)
Inductive filter_error :=
| Raised (e : exn)
| TypeError_invalid_comparison (text : string)
| ValueError_month_year (text : string).

Section filters.
Context `{DateParser} `{MonthYearParser}.

(** The statements with which [update_table], [update_summary_stats] and
    [update_sales_trend] begin, from the table [df] that [pd.read_json]
    has read, for the date column [date_column] of the dashboard. *)
Definition date_filtered (date_column : string) (df : DataFrame)
    (start_date end_date selected_month_year : option string)
  : filter_error + DataFrame :=
  match getitem date_column df with
  | Raise e => inl (Raised e)
  | Ok date =>
  match to_datetime date with
  | Raise e => inl (Raised e)
  | Ok date =>
  let df := setitem date_column date df in
  let ranged :=
    if truthy start_date && truthy end_date then
      let start_date := default "" start_date in
      let end_date := default "" end_date in
      match parse_datetime start_date with
      | None => inl (TypeError_invalid_comparison start_date)
      | Some a =>
          match parse_datetime end_date with
          | None => inl (TypeError_invalid_comparison end_date)
          | Some b =>
              inr (df_select (zip_with andb (ge_cell a <$> date) (le_cell b <$> date)) df)
          end
      end
    else inr df in
  match ranged with
  | inl e => inl e
  | inr df =>
      if truthy selected_month_year then
        let selected_month_year := default "" selected_month_year in
        match parse_month_year selected_month_year with
        | None => inl (ValueError_month_year selected_month_year)
        | Some month_year_date =>
            match getitem date_column df with
            | Raise e => inl (Raised e)
            | Ok date =>
                inr (df_select (zip_with andb (month_is month_year_date <$> date)
                                              (year_is month_year_date <$> date)) df)
            end
        end
      else inr df
  end
  end
  end.

(** Whether the filters keep a row, from the cell of its date. *)
Definition keeps (start_date end_date selected_month_year : option string)
    (c : cell) : bool :=
  (if truthy start_date && truthy end_date then
     ge_cell (mjoin (parse_datetime (default "" start_date))) c &&
     le_cell (mjoin (parse_datetime (default "" end_date))) c
   else true) &&
  (if truthy selected_month_year then
     month_is (mjoin (parse_month_year (default "" selected_month_year))) c &&
     year_is (mjoin (parse_month_year (default "" selected_month_year))) c
   else true).

End filters.

End DateFilters.

(** ** The month and year selector *)

Module MonthYear.
Import PyStr Pandas DateFilters.

Definition month_names : list string :=
  [ "January"; "February"; "March"; "April"; "May"; "June"; "July"; "August";
    "September"; "October"; "November"; "December" ].

(** [t.strftime('%B %Y')] *)
Definition strftime_B_Y (t : datetime) : string :=
  match month t with
  | 0 => ""
  | S m => default "" (month_names !! m)
  end +:+ " " +:+ pad 4 (pretty (year t)).

(** [s.dt.strftime('%B %Y')] *)
Definition dt_strftime_B_Y (s : Series) : Series :=
  (λ c, match c with Timestamp t => Str (strftime_B_Y t) | _ => NaN end) <$> s.

(** [s.unique()]: the values in the order of their first occurrence. *)
Fixpoint unique (s : Series) : Series :=
  match s with
  | [] => []
  | c :: s' => c :: filter (λ x, x ≠ c) (unique s')
  end.

(** [sorted(l, key=...)], for keys compared by [lt]: [x] is put behind
    the elements that are smaller and before the others, so that equal
    elements keep their order. *)
Fixpoint insert_by {A} (lt : A → A → bool) (x : A) (l : list A) : list A :=
  match l with
  | [] => [x]
  | y :: l' => if lt y x then y :: insert_by lt x l' else x :: y :: l'
  end.

Definition sorted_by {A} (lt : A → A → bool) (l : list A) : list A :=
  foldr (insert_by lt) [] l.

Section options.
Context `{MonthYearParser}.

(** The labels with their sort keys, in the order in which [sorted]
    computes them: the first key that cannot be read raises. A label
    that is NaN, or whose key is [NaT], is not compared as a date and is
    outside this model ([None]). *)
Fixpoint keyed (labels : Series) : option (filter_error + list (string * datetime)) :=
  match labels with
  | [] => Some (inr [])
  | Str my :: labels' =>
      match parse_month_year my with
      | None => Some (inl (ValueError_month_year my))
      | Some None => None
      | Some (Some key) =>
          match keyed labels' with
          | None => None
          | Some (inl e) => Some (inl e)
          | Some (inr keys) => Some (inr ((my, key) :: keys))
          end
      end
  | _ :: _ => None
  end.

(** [month_year_options] of [update_output], from the date column of
    the table loaded: the values of the options, which are their labels
    too. *)
Definition month_year_options (date : Series)
  : option (filter_error + list string) :=
  match keyed (unique (dt_strftime_B_Y date)) with
  | None => None
  | Some (inl e) => Some (inl e)
  | Some (inr keys) => Some (inr (sorted_by (λ p q, dt_lt p.2 q.2) keys).*1)
  end.

(** The date is a timestamp whose month label is read back as the first
    day of its month. *)
Definition readable (c : cell) : Prop :=
  ∃ t, c = Timestamp t ∧
    parse_month_year (strftime_B_Y t) = Some (Some (DT (year t) (month t) 1 0 0 0)).

(** The label of a row of the data with its key. *)
Definition keyed_as (date : Series) (c : cell) (p : string * datetime) : Prop :=
  ∃ t, Timestamp t ∈ date ∧ c = Str (strftime_B_Y t) ∧
       p = (strftime_B_Y t, DT (year t) (month t) 1 0 0 0).

End options.

(** The label of a month. *)
Definition label (ym : nat * nat) : string := strftime_B_Y (DT ym.1 ym.2 1 0 0 0).

(** Months in the order of time. *)
Definition earlier (a b : nat * nat) : Prop := a.1 < b.1 ∨ (a.1 = b.1 ∧ a.2 < b.2).

(** *** A reader of month labels for the examples *)

Fixpoint find_month (names : list string) (m : nat) (s : string) : option nat :=
  match names with
  | [] => None
  | name :: names' =>
      if decide (lower name = lower s) then Some m else find_month names' (S m) s
  end.

(** [Month YYYY], letter case aside; pandas reads these so, and with
    more blanks between the two, which this reader rejects. *)
Definition read_label (s : string) : option (option datetime) :=
  match split s with
  | [name; digits] =>
      m ← find_month month_names 1 name;
      '(y, rest) ← IsoDates.take_number 4 0 digits;
      if decide (rest = "" ∧ s = name +:+ " " +:+ digits)
      then Some (Some (DT y m 1 0 0 0)) else None
  | _ => None
  end.

#[export] Instance month_labels : MonthYearParser :=
  {| parse_month_year := read_label |}.

End MonthYear.

(** ** More tables for the examples *)

Module Ledgers.

(** An Order row without a title, a Payout row, a later Order row of the
    same order number with a title, and a Refund row of that number. *)
Definition ledger : DataFrame := DF 4 [
  ("Transaction creation date",
   [Str "2024-01-05"; Str "2024-01-06"; Str "2024-01-07"; Str "2024-01-08"]);
  ("Type", [Str "Order"; Str "Payout"; Str "Order"; Str "Refund"]);
  ("Order number", [Str "O1"; Str "--"; Str "O1"; Str "O1"]);
  ("Net amount", [Str "10.00"; Str "-30.00"; Str "20.00"; Str "-5.00"]);
  ("Item title", [Str "--"; Str "--"; Str "Widget A"; Str "--"]);
  ("Buyer username", [Str "bob"; Str "--"; Str "bob"; Str "--"]) ].

(** Three columns whose names clean to one name. *)
Definition same_names : DataFrame := DF 1 [
  ("Net amount", [Str "1"]); ("net_amount", [Str "2"]); ("NET  AMOUNT!", [Str "3"]) ].

(** Three rows: one late on the last day of January, one in the middle
    of the month, one without a date. *)
Definition dated : DataFrame := DF 3 [
  ("Transaction creation date", [Str "2024-01-31 10:00:00"; Str "2024-01-15"; NaN]);
  ("Net amount", [Str "1"; Str "2"; Str "3"]) ].

(** The dates of four rows, not in the order of time. *)
Definition four_dates : Series :=
  [ Timestamp (DT 2024 3 5 0 0 0); Timestamp (DT 2024 1 10 9 30 0);
    Timestamp (DT 2024 3 20 0 0 0); Timestamp (DT 2023 12 31 23 59 59) ].

(** A ledger without the title column. *)
Definition no_titles : DataFrame := DF 1 [
  ("Transaction creation date", [Str "2024-01-05"]);
  ("Type", [Str "Order"]);
  ("Order number", [Str "O1"]);
  ("Net amount", [Str "10.00"]) ].

(** The result of a query that counts rows. *)
Definition count_result : DataFrame := DF 1 [("n", [Num (Dec 42 0)])].

End Ledgers.

(** * Proofs *)

Ltac by_compute := apply (bool_decide_unpack _); vm_compute; exact I.

Ltac run := cbn [mbind mret result_bind result_ret].

(** ** Column names *)

Module Identifiers.
Import PyStr SqlQuery.

Lemma all_chars_app (p : ascii → bool) s1 s2 :
  all_chars p (s1 +:+ s2) = all_chars p s1 && all_chars p s2.
Proof. induction s1 as [|c s1 IH]; simpl; [done|]. by rewrite IH, andb_assoc. Qed.

Lemma all_chars_impl (p q : ascii → bool) s :
  (∀ c, p c → q c) → all_chars p s → all_chars q s.
Proof.
  intros Hpq. induction s as [|c s IH]; simpl; [done|].
  rewrite !andb_True. intros [??]. auto.
Qed.

Lemma all_chars_map_chars (p : ascii → bool) (f : ascii → ascii) s :
  (∀ c, p (f c)) → all_chars p (map_chars f s).
Proof. intros Hf. induction s; simpl; [done|]. rewrite andb_True. auto. Qed.

Lemma all_chars_of_list (p : ascii → bool) l :
  all_chars p (String.string_of_list_ascii l) = forallb p l.
Proof. induction l; simpl; [done|]. by f_equal. Qed.

Lemma sub_special_spaced s : all_chars spaced (sub_special s).
Proof.
  apply all_chars_map_chars. intros c. unfold spaced, word_char.
  destruct (is_lower c) eqn:?, (is_digit c) eqn:?, (is_space c) eqn:?; simpl;
    rewrite ?Heqb, ?Heqb0, ?Heqb1; done.
Qed.

Lemma squeeze_spaced b s : all_chars spaced s → all_chars spaced (squeeze b s).
Proof.
  revert b. induction s as [|c s IH]; intros b; simpl; [done|].
  rewrite andb_True. intros [Hc Hs].
  destruct (is_space c); [destruct b|]; simpl; rewrite ?andb_True; auto.
Qed.

Lemma word_of_list cur :
  cur ≠ [] → forallb word_char cur →
  word (String.string_of_list_ascii (rev cur)).
Proof.
  intros Hne Hall. split.
  - destruct cur as [|c cur]; [done|]. simpl.
    destruct (rev cur); simpl; congruence.
  - rewrite all_chars_of_list. apply Is_true_true, forallb_forall.
    intros c Hc. apply in_rev in Hc.
    apply Is_true_true in Hall. rewrite forallb_forall in Hall. auto.
Qed.

Lemma split_go_words cur s :
  forallb word_char cur → all_chars spaced s → Forall word (split_go cur s).
Proof.
  revert cur. induction s as [|c s IH]; intros cur Hcur; simpl.
  - intros _. destruct cur; [constructor|].
    constructor; [by apply word_of_list | constructor].
  - rewrite andb_True. intros [Hc Hs]. destruct (is_space c) eqn:Hsp.
    + destruct cur.
      * by apply IH.
      * constructor; [by apply word_of_list | by apply IH].
    + apply IH; [|done]. simpl. rewrite andb_True. split; [|done].
      unfold spaced in Hc. rewrite Hsp, orb_false_r in Hc. done.
Qed.

Lemma word_first w : word w → ∃ c r, w = String c r ∧ word_char c ∧ all_chars word_char r.
Proof.
  intros [Hne Hall]. destruct w as [|c r]; [done|].
  simpl in Hall. apply andb_True in Hall as [??]. eauto.
Qed.

Lemma word_char_ident c : word_char c → ident_char c.
Proof. unfold ident_char. rewrite orb_True. auto. Qed.

Lemma join_ident ws : Forall word ws → all_chars ident_char (join "_" ws).
Proof.
  induction 1 as [|w ws Hw Hws IH]; simpl; [done|].
  destruct Hw as [_ Hw]. apply (all_chars_impl _ _ _ word_char_ident) in Hw.
  destruct ws; [done|].
  rewrite !all_chars_app, !andb_True. done.
Qed.

Lemma join_first w ws :
  word w → ∃ c r, join "_" (w :: ws) = String c r ∧ word_char c.
Proof.
  intros (c & r & -> & Hc & _)%word_first. destruct ws; simpl; eauto.
Qed.

Lemma clean_column_name_identifier column :
  sql_identifier (clean_column_name column).
Proof.
  unfold clean_column_name.
  pose proof (split_go_words [] (squeeze false (sub_special (lower column)))
                I (squeeze_spaced _ _ (sub_special_spaced _))) as Hws.
  fold (split (squeeze false (sub_special (lower column)))) in Hws.
  assert (Forall word (filter (λ w, w ∉ filler_words)
            (split (squeeze false (sub_special (lower column)))))) as Hws'.
  { rewrite Forall_forall in *. intros w [_ Hw]%list_elem_of_filter. auto. }
  clear Hws. rename Hws' into Hws.
  destruct (filter _ _) as [|w ws] eqn:E; [done|].
  pose proof (join_ident _ Hws) as Hall.
  apply Forall_cons_1 in Hws as [Hw _].
  destruct (join_first w ws Hw) as (c & r & Hj & Hc).
  rewrite Hj in *. simpl in Hall. apply andb_True in Hall as [Hc' Hr].
  destruct (isalpha c) eqn:Ha.
  - simpl. rewrite Ha. done.
  - change (Is_true (all_chars ident_char (String c r))).
    simpl. rewrite andb_True. done.
Qed.

Lemma string_length_app s t : String.length (s +:+ t) = String.length s + String.length t.
Proof.
  induction s as [|c s IH]; [done|].
  change (S (String.length (s +:+ t)) = S (String.length s + String.length t)).
  by rewrite IH.
Qed.

Lemma candidate_inj base_name : Inj (=) (=) (candidate base_name).
Proof.
  intros j k Hjk. unfold candidate in Hjk.
  apply String.app_inj, String.app_inj in Hjk. by apply (inj pretty).
Qed.

Lemma candidate_ne_base base_name k : candidate base_name k ≠ base_name.
Proof.
  intros Heq. apply (f_equal String.length) in Heq.
  unfold candidate in Heq. rewrite !string_length_app in Heq. simpl in Heq. lia.
Qed.

Lemma pretty_N_go_digits x s :
  all_chars is_digit s → all_chars is_digit (pretty_N_go x s).
Proof.
  revert s. induction (N.lt_wf_0 x) as [x _ IH]; intros s Hs.
  destruct (decide (x = 0)%N) as [->|]; [done|].
  rewrite pretty_N_go_step by lia. apply IH.
  - apply N.div_lt; lia.
  - simpl. rewrite andb_True. split; [|done].
    unfold pretty_N_char. by repeat case_match.
Qed.

Lemma pretty_nat_digits (n : nat) : all_chars is_digit (pretty n).
Proof.
  unfold pretty, pretty_nat, pretty, pretty_N.
  case_decide; [done|]. by apply pretty_N_go_digits.
Qed.

Lemma candidate_identifier base_name k :
  sql_identifier base_name → sql_identifier (candidate base_name k).
Proof.
  destruct base_name as [|c r]; [done|]. simpl.
  rewrite !andb_True. intros [Hc Hr]. split; [done|].
  rewrite !all_chars_app, !andb_True. split_and!; [done..|].
  eapply all_chars_impl, pretty_nat_digits.
  intros d Hd. unfold ident_char, word_char.
  destruct (is_digit d); [|done]. by rewrite orb_true_r.
Qed.

Lemma unique_name_fresh fuel new_names base_name clean_name counter n :
  unique_name fuel new_names base_name clean_name counter = Some n →
  n ∉ new_names.
Proof.
  revert clean_name counter.
  induction fuel as [|fuel IH]; intros clean_name counter; simpl;
    case_bool_decide; intros E; simplify_eq; eauto.
Qed.

Lemma unique_name_shape fuel new_names base_name clean_name counter n :
  unique_name fuel new_names base_name clean_name counter = Some n →
  n = clean_name ∨ ∃ k, n = candidate base_name k.
Proof.
  revert clean_name counter.
  induction fuel as [|fuel IH]; intros clean_name counter; simpl;
    case_bool_decide; intros E; simplify_eq; eauto.
  apply IH in E as [->|?]; eauto.
Qed.

(** When the fuel runs out, every name tried was taken. *)
Lemma unique_name_None fuel new_names base_name clean_name counter :
  unique_name fuel new_names base_name clean_name counter = None →
  clean_name ∈ new_names ∧
  ∀ k, counter ≤ k < counter + fuel → candidate base_name k ∈ new_names.
Proof.
  revert clean_name counter.
  induction fuel as [|fuel IH]; intros clean_name counter; simpl;
    case_bool_decide; try done.
  - intros _. split; [done|]. lia.
  - intros [Hc Hk]%IH. split; [done|]. intros k Hle.
    destruct (decide (k = counter)) as [->|]; [done|]. apply Hk. lia.
Qed.

(** The loop always ends within [length new_names] turns: the names it
    tries are pairwise distinct, so they cannot all be taken. *)
Lemma unique_name_total new_names base_name :
  is_Some (unique_name (length new_names) new_names base_name base_name 1).
Proof.
  destruct (unique_name _ _ _ _ _) eqn:E; [by eexists|exfalso].
  apply unique_name_None in E as [Hbase Hk].
  set (tried := base_name :: (candidate base_name <$> seq 1 (length new_names))).
  assert (NoDup tried) as Hnd.
  { apply NoDup_cons. split.
    - intros (k & Heq & _)%list_elem_of_fmap.
      by apply (candidate_ne_base base_name k).
    - apply NoDup_fmap_2; [apply candidate_inj | apply NoDup_seq]. }
  assert (tried ⊆+ new_names) as Hsub.
  { apply NoDup_submseteq; [done|]. intros x [->|Hx]%elem_of_cons; [done|].
    apply list_elem_of_fmap in Hx as (k & -> & Hin%elem_of_seq). apply Hk. lia. }
  apply submseteq_length in Hsub. unfold tried in Hsub.
  simpl in Hsub. rewrite length_fmap, length_seq in Hsub. lia.
Qed.

Lemma clean_step_inv new_names original_names col :
  NoDup new_names → Forall sql_identifier new_names →
  ∃ name original_names',
    clean_step (Some (new_names, original_names)) col
      = Some (new_names ++ [name], original_names') ∧
    NoDup (new_names ++ [name]) ∧
    Forall sql_identifier (new_names ++ [name]).
Proof.
  intros Hnd Hid. unfold clean_step. simpl.
  destruct (unique_name_total new_names (clean_column_name col)) as [name E].
  rewrite E. simpl. eexists _, _. split; [done|]. split.
  - apply NoDup_app. split_and!; [done| |apply NoDup_singleton].
    intros x Hx ->%list_elem_of_singleton.
    by apply unique_name_fresh in E.
  - apply Forall_app. split; [done|]. apply Forall_singleton.
    apply unique_name_shape in E as [->|[k ->]].
    + apply clean_column_name_identifier.
    + apply candidate_identifier, clean_column_name_identifier.
Qed.

Lemma clean_loop_inv cs new_names original_names :
  NoDup new_names → Forall sql_identifier new_names →
  ∃ new_names' original_names',
    foldl clean_step (Some (new_names, original_names)) cs
      = Some (new_names', original_names') ∧
    NoDup new_names' ∧ Forall sql_identifier new_names' ∧
    length new_names' = length new_names + length cs.
Proof.
  revert new_names original_names.
  induction cs as [|col cs IH]; intros new_names original_names Hnd Hid.
  - eexists _, _. split_and!; [done..|simpl; lia].
  - destruct (clean_step_inv new_names original_names col Hnd Hid)
      as (name & m & E & Hnd' & Hid').
    cbn [foldl]. rewrite E.
    destruct (IH _ m Hnd' Hid') as (names' & m' & E' & ? & ? & Hlen).
    eexists _, _. split_and!; [done..|].
    rewrite Hlen, length_app. simpl. lia.
Qed.

(** C10. [clean_column_names] always returns; the column names of the
    table it returns are pairwise distinct, as many as before and over
    the same cells; each of them, and every name that
    [clean_column_name] produces, is a letter followed by lowercase
    letters, digits and underscores. *)
Theorem clean_column_names_distinct_identifiers (df : DataFrame) :
  (∀ column, sql_identifier (clean_column_name column)) ∧
  ∃ df' original_names,
    clean_column_names df = Some (df', original_names) ∧
    NoDup (columns df') ∧
    Forall sql_identifier (columns df') ∧
    length (columns df') = length (columns df) ∧
    nrows df' = nrows df ∧ (cols df').*2 = (cols df).*2.
Proof.
  split; [apply clean_column_name_identifier|].
  destruct (clean_loop_inv (columns df) [] ∅) as (names & m & E & Hnd & Hid & Hlen);
    [constructor..|].
  unfold clean_column_names. rewrite E. simpl. eexists _, _. split; [done|].
  assert (length names = length (cols df).*2) as Hlen'.
  { rewrite Hlen. unfold columns. by rewrite !length_fmap. }
  unfold columns at 1 2 3. simpl.
  rewrite fst_zip, snd_zip by lia. by split_and!.
Qed.
End Identifiers.

(** ** The query handler *)

Module Query.
Import SqlQuery.

Lemma run_query_answers read_sql_query data_store_df n_clicks query :
  query ≠ "" →
  ∃ shown error info,
    run_query read_sql_query data_store_df n_clicks (Some query)
      = Ok (update shown, error, update info).
Proof.
  intros Hq. unfold run_query. destruct query as [|c q]; [done|].
  destruct (read_sql_query _); eauto.
Qed.

(** C9. [run_query] returns a result or an error text for every query
    that is not empty, whatever the database answers; on the empty
    query, and when no query was entered, it raises the [NameError] of
    the name [dash], which the module never binds. *)
Theorem run_query_empty_query_raises read_sql_query data_store_df n_clicks :
  run_query read_sql_query data_store_df n_clicks (Some "")
    = Raise (NameError "dash") ∧
  run_query read_sql_query data_store_df n_clicks None
    = Raise (NameError "dash") ∧
  ∀ query, query ≠ "" →
    ∃ shown error info,
      run_query read_sql_query data_store_df n_clicks (Some query)
        = Ok (update shown, error, update info).
Proof. split_and!; [done..|]. apply run_query_answers. Qed.
End Query.

Module TitleReference.
Import Pandas CalculatePayout Examples.

Import IsoDates.
(** C1. On two Order rows with the order number O1 and the titles
    Widget A and Widget B, followed by a Refund row of O1 without a
    title, [ref] of calculate_payout.py maps O1 to Widget B, the title
    of the last Order row, and the report gives the Refund row that
    title; [parse_contents] of hoold.py gives all three rows the title
    Widget A of the first row. *)
Theorem ref_keeps_last_title :
  (∃ r, ref two_orders = Ok r ∧ r !! Str "O1" = Some (Str "Widget B")) ∧
  (∃ out, (report two_orders).2 = Ok out ∧
     getitem "Item title" out = Ok [Str "Widget A"; Str "Widget B"; Str "Widget B"]) ∧
  (∃ out msg, Hoold.parse_contents two_orders = (Some out, msg) ∧
     getitem "Item title" out = Ok [Str "Widget A"; Str "Widget A"; Str "Widget A"]).
Proof.
  split_and!.
  - eexists. split; [reflexivity|]. vm_compute. reflexivity.
  - eexists. split; [vm_compute; reflexivity|]. reflexivity.
  - eexists _, _. split; [vm_compute; reflexivity|]. reflexivity.
Qed.
End TitleReference.

Module Coercion.
Import Pandas Examples.
Lemma gen_dash_sentinel_becomes_zero :
  ¬ (getitem "Item price" (GenDash.coerce_column prices "Item price")
       = Ok [Num (Dec 123456 2); NaN; NaN]).
Proof. vm_compute. intros [=]. Qed.

(** C3 (amended). The coercion of hoold.py reads [$1,234.56] as
    1234.56 and turns [--] and [abc] into NaN; the one of
    gen_dash_app_1.py reads [$1,234.56] as 1234.56 and turns [--] and
    [abc] into 0; coercion gives a number or NaN for every cell, and
    raises for none. *)
Theorem coercion_values :
  coerce <$> money = [Num (Dec 123456 2); NaN; NaN] ∧
  getitem "Item price" (GenDash.coerce_column prices "Item price")
    = Ok [Num (Dec 123456 2); Num dec_zero; Num dec_zero] ∧
  (∀ c, coerce c = NaN ∨ ∃ x, coerce c = Num x).
Proof.
  split_and!; [vm_compute; reflexivity..|].
  intros c. unfold coerce, to_numeric. destruct (parse_number _); eauto.
Qed.
End Coercion.

(** ** Tables *)

Module TableLemmas.
Import Pandas.

Lemma assoc_get_set_eq c s l : assoc_get c (assoc_set c s l) = Some s.
Proof.
  induction l as [|[c' s'] l IH]; simpl.
  - by rewrite decide_True.
  - case_decide; simpl; [by rewrite decide_True | by rewrite decide_False].
Qed.

Lemma assoc_get_set_ne c c' s l :
  c ≠ c' → assoc_get c' (assoc_set c s l) = assoc_get c' l.
Proof.
  intros Hne. induction l as [|[c'' s''] l IH]; simpl.
  - by rewrite decide_False.
  - case_decide; simpl.
    + subst. by rewrite !decide_False.
    + by rewrite IH.
Qed.

Lemma assoc_set_set c s s' l : assoc_set c s (assoc_set c s' l) = assoc_set c s l.
Proof.
  induction l as [|[c'' s''] l IH]; simpl.
  - by rewrite decide_True.
  - case_decide; simpl; [by rewrite decide_True|].
    rewrite decide_False by done. by rewrite IH.
Qed.

Lemma assoc_set_id c s l : assoc_get c l = Some s → assoc_set c s l = l.
Proof.
  induction l as [|[c' s'] l IH]; simpl; [done|].
  case_decide; [by intros [= ->]; subst | intros ?; by rewrite IH].
Qed.

Lemma assoc_get_Some c l : is_Some (assoc_get c l) ↔ c ∈ l.*1.
Proof.
  induction l as [|[c' s'] l IH]; csimpl.
  - split; [by intros [? ?] | by intros ?%elem_of_nil].
  - rewrite elem_of_cons. case_decide; subst.
    + split; [by left | by eexists].
    + rewrite IH. split; [by right | by intros [?|?]].
Qed.

Lemma assoc_set_names_in c s l : c ∈ l.*1 → (assoc_set c s l).*1 = l.*1.
Proof.
  induction l as [|[c' s'] l IH]; csimpl.
  - by intros ?%elem_of_nil.
  - case_decide; subst; [done|]. intros [?|?]%elem_of_cons; [done|].
    csimpl. by rewrite IH.
Qed.

Lemma assoc_set_names_notin c s l : c ∉ l.*1 → (assoc_set c s l).*1 = l.*1 ++ [c].
Proof.
  induction l as [|[c' s'] l IH]; csimpl; [done|].
  rewrite not_elem_of_cons. intros [? ?]. rewrite decide_False by done.
  csimpl. by rewrite IH.
Qed.

Lemma assoc_set_Forall (P : string * Series → Prop) c s l :
  P (c, s) → Forall P l → Forall P (assoc_set c s l).
Proof.
  intros Hcs. induction 1 as [|[c' s'] l ? ? IH]; simpl.
  - by repeat constructor.
  - case_decide; by constructor.
Qed.

Lemma assoc_get_Forall (P : string * Series → Prop) c s l :
  Forall P l → assoc_get c l = Some s → P (c, s).
Proof.
  induction 1 as [|[c' s'] l ? ? IH]; simpl; [done|].
  case_decide; [by intros [= ->]; subst | done].
Qed.

(** The same facts on tables. *)

Lemma getitem_setitem_eq c s df : getitem c (setitem c s df) = Ok s.
Proof. unfold getitem, setitem. simpl. by rewrite assoc_get_set_eq. Qed.

Lemma getitem_setitem_ne c c' s df :
  c ≠ c' → getitem c' (setitem c s df) = getitem c' df.
Proof. intros. unfold getitem, setitem. simpl. by rewrite assoc_get_set_ne. Qed.

Lemma setitem_setitem c s s' df : setitem c s (setitem c s' df) = setitem c s df.
Proof. unfold setitem. simpl. by rewrite assoc_set_set. Qed.

Lemma setitem_id c s df : getitem c df = Ok s → setitem c s df = df.
Proof.
  unfold getitem, setitem. destruct df as [n l]. simpl.
  destruct (assoc_get c l) eqn:E; [|done]. intros [= ->]. by rewrite assoc_set_id.
Qed.

Lemma getitem_Ok c df : (∃ s, getitem c df = Ok s) ↔ c ∈ columns df.
Proof.
  unfold getitem, columns. rewrite <-assoc_get_Some.
  destruct (assoc_get c (cols df)); split; intros [? ?]; eauto; done.
Qed.

Lemma getitem_Raise c df e : getitem c df = Raise e → (c ∉ columns df) ∧ e = KeyError c.
Proof.
  unfold getitem, columns. rewrite <-assoc_get_Some.
  destruct (assoc_get c (cols df)); [done|]. intros [= <-].
  split; [by intros [? ?] | done].
Qed.

Lemma columns_setitem_in c s df : c ∈ columns df → columns (setitem c s df) = columns df.
Proof. apply assoc_set_names_in. Qed.

Lemma columns_setitem_notin c s df :
  c ∉ columns df → columns (setitem c s df) = columns df ++ [c].
Proof. apply assoc_set_names_notin. Qed.

Lemma elem_of_columns_setitem c c' s df :
  c ∈ columns df → c ∈ columns (setitem c' s df).
Proof.
  intros Hc. destruct (decide (c' ∈ columns df)).
  - by rewrite columns_setitem_in.
  - rewrite columns_setitem_notin by done. apply elem_of_app. by left.
Qed.

Lemma wf_setitem c s df : wf df → length s = nrows df → wf (setitem c s df).
Proof. intros Hwf Hlen. by apply assoc_set_Forall. Qed.

Lemma wf_getitem c s df : wf df → getitem c df = Ok s → length s = nrows df.
Proof.
  unfold getitem. intros Hwf. destruct (assoc_get c (cols df)) eqn:E; [|done].
  intros [= ->]. by apply (assoc_get_Forall _ _ _ _ Hwf E).
Qed.

Lemma length_mapR {A B} (f : A → result B) l k : mapR f l = Ok k → length k = length l.
Proof.
  revert k. induction l as [|a l IH]; intros k; simpl; [by intros [= <-]|].
  destruct (f a); [|done]. simpl. destruct (mapR f l); [|done]. simpl.
  intros [= <-]. simpl. by rewrite (IH _ eq_refl).
Qed.

Lemma length_assign_where mask values old :
  length (assign_where mask values old) = length old.
Proof.
  revert values old. induction mask as [|b mask IH]; intros [|v vs] [|o os];
    simpl; by rewrite ?IH.
Qed.

Lemma field_row c df i :
  field c (row df i) = (λ s : Series, default NaN (s !! i)) <$> assoc_get c (cols df).
Proof.
  unfold row. induction (cols df) as [|[c' s] l IH]; csimpl; [done|].
  by case_decide.
Qed.

Lemma rows_lookup df i r : rows df !! i = Some r ↔ i < nrows df ∧ r = row df i.
Proof.
  unfold rows. rewrite list_lookup_fmap, fmap_Some. split.
  - intros (j & [-> ?]%lookup_seq & ->). done.
  - intros [? ->]. exists i. split; [|done]. by apply lookup_seq.
Qed.

Lemma length_rows df : length (rows df) = nrows df.
Proof. unfold rows. by rewrite length_fmap, length_seq. Qed.

Lemma getitem_assoc c df : getitem c df = from_option Ok (Raise (KeyError c)) (assoc_get c (cols df)).
Proof. unfold getitem. by destruct (assoc_get c (cols df)). Qed.

(** Equal columns give equal fields. *)
Lemma field_getitem c df df' i :
  getitem c df' = getitem c df → field c (row df' i) = field c (row df i).
Proof.
  rewrite !field_row, !getitem_assoc.
  destruct (assoc_get c (cols df')), (assoc_get c (cols df)); intros; by simplify_eq/=.
Qed.

End TableLemmas.

(** ** In-place replacement *)

Module Purity.
Import Pandas Examples.


Lemma assoc_get_fmap (f : Series → Series) c l :
  assoc_get c (prod_map id f <$> l) = f <$> assoc_get c l.
Proof.
  induction l as [|[c' s] l IH]; simpl; [done|]. by case_decide.
Qed.

Lemma replace_absent old new (s : Series) : old ∉ s → replace old new s = s.
Proof.
  unfold replace. induction s as [|c s IH]; [done|].
  rewrite not_elem_of_cons. intros [Hc Hs]. rewrite fmap_cons, IH by done.
  by rewrite decide_False.
Qed.

Lemma df_replace_absent old new df :
  Forall (λ cs, old ∉ cs.2) (cols df) → df_replace old new df = df.
Proof.
  destruct df as [n l]. unfold df_replace. simpl. intros Hl. f_equal.
  induction Hl as [|[c s] l Hs Hl IH]; [done|].
  rewrite fmap_cons, IH. unfold prod_map. simpl in *. by rewrite replace_absent.
Qed.

End Purity.

(** ** Sums *)

Module SumLemmas.
Import Pandas Sums Examples.

Lemma dec_norm_go_canonical m s : canonical (dec_norm_go m s).
Proof.
  revert m. induction s as [|s IH]; intros m; simpl; [by left|].
  case_decide; [apply IH | by right].
Qed.

Lemma dec_norm_canonical_id d : canonical d → dec_norm d = d.
Proof.
  destruct d as [m s]. unfold canonical, dec_norm. simpl.
  intros [->|Hm]; [done|]. destruct s; [done|]. simpl. by case_decide.
Qed.

Lemma dec_add_canonical a b : canonical (dec_add a b).
Proof. apply dec_norm_go_canonical. Qed.

Lemma dec_add_zero_r a : canonical a → dec_add a dec_zero = a.
Proof.
  intros Ha. rewrite <-(dec_norm_canonical_id a Ha) at 2.
  unfold dec_add. destruct a as [m s]. simpl. f_equal. f_equal; lia.
Qed.

Lemma foldl_zero_fill l acc :
  canonical acc →
  foldl add_value acc l = foldl dec_add acc (default dec_zero <$> l).
Proof.
  revert acc. induction l as [|[x|] l IH]; intros acc Hacc; simpl; [done|..].
  - apply IH, dec_add_canonical.
  - rewrite dec_add_zero_r by done. by apply IH.
Qed.

Lemma nansum_zero_fill l : nansum l = zero_filled_sum l.
Proof. apply foldl_zero_fill. by left. Qed.

Lemma sum_step_lookup m kv k :
  k ≠ NaN →
  sum_step m kv !! k =
    if decide (kv.1 = k) then Some (add_value (default dec_zero (m !! k)) kv.2)
    else m !! k.
Proof.
  intros Hk. unfold sum_step, isna. destruct kv as [k' v]. simpl.
  case_bool_decide as Hna.
  - subst k'. by rewrite decide_False.
  - rewrite lookup_insert. case_decide; [subst|done]. by destruct v.
Qed.

Lemma foldl_sum_step_lookup l m k :
  k ≠ NaN →
  foldl sum_step m l !! k =
    match (filter (λ kv, kv.1 = k) l).*2 with
    | [] => m !! k
    | vs => Some (foldl add_value (default dec_zero (m !! k)) vs)
    end.
Proof.
  intros Hk. revert m. induction l as [|kv l IH]; intros m; [done|].
  cbn [foldl]. rewrite IH, filter_cons, sum_step_lookup by done.
  destruct (decide (kv.1 = k)) as [Hkv|Hkv]; simpl.
  - by destruct (filter _ l).
  - done.
Qed.

Lemma group_nil k keys vs :
  length keys = length vs → group k keys vs = [] ↔ k ∉ keys.
Proof.
  unfold group. revert vs. induction keys as [|k' keys IH]; intros [|v vs] Hlen;
    simplify_eq/=.
  - split; [intros _; apply not_elem_of_nil | done].
  - rewrite filter_cons, not_elem_of_cons. simpl. case_decide; simpl.
    + split; [done | intros [? _]; congruence].
    + rewrite IH by done. split; [done | by intros [_ ?]].
Qed.


End SumLemmas.

(** ** hoold.py: the steps of [parse_contents] *)

Ltac get_set :=
  repeat (rewrite TableLemmas.getitem_setitem_eq
          || rewrite TableLemmas.getitem_setitem_ne by done);
  run.

Module HooldLemmas.
Import Pandas TableLemmas Hoold.

Section parse.
Context `{DateParser}.

(** What the [try] block computes, with the reads of [df] gathered in
    front. *)
Lemma hoold_try_eq df :
  parse_contents_try df =
    date ← getitem "Transaction creation date" df;
    date' ← to_datetime date;
    net ← getitem "Net amount" df;
    title ← getitem "Item title" df;
    orders ← getitem "Order number" df;
    mret (setitem "Item title" (resolved_titles orders title)
            (setitem "Net amount" (coerce <$> net)
               (setitem "Transaction creation date" date' df))).
Proof.
  unfold parse_contents_try.
  destruct (getitem "Transaction creation date" df) as [date|]; [|done]; simpl.
  destruct (to_datetime date) as [date'|]; [|done]; simpl.
  get_set.
  destruct (getitem "Net amount" df) as [net|]; [|done]; simpl.
  get_set.
  destruct (getitem "Item title" df) as [title|]; [|done]; simpl.
  get_set.
  destruct (getitem "Order number" df) as [orders|] eqn:E; [|done]; simpl.
  get_set. rewrite ?E. simpl. get_set.
  by rewrite !setitem_setitem.
Qed.

Lemma length_resolved_titles orders title :
  length (resolved_titles orders title) = length title.
Proof.
  unfold resolved_titles, fillna, replace.
  by rewrite length_fmap, length_assign_where, length_fmap.
Qed.

(** A successful run, column by column. *)
Lemma hoold_try_Ok df out :
  parse_contents_try df = Ok out →
  ∃ date date' net title orders,
    getitem "Transaction creation date" df = Ok date ∧
    to_datetime date = Ok date' ∧
    getitem "Net amount" df = Ok net ∧
    getitem "Item title" df = Ok title ∧
    getitem "Order number" df = Ok orders ∧
    nrows out = nrows df ∧
    columns out = columns df ∧
    getitem "Transaction creation date" out = Ok date' ∧
    getitem "Net amount" out = Ok (coerce <$> net) ∧
    getitem "Item title" out = Ok (resolved_titles orders title) ∧
    (∀ c, c ∉ written_columns → getitem c out = getitem c df).
Proof.
  rewrite hoold_try_eq.
  destruct (getitem "Transaction creation date" df) as [date|] eqn:Ed; [|done]; simpl.
  destruct (to_datetime date) as [date'|] eqn:Ed'; [|done]; simpl.
  destruct (getitem "Net amount" df) as [net|] eqn:En; [|done]; simpl.
  destruct (getitem "Item title" df) as [title|] eqn:Et; [|done]; simpl.
  destruct (getitem "Order number" df) as [orders|] eqn:Eo; [|done]; simpl.
  intros [= <-]. exists date, date', net, title, orders.
  split_and!; try done.
  - rewrite !columns_setitem_in; [done|..];
      repeat apply elem_of_columns_setitem; apply getitem_Ok; eauto.
  - by get_set.
  - by get_set.
  - by get_set.
  - intros c. unfold written_columns.
    rewrite !not_elem_of_cons. intros (? & ? & ? & _). by get_set.
Qed.

Lemma hoold_try_wf df out :
  wf df → parse_contents_try df = Ok out → wf out.
Proof.
  intros Hwf. rewrite hoold_try_eq.
  destruct (getitem "Transaction creation date" df) as [date|] eqn:Ed; [|done]; simpl.
  destruct (to_datetime date) as [date'|] eqn:Ed'; [|done]; simpl.
  destruct (getitem "Net amount" df) as [net|] eqn:En; [|done]; simpl.
  destruct (getitem "Item title" df) as [title|] eqn:Et; [|done]; simpl.
  destruct (getitem "Order number" df) as [orders|] eqn:Eo; [|done]; simpl.
  intros [= <-]. repeat apply wf_setitem; try done; simpl.
  - apply length_mapR in Ed'. rewrite Ed'. by eapply wf_getitem.
  - rewrite length_fmap. by eapply wf_getitem.
  - rewrite length_resolved_titles. by eapply wf_getitem.
Qed.
End parse.
End HooldLemmas.

(** ** The title mapping *)

Module TitleLemmas.
Import Pandas TableLemmas Hoold Titles.

Lemma groupby_first_lookup keys vals k :
  groupby_first keys vals !! k = first_value k (zip keys vals).
Proof.
  unfold groupby_first. induction (zip keys vals) as [|[k' v] l IH]; simpl; [done|].
  destruct (notna k' && notna v) eqn:E.
  - rewrite lookup_insert. case_decide; [done|]. by rewrite IH.
  - rewrite IH. by case_decide.
Qed.

Lemma first_value_Some k kvs v :
  first_value k kvs = Some v → (k, v) ∈ kvs ∧ notna k ∧ notna v.
Proof.
  induction kvs as [|[k' v'] l IH]; simpl; [done|].
  case_decide as Hk; [subst k'; destruct (notna k && notna v') eqn:E|].
  - intros [= ->]. apply andb_prop in E as [-> ->]. split_and!; [by left|done..].
  - intros (? & ? & ?)%IH. split_and!; [by right|done..].
  - intros (? & ? & ?)%IH. split_and!; [by right|done..].
Qed.

Lemma assign_where_backfilled m orders title :
  length orders = length title →
  assign_where (notna <$> orders) (map_series m orders) title
    = zip_with (backfilled m) orders title.
Proof.
  revert title. induction orders as [|o os IH]; intros [|t ts] Hlen;
    simplify_eq/=; [done|].
  f_equal. by apply IH.
Qed.

Lemma zip_backfilled m orders title :
  zip orders (zip_with (backfilled m) orders title)
    = backfill_rows m (zip orders title).
Proof.
  revert title. induction orders as [|o os IH]; intros [|t ts]; csimpl; [done..|].
  f_equal. apply IH.
Qed.

Lemma first_value_backfill_rows m k kvs :
  first_value k (backfill_rows m kvs) =
    if decide (k ∈ kvs.*1) then
      if notna k then
        match m !! k with
        | Some v => if notna v then Some v else None
        | None => None
        end
      else None
    else None.
Proof.
  induction kvs as [|[o t] l IH]; csimpl; [done|].
  destruct (decide (o = k)) as [->|Hne].
  - rewrite decide_True by (by left). unfold backfilled.
    destruct (notna k) eqn:Hk; simpl.
    + destruct (m !! k) as [v|] eqn:Hm; simpl.
      * destruct (notna v) eqn:Hv; [done|]. rewrite IH. by case_decide.
      * rewrite IH. by case_decide.
    + rewrite IH. by case_decide.
  - rewrite IH. destruct (decide (k ∈ l.*1)).
    + rewrite decide_True; [done|]. by right.
    + rewrite decide_False; [done|]. by intros [?|?]%elem_of_cons.
Qed.

(** Rewriting the titles through the mapping leaves the mapping as it
    was. *)
Lemma groupby_first_backfilled orders title :
  let m := groupby_first orders title in
  groupby_first orders (zip_with (backfilled m) orders title) = m.
Proof.
  intros m. apply map_eq. intros k.
  rewrite groupby_first_lookup, zip_backfilled, first_value_backfill_rows.
  unfold m at 2. rewrite groupby_first_lookup.
  destruct (first_value k (zip orders title)) as [v|] eqn:E.
  - assert (m !! k = Some v) as -> by (unfold m; by rewrite groupby_first_lookup).
    apply first_value_Some in E as (Hin & Hk & Hv).
    rewrite decide_True.
    + by destruct (notna k), (notna v).
    + apply list_elem_of_fmap. by exists (k, v).
  - assert (m !! k = None) as -> by (unfold m; by rewrite groupby_first_lookup).
    by repeat case_match.
Qed.

Lemma backfilled_idem m orders title :
  zip_with (backfilled m) orders (zip_with (backfilled m) orders title)
    = zip_with (backfilled m) orders title.
Proof.
  revert title. induction orders as [|o os IH]; intros [|t ts]; csimpl; [done..|].
  rewrite IH. f_equal. unfold backfilled. by destruct (notna o).
Qed.

Lemma replace_sentinel_free s : sentinel_free (replace (Str "--") NaN s).
Proof.
  unfold sentinel_free, replace. apply Forall_fmap, Forall_true.
  intros c. simpl. by case_decide.
Qed.

Lemma replace_fillna s :
  sentinel_free s → replace (Str "--") NaN (fillna (Str "--") s) = s.
Proof.
  unfold replace, fillna. induction 1 as [|c s Hc Hs IH]; csimpl; [done|].
  rewrite IH. f_equal. unfold isna. case_bool_decide; subst; [done|].
  by rewrite decide_False.
Qed.

Lemma backfilled_sentinel_free orders title :
  sentinel_free title →
  sentinel_free (zip_with (backfilled (groupby_first orders title)) orders title).
Proof.
  intros Ht. apply Forall_forall. intros c Hc.
  apply elem_of_lookup_zip_with in Hc as (i & o & t & -> & Ho & Htl).
  unfold backfilled. destruct (notna o).
  - destruct (groupby_first orders title !! o) as [v|] eqn:E; simpl; [|done].
    rewrite groupby_first_lookup in E. apply first_value_Some in E as (Hin & _).
    apply elem_of_zip_r in Hin. unfold sentinel_free in Ht.
    rewrite Forall_forall in Ht. by apply Ht.
  - unfold sentinel_free in Ht. rewrite Forall_forall in Ht.
    apply Ht. by eapply list_elem_of_lookup_2.
Qed.

(** Resolving the titles of a table whose titles are resolved changes
    nothing. *)
Lemma resolved_titles_idem orders title :
  length orders = length title →
  resolved_titles orders (resolved_titles orders title)
    = resolved_titles orders title.
Proof.
  intros Hlen. unfold resolved_titles.
  set (t0 := replace (Str "--") NaN title).
  assert (length orders = length t0) as Hlen0.
  { unfold t0, replace. by rewrite length_fmap. }
  rewrite (assign_where_backfilled _ orders t0) by done.
  set (a := zip_with (backfilled (groupby_first orders t0)) orders t0).
  assert (sentinel_free a) as Ha.
  { apply backfilled_sentinel_free, replace_sentinel_free. }
  rewrite replace_fillna by done.
  assert (length orders = length a) as Hlena.
  { unfold a. rewrite length_zip_with. lia. }
  rewrite assign_where_backfilled by done.
  unfold a at 1 2. rewrite groupby_first_backfilled.
  by rewrite backfilled_idem.
Qed.
End TitleLemmas.

Module HooldIdempotence.
Import Pandas TableLemmas Hoold HooldLemmas TitleLemmas.

Section parse.
Context `{DateParser}.

Lemma to_datetime_idem s s' : to_datetime s = Ok s' → to_datetime s' = Ok s'.
Proof.
  unfold to_datetime. revert s'. induction s as [|c s IH]; intros s'; simpl.
  - by intros [= <-].
  - destruct (to_datetime_cell c) as [c'|] eqn:Ec; [|done]. simpl.
    destruct (mapR to_datetime_cell s) as [k|]; [|done]. simpl.
    intros [= <-]. simpl. rewrite (IH _ eq_refl). 
    assert (to_datetime_cell c' = Ok c') as ->; [|done].
    destruct c as [|t|x|t]; simpl in Ec; simplify_eq; try done.
    + destruct (parse_datetime t) as [[?|]|]; by simplify_eq.
    + destruct (epoch_datetime x) as [[?|]|]; by simplify_eq.
Qed.

Lemma coerce_reread s : Forall reread s → coerce <$> s = s.
Proof. induction 1 as [|c s Hc Hs IH]; csimpl; [done|]. by rewrite Hc, IH. Qed.

Lemma hoold_try_idem df out :
  wf df →
  parse_contents_try df = Ok out →
  (∀ net, getitem "Net amount" out = Ok net → Forall reread net) →
  parse_contents_try out = Ok out.
Proof.
  intros Hwf Hout Hnet.
  destruct (hoold_try_Ok df out Hout)
    as (date & date' & net & title & orders &
        Ed & Ed' & En & Et & Eo & Hn & Hc & Hd & Hn' & Ht & Hother).
  rewrite hoold_try_eq.
  rewrite Hd. simpl. rewrite (to_datetime_idem _ _ Ed'). simpl.
  rewrite Hn'. simpl. rewrite Ht. simpl.
  rewrite (Hother "Order number") by by_compute. rewrite Eo. simpl.
  rewrite (setitem_id "Transaction creation date") by done.
  rewrite coerce_reread by (by apply Hnet).
  rewrite (setitem_id "Net amount") by done.
  rewrite resolved_titles_idem.
  - by rewrite setitem_id.
  - rewrite (wf_getitem _ _ _ Hwf Eo). symmetry. by eapply wf_getitem.
Qed.
End parse.
End HooldIdempotence.

(** ** gen_dash_app_1.py: the steps of [parse_contents] *)

Module GenDashLemmas.
Import Pandas TableLemmas GenDash.
Import Hoold (resolved_titles).

Lemma coerce_column_nrows df c : nrows (coerce_column df c) = nrows df.
Proof. unfold coerce_column. by destruct (assoc_get c (cols df)). Qed.

Lemma coerce_column_columns df c : columns (coerce_column df c) = columns df.
Proof.
  unfold coerce_column. destruct (assoc_get c (cols df)) eqn:E; [|done].
  apply columns_setitem_in. apply assoc_get_Some. by eexists.
Qed.

Lemma getitem_coerce_column_ne df c c' :
  c ≠ c' → getitem c' (coerce_column df c) = getitem c' df.
Proof.
  intros. unfold coerce_column. destruct (assoc_get c (cols df)); [|done].
  by apply getitem_setitem_ne.
Qed.

Lemma getitem_coerce_column_eq df c :
  getitem c (coerce_column df c) = s ← getitem c df; mret (coerced s).
Proof.
  unfold coerce_column, getitem at 2. destruct (assoc_get c (cols df)) eqn:E; simpl.
  - by rewrite getitem_setitem_eq.
  - unfold getitem. by rewrite E.
Qed.

Lemma coerce_loop_nrows cs df : nrows (foldl coerce_column df cs) = nrows df.
Proof.
  revert df. induction cs as [|c cs IH]; intros df; simpl; [done|].
  by rewrite IH, coerce_column_nrows.
Qed.

Lemma coerce_loop_columns cs df : columns (foldl coerce_column df cs) = columns df.
Proof.
  revert df. induction cs as [|c cs IH]; intros df; simpl; [done|].
  by rewrite IH, coerce_column_columns.
Qed.

Lemma getitem_coerce_loop_notin cs df c :
  c ∉ cs → getitem c (foldl coerce_column df cs) = getitem c df.
Proof.
  revert df. induction cs as [|c' cs IH]; intros df; simpl; [done|].
  rewrite not_elem_of_cons. intros [? ?].
  by rewrite IH, getitem_coerce_column_ne.
Qed.

Lemma getitem_coerce_loop_in cs df c :
  NoDup cs → c ∈ cs →
  getitem c (foldl coerce_column df cs) = s ← getitem c df; mret (coerced s).
Proof.
  revert df. induction cs as [|c' cs IH]; intros df Hnd Hin; simpl.
  - by apply elem_of_nil in Hin.
  - apply NoDup_cons in Hnd as [Hc' Hnd].
    apply elem_of_cons in Hin as [->|Hin].
    + by rewrite getitem_coerce_loop_notin, getitem_coerce_column_eq.
    + rewrite IH by done. rewrite getitem_coerce_column_ne; [done|].
      intros ->. done.
Qed.

Lemma fillna_fillna v s : v ≠ NaN → fillna v (fillna v s) = fillna v s.
Proof.
  intros Hv. unfold fillna. rewrite <-list_fmap_compose.
  apply list_fmap_ext. intros ? x _. simpl. unfold isna.
  by repeat case_bool_decide.
Qed.

(** The assignments [df[col] = df[col].fillna('--')]. *)
Lemma fill_loop_Raise cs e r : foldl fill_column (Raise e) cs = r → r = Raise e.
Proof. revert r. induction cs; simpl; intros r <-; [done|]. by apply IHcs. Qed.

Lemma fill_loop_Ok cs df df' :
  foldl fill_column (Ok df) cs = Ok df' →
  nrows df' = nrows df ∧ columns df' = columns df ∧
  (∀ c, c ∈ cs → c ∈ columns df) ∧
  (∀ c, c ∉ cs → getitem c df' = getitem c df) ∧
  (∀ c, c ∈ cs → getitem c df' = s ← getitem c df; mret (fillna (Str "--") s)).
Proof.
  revert df. induction cs as [|c cs IH]; intros df; simpl.
  - intros [= ->]. split_and!; try done; by intros c ?%elem_of_nil.
  - destruct (getitem c df) as [s|e] eqn:E; simpl.
    2: { intros Hr. by apply fill_loop_Raise in Hr. }
    assert (c ∈ columns df) as Hc by (apply getitem_Ok; eauto).
    intros (Hn & Hcols & Hin & Hout & Hfill)%IH.
    rewrite columns_setitem_in in Hcols, Hin by done.
    split_and!; try done.
    + intros c' [->|?]%elem_of_cons; auto.
    + intros c' [? ?]%not_elem_of_cons. rewrite Hout by done.
      by apply getitem_setitem_ne.
    + intros c' Hc'. destruct (decide (c' = c)) as [->|Hne].
      * destruct (decide (c ∈ cs)) as [Hin'|Hnin].
        -- rewrite Hfill, getitem_setitem_eq, E by done. simpl.
           by rewrite fillna_fillna.
        -- by rewrite Hout, getitem_setitem_eq, E.
      * apply elem_of_cons in Hc' as [?|Hc']; [done|].
        rewrite Hfill by done. by rewrite getitem_setitem_ne.
Qed.

Lemma fill_loop_total cs df :
  (∀ c, c ∈ cs → c ∈ columns df) → ∃ df', foldl fill_column (Ok df) cs = Ok df'.
Proof.
  revert df. induction cs as [|c cs IH]; intros df Hcs; simpl; [by eexists|].
  destruct (proj2 (getitem_Ok c df)) as [s E]; [apply Hcs; by left|].
  rewrite E. simpl. apply IH. intros c' Hc'.
  rewrite columns_setitem_in by (apply Hcs; by left). apply Hcs. by right.
Qed.

Lemma fill_loop_fails cs df e :
  foldl fill_column (Ok df) cs = Raise e →
  ∃ c, c ∈ cs ∧ (c ∉ columns df) ∧ e = KeyError c.
Proof.
  revert df. induction cs as [|c cs IH]; intros df; simpl; [done|].
  destruct (getitem c df) as [s|e'] eqn:E; simpl.
  - intros (c' & ? & Hc' & ->)%IH. exists c'. split_and!; [by right| |done].
    rewrite columns_setitem_in in Hc'; [done|]. apply getitem_Ok. eauto.
  - intros Hr. apply fill_loop_Raise in Hr. injection Hr as ->.
    apply getitem_Raise in E as [? ->].
    exists c. split_and!; [by left|done..].
Qed.

Lemma mapR_getitem_total cs df :
  (∀ c, c ∈ cs → c ∈ columns df) → ∃ ss, mapR (λ c, getitem c df) cs = Ok ss.
Proof.
  induction cs as [|c cs IH]; intros Hcs; simpl; [by eexists|].
  destruct (proj2 (getitem_Ok c df)) as [s E]; [apply Hcs; by left|].
  rewrite E. simpl. destruct IH as [ss ->]; [intros; apply Hcs; by right|].
  by eexists.
Qed.

Lemma mapR_getitem_fails cs df e :
  mapR (λ c, getitem c df) cs = Raise e →
  ∃ c, c ∈ cs ∧ (c ∉ columns df) ∧ e = KeyError c.
Proof.
  induction cs as [|c cs IH]; simpl; [done|].
  destruct (getitem c df) as [s|e'] eqn:E; simpl.
  - destruct (mapR _ cs); simpl; [done|]. intros [= ->].
    destruct IH as (c' & ? & ? & ->); [done|]. exists c'. split_and!; [by right|done..].
  - intros [= ->]. apply getitem_Raise in E as [? ->].
    exists c. split_and!; [by left|done..].
Qed.

Lemma mapR_getitem_Ok cs df ss :
  mapR (λ c, getitem c df) cs = Ok ss → ∀ c, c ∈ cs → c ∈ columns df.
Proof.
  revert ss. induction cs as [|c cs IH]; intros ss; simpl.
  - by intros _ c ?%elem_of_nil.
  - destruct (getitem c df) as [s|] eqn:E; [|done]. simpl.
    destruct (mapR _ cs) eqn:E'; [|done]. simpl. intros _ c' [->|?]%elem_of_cons.
    + apply getitem_Ok. eauto.
    + by eapply IH.
Qed.

(** The [try] block over arbitrary lists of column names, so that its
    steps can be followed without running through the 22 names. *)
Section any_columns.
Context `{DateParser}.
Variables numeric filled fee : list string.

Hypothesis numeric_NoDup : NoDup numeric.
Hypothesis numeric_other :
  ∀ c, c ∈ numeric →
    (c ∉ filled) ∧ c ≠ "Item title" ∧ c ≠ "Order creation date" ∧ c ≠ "Total Fees".
Hypothesis filled_other :
  ∀ c, c ∈ filled →
    c ≠ "Item title" ∧ c ≠ "Order creation date" ∧ c ≠ "Total Fees".
Hypothesis fee_numeric : ∀ c, c ∈ fee → c ∈ numeric.
Hypothesis order_number : "Order number" ∉ numeric.

Lemma try_with_Ok df out :
  try_with numeric filled fee df = Ok out →
  ∃ date date' title orders fees,
    getitem "Order creation date" df = Ok date ∧
    to_datetime date = Ok date' ∧
    getitem "Item title" df = Ok title ∧
    getitem "Order number" df = Ok orders ∧
    mapR (λ c, s ← getitem c df; mret (coerced s)) fee = Ok fees ∧
    nrows out = nrows df ∧
    columns out = (if decide ("Total Fees" ∈ columns df) then columns df
                   else columns df ++ ["Total Fees"]) ∧
    getitem "Order creation date" out = Ok (dt_strftime date') ∧
    getitem "Item title" out = Ok (resolved_titles orders title) ∧
    getitem "Total Fees" out = Ok (sum_axis1 (nrows df) fees) ∧
    (∀ c, c ∈ numeric →
       getitem c out = s ← getitem c df; mret (coerced s)) ∧
    (∀ c, c ∈ filled →
       getitem c out = s ← getitem c df; mret (fillna (Str "--") s)) ∧
    (∀ c, c ∈ filled → c ∈ columns df) ∧
    (∀ c, c ∉ "Order creation date" :: "Item title" :: "Total Fees"
                :: numeric ++ filled →
       getitem c out = getitem c df).
Proof.
  assert (("Item title" ∉ numeric) ∧ ("Order creation date" ∉ numeric))
    as [Htn Hdn].
  { split; intros Hin; apply numeric_other in Hin as (? & ? & ? & ?); done. }
  assert (("Item title" ∉ filled) ∧ ("Order creation date" ∉ filled))
    as [Htf Hdf].
  { split; intros Hin; apply filled_other in Hin as (? & ? & ?); done. }
  unfold try_with.
  destruct (getitem "Order creation date" df) as [date|] eqn:Ed; run; [|done].
  destruct (to_datetime date) as [date'|] eqn:Ed'; run; [|done].
  set (df1 := setitem "Order creation date" date' df).
  set (df2 := foldl coerce_column df1 numeric).
  assert (∀ c, c ∉ numeric → c ≠ "Order creation date" →
               getitem c df2 = getitem c df) as Hdf2.
  { intros c ? ?. unfold df2, df1.
    rewrite getitem_coerce_loop_notin by done. by apply getitem_setitem_ne. }
  rewrite (Hdf2 "Item title") by done.
  destruct (getitem "Item title" df) as [title|] eqn:Et; run; [|done].
  get_set. rewrite (Hdf2 "Order number") by done.
  destruct (getitem "Order number" df) as [orders|] eqn:Eo; run; [|done].
  get_set. rewrite ?(Hdf2 "Order number") by done.
  rewrite ?Eo. run. get_set. rewrite !setitem_setitem.
  fold (resolved_titles orders title).
  set (df5 := setitem "Item title" (resolved_titles orders title) df2).
  destruct (foldl fill_column (Ok df5) filled) as [df6|] eqn:E6; run; [|done].
  apply fill_loop_Ok in E6 as (Hn6 & Hc6 & Hin6 & Hout6 & Hfill6).
  destruct (mapR (λ c, getitem c df6) fee) as [fees|] eqn:Ef; run; [|done].
  get_set. rewrite (Hout6 "Order creation date") by done.
  unfold df5 at 1. get_set. unfold df2 at 1.
  rewrite getitem_coerce_loop_notin by done. unfold df1 at 1. get_set.
  intros [= <-].
  assert (nrows df6 = nrows df) as Hn.
  { rewrite Hn6. unfold df5, df2. cbn [nrows setitem].
    by rewrite coerce_loop_nrows. }
  assert (columns df6 = columns df) as Hc.
  { rewrite Hc6. unfold df5.
    rewrite columns_setitem_in; unfold df2; rewrite coerce_loop_columns; unfold df1.
    - apply columns_setitem_in, getitem_Ok. eauto.
    - rewrite columns_setitem_in by (apply getitem_Ok; eauto).
      apply getitem_Ok. eauto. }
  assert (∀ c, c ∈ numeric →
            getitem c df6 = s ← getitem c df; mret (coerced s)) as Hnum.
  { intros c Hc'. destruct (numeric_other c Hc') as (? & ? & ? & ?).
    rewrite Hout6 by done. unfold df5. get_set. unfold df2.
    rewrite getitem_coerce_loop_in by done.
    unfold df1. by get_set. }
  exists date, date', title, orders, fees. split_and!; try done.
  - rewrite <-Ef. clear Ef. induction fee as [|c cs IH]; [done|].
    cbn [mapR]. rewrite Hnum by (apply fee_numeric; by left).
    rewrite IH; [done|]. intros c' ?. apply fee_numeric. by right.
  - rewrite <-Hc.
    assert ("Order creation date" ∈ columns df6) as Hd6.
    { rewrite Hc. apply getitem_Ok. eauto. }
    set (tf := sum_axis1 (nrows df6) fees).
    destruct (decide ("Total Fees" ∈ columns df6)) as [Htot|Htot].
    + rewrite (columns_setitem_in _ _ (setitem "Total Fees" tf df6)).
      * by apply columns_setitem_in.
      * by rewrite columns_setitem_in.
    + rewrite (columns_setitem_in _ _ (setitem "Total Fees" tf df6)).
      * by apply columns_setitem_notin.
      * rewrite columns_setitem_notin by done. apply elem_of_app. by left.
  - by get_set.
  - get_set. rewrite Hout6 by done. unfold df5. by get_set.
  - get_set. by rewrite Hn.
  - intros c Hc'. rewrite <-Hnum by done.
    destruct (numeric_other c Hc') as (? & ? & ? & ?). by get_set.
  - intros c Hc'. destruct (filled_other c Hc') as (? & ? & ?).
    assert (c ∉ numeric) by (intros Hin; by apply numeric_other in Hin as [? _]).
    get_set. rewrite Hfill6 by done. unfold df5. get_set.
    by rewrite Hdf2.
  - intros c Hc'. rewrite <-Hc, Hc6. by apply Hin6.
  - intros c.
    rewrite !not_elem_of_cons, not_elem_of_app. intros (? & ? & ? & ? & ?).
    get_set. rewrite Hout6 by done. unfold df5. get_set. by apply Hdf2.
Qed.

Lemma to_datetime_Raise s e : to_datetime s = Raise e → ∃ t, e = ParserError t.
Proof.
  unfold to_datetime. induction s as [|c s IH]; simpl; [done|].
  destruct (to_datetime_cell c) as [c'|e'] eqn:Ec; run.
  - destruct (mapR to_datetime_cell s); run; [done|]. intros [= ->]. by apply IH.
  - intros [= ->]. destruct c as [|t|x|t]; simpl in Ec; try done.
    + destruct (parse_datetime t); simplify_eq. by eexists.
    + destruct (epoch_datetime x); simplify_eq. by eexists.
Qed.

(** The ways in which the [try] block fails. *)
Lemma try_with_Raise df e :
  try_with numeric filled fee df = Raise e →
  (∃ c, c ∈ "Order creation date" :: "Item title" :: "Order number" :: filled ++ fee
        ∧ (c ∉ columns df) ∧ e = KeyError c) ∨
  (∃ date t, getitem "Order creation date" df = Ok date ∧
             to_datetime date = Raise e ∧ e = ParserError t).
Proof.
  assert (("Item title" ∉ numeric) ∧ ("Order creation date" ∉ numeric))
    as [Htn Hdn].
  { split; intros Hin; apply numeric_other in Hin as (? & ? & ? & ?); done. }
  assert (("Item title" ∉ filled) ∧ ("Order creation date" ∉ filled))
    as [Htf Hdf].
  { split; intros Hin; apply filled_other in Hin as (? & ? & ?); done. }
  unfold try_with.
  destruct (getitem "Order creation date" df) as [date|e'] eqn:Ed; run.
  2: { intros [= ->]. apply getitem_Raise in Ed as [? ->]. left.
       eexists. split_and!; [|done..]. by left. }
  destruct (to_datetime date) as [date'|e'] eqn:Ed'; run.
  2: { intros [= ->]. right. destruct (to_datetime_Raise _ _ Ed') as [t ->].
       eauto. }
  set (df1 := setitem "Order creation date" date' df).
  set (df2 := foldl coerce_column df1 numeric).
  assert (∀ c, c ∉ numeric → c ≠ "Order creation date" →
               getitem c df2 = getitem c df) as Hdf2.
  { intros c ? ?. unfold df2, df1.
    rewrite getitem_coerce_loop_notin by done. by apply getitem_setitem_ne. }
  assert (columns df2 = columns df) as Hc2.
  { unfold df2. rewrite coerce_loop_columns. unfold df1.
    apply columns_setitem_in, getitem_Ok. eauto. }
  rewrite (Hdf2 "Item title") by done.
  destruct (getitem "Item title" df) as [title|e'] eqn:Et; run.
  2: { intros [= ->]. apply getitem_Raise in Et as [? ->]. left.
       eexists. split_and!; [|done..]. right. by left. }
  get_set. rewrite (Hdf2 "Order number") by done.
  destruct (getitem "Order number" df) as [orders|e'] eqn:Eo; run.
  2: { intros [= ->]. apply getitem_Raise in Eo as [? ->]. left.
       eexists. split_and!; [|done..]. do 2 right. by left. }
  get_set. rewrite ?(Hdf2 "Order number") by done.
  rewrite ?Eo. run. get_set. rewrite !setitem_setitem.
  fold (resolved_titles orders title).
  set (df5 := setitem "Item title" (resolved_titles orders title) df2).
  assert (columns df5 = columns df) as Hc5.
  { unfold df5. rewrite columns_setitem_in; rewrite Hc2; [done|].
    apply getitem_Ok. eauto. }
  destruct (foldl fill_column (Ok df5) filled) as [df6|e'] eqn:E6; run.
  2: { intros [= ->]. apply fill_loop_fails in E6 as (c & ? & Hc & ->).
       rewrite Hc5 in Hc. left. exists c. split_and!; [|done..].
       do 3 right. apply elem_of_app. by left. }
  apply fill_loop_Ok in E6 as (Hn6 & Hc6 & Hin6 & Hout6 & Hfill6).
  destruct (mapR (λ c, getitem c df6) fee) as [fees|e'] eqn:Ef; run.
  2: { intros [= ->]. apply mapR_getitem_fails in Ef as (c & ? & Hc & ->).
       rewrite Hc6, Hc5 in Hc. left. exists c. split_and!; [|done..].
       do 3 right. apply elem_of_app. by right. }
  get_set. rewrite (Hout6 "Order creation date") by done.
  unfold df5 at 1. get_set. unfold df2 at 1.
  rewrite getitem_coerce_loop_notin by done. unfold df1 at 1. get_set. done.
Qed.

(** With its columns in place and its dates readable the [try]
    block succeeds. *)
Lemma try_with_total df date date' :
  (∀ c, c ∈ "Order creation date" :: "Item title" :: "Order number" :: filled ++ fee →
        c ∈ columns df) →
  getitem "Order creation date" df = Ok date →
  to_datetime date = Ok date' →
  ∃ out, try_with numeric filled fee df = Ok out.
Proof.
  intros Hreq Ed Ed'.
  destruct (try_with numeric filled fee df) as [out|e] eqn:E; [by eexists|exfalso].
  apply try_with_Raise in E as [(c & Hc & Hn & _)|(d & t & Ed2 & Ed3 & _)].
  - by apply Hn, Hreq.
  - congruence.
Qed.
End any_columns.

Section parse.
Context `{DateParser}.

(** A successful run of the [try] block, column by column. *)
Lemma gen_dash_try_Ok df out :
  parse_contents_try df = Ok out →
  ∃ date date' title orders fees,
    getitem "Order creation date" df = Ok date ∧
    to_datetime date = Ok date' ∧
    getitem "Item title" df = Ok title ∧
    getitem "Order number" df = Ok orders ∧
    mapR (λ c, s ← getitem c df; mret (coerced s)) fee_columns = Ok fees ∧
    nrows out = nrows df ∧
    columns out = (if decide ("Total Fees" ∈ columns df) then columns df
                   else columns df ++ ["Total Fees"]) ∧
    getitem "Order creation date" out = Ok (dt_strftime date') ∧
    getitem "Item title" out = Ok (resolved_titles orders title) ∧
    getitem "Total Fees" out = Ok (sum_axis1 (nrows df) fees) ∧
    (∀ c, c ∈ numeric_columns →
       getitem c out = s ← getitem c df; mret (coerced s)) ∧
    (∀ c, c ∈ filled_columns →
       getitem c out = s ← getitem c df; mret (fillna (Str "--") s)) ∧
    (∀ c, c ∈ filled_columns → c ∈ columns df) ∧
    (∀ c, c ∉ written_columns → getitem c out = getitem c df).
Proof.
  apply (try_with_Ok numeric_columns filled_columns fee_columns);
    first [by_compute | apply Forall_forall; by_compute].
Qed.

Lemma gen_dash_try_Raise df e :
  parse_contents_try df = Raise e →
  (∃ c, c ∈ required_columns ∧ (c ∉ columns df) ∧ e = KeyError c) ∨
  (∃ date t, getitem "Order creation date" df = Ok date ∧
             to_datetime date = Raise e ∧ e = ParserError t).
Proof.
  apply (try_with_Raise numeric_columns filled_columns fee_columns);
    first [by_compute | apply Forall_forall; by_compute].
Qed.

Lemma gen_dash_try_total df date date' :
  (∀ c, c ∈ required_columns → c ∈ columns df) →
  getitem "Order creation date" df = Ok date →
  to_datetime date = Ok date' →
  ∃ out, parse_contents_try df = Ok out.
Proof.
  apply (try_with_total numeric_columns filled_columns fee_columns);
    first [by_compute | apply Forall_forall; by_compute].
Qed.
End parse.
End GenDashLemmas.

(** ** Printing and reading numbers *)

Module ReprLemmas.
Import PyStr Pandas Identifiers SumLemmas.

Lemma read_digits_cons acc n c r :
  read_digits acc n (String c r) =
    if is_digit c then read_digits (10 * acc + digit_val c) (S n) r
    else (acc, n, String c r).
Proof. done. Qed.

Lemma read_digits_app acc n ds rest :
  all_chars is_digit ds →
  match rest with String c _ => is_digit c = false | "" => True end →
  read_digits acc n (ds +:+ rest) = (digits_value acc ds, n + String.length ds, rest).
Proof.
  revert acc n. induction ds as [|c ds IH]; intros acc n Hds Hrest.
  - change ("" +:+ rest) with rest. cbn [digits_value String.length].
    rewrite Nat.add_0_r. destruct rest as [|c r]; [done|].
    by rewrite read_digits_cons, Hrest.
  - cbn [all_chars] in Hds. apply andb_True in Hds as [Hc Hds].
    change (String c ds +:+ rest) with (String c (ds +:+ rest)).
    rewrite read_digits_cons. destruct (is_digit c); [|done].
    rewrite IH by done. cbn [digits_value String.length]. do 2 f_equal. lia.
Qed.

Lemma digit_val_pretty_N_char x : (x < 10)%N → digit_val (pretty_N_char x) = x.
Proof.
  intros Hx. unfold digit_val, pretty_N_char.
  assert (x = 0 ∨ x = 1 ∨ x = 2 ∨ x = 3 ∨ x = 4 ∨ x = 5 ∨ x = 6 ∨ x = 7
          ∨ x = 8 ∨ x = 9)%N as Hcases by lia.
  repeat (destruct Hcases as [->|Hcases]; [done|]). by subst.
Qed.

(** [pretty_N_go x s] puts the [k] digits of [x] in front of [s]. *)
Lemma pretty_N_go_value x s :
  ∃ k, String.length (pretty_N_go x s) = k + String.length s ∧
       (x < 10 ^ N.of_nat k)%N ∧
       (x = 0%N → k = 0) ∧
       (x ≠ 0%N → 0 < k ∧ (10 ^ N.of_nat k ≤ 10 * x)%N) ∧
       ∀ acc, digits_value acc (pretty_N_go x s)
              = digits_value (acc * 10 ^ N.of_nat k + x) s.
Proof.
  revert s. induction (N.lt_wf_0 x) as [x _ IH]; intros s.
  destruct (decide (x = 0%N)) as [->|Hx].
  - exists 0. rewrite pretty_N_go_0. split_and!; [done..|].
    intros acc. f_equal. simpl. lia.
  - rewrite pretty_N_go_step by lia.
    destruct (IH (x `div` 10)%N) with (s := String (pretty_N_char (x `mod` 10)) s)
      as (k & Hlen & Hlt & Hz & Hnz & Hval).
    { apply N.div_lt; lia. }
    pose proof (N.div_mod x 10 ltac:(lia)) as Hdm.
    pose proof (N.mod_lt x 10 ltac:(lia)) as Hm.
    exists (S k). rewrite Nat2N.inj_succ, N.pow_succ_r'.
    set (p := (10 ^ N.of_nat k)%N) in *.
    assert (p = (10 ^ N.of_nat k)%N) as Hp by done. clearbody p.
    set (q := (x `div` 10)%N) in *. set (r := (x `mod` 10)%N) in *.
    clearbody q r. split_and!.
    + rewrite Hlen. cbn [String.length]. clear. lia.
    + lia.
    + done.
    + intros _. split; [lia|].
      destruct (decide (q = 0)%N) as [Hq|Hq].
      * rewrite (Hz Hq) in Hp. simpl in Hp. lia.
      * destruct (Hnz Hq) as [_ ?]. lia.
    + intros acc. rewrite Hval. cbn [digits_value].
      rewrite digit_val_pretty_N_char by done. f_equal. lia.
Qed.

Lemma pretty_N_value (x : N) :
  ∃ k, String.length (pretty x) = k ∧ 0 < k ∧
       (x < 10 ^ N.of_nat k)%N ∧
       (x ≠ 0%N → 10 ^ N.of_nat k ≤ 10 * x)%N ∧
       ∀ acc, digits_value acc (pretty x) = (acc * 10 ^ N.of_nat k + x)%N.
Proof.
  unfold pretty, pretty_N. case_decide as Hx.
  - subst. exists 1. split_and!; [done|lia|done|done|].
    intros acc. cbn. unfold digit_val. simpl. lia.
  - destruct (pretty_N_go_value x "") as (k & Hlen & Hlt & _ & Hnz & Hval).
    destruct (Hnz Hx) as [? ?].
    exists k. split_and!; [|done..|].
    + rewrite Hlen. simpl. lia.
    + intros acc. by rewrite Hval.
Qed.

Lemma filter_chars_all (p : ascii → bool) s : all_chars p s → filter_chars p s = s.
Proof.
  induction s as [|c s IH]; [done|]. cbn [all_chars filter_chars].
  intros [Hc Hs]%andb_True. destruct (p c); [|done]. by rewrite IH.
Qed.

Lemma digit_numeric c : is_digit c → numeric_char c.
Proof. unfold numeric_char. by intros ->%Is_true_true. Qed.

Lemma pretty_N_digits (x : N) : all_chars is_digit (pretty x).
Proof.
  unfold pretty, pretty_N. case_decide; [done|]. by apply pretty_N_go_digits.
Qed.

Lemma zeros_digits n : all_chars is_digit (zeros n).
Proof. induction n; [done|]. cbn [zeros all_chars]. by apply andb_True. Qed.

Lemma length_zeros n : String.length (zeros n) = n.
Proof. induction n; [done|]. cbn [zeros String.length]. by f_equal. Qed.

Lemma digits_value_app acc s t :
  digits_value acc (s +:+ t) = digits_value (digits_value acc s) t.
Proof.
  revert acc. induction s as [|c s IH]; intros acc; [done|].
  change (String c s +:+ t) with (String c (s +:+ t)). cbn [digits_value]. apply IH.
Qed.

Lemma digits_value_zeros acc n :
  digits_value acc (zeros n) = (acc * 10 ^ N.of_nat n)%N.
Proof.
  revert acc. induction n as [|n IH]; intros acc.
  - cbn. lia.
  - cbn [zeros digits_value]. rewrite IH, Nat2N.inj_succ, N.pow_succ_r'.
    unfold digit_val. simpl. lia.
Qed.

Lemma string_app_nil_r s : s +:+ "" = s.
Proof.
  induction s as [|c s IH]; [done|].
  change (String c s +:+ "") with (String c (s +:+ "")). by rewrite IH.
Qed.

(** The fraction digits of [float_repr]: [n] digits with value [r]. *)
Lemma pad_value n (r : N) acc :
  r ≠ 0%N → (r < 10 ^ N.of_nat n)%N →
  String.length (pad n (pretty r)) = n ∧
  all_chars is_digit (pad n (pretty r)) ∧
  digits_value acc (pad n (pretty r)) = (acc * 10 ^ N.of_nat n + r)%N.
Proof.
  intros Hr Hlt. destruct (pretty_N_value r) as (k & Hlen & Hk & _ & Hge & Hval).
  specialize (Hge Hr).
  assert (k ≤ n) as Hkn.
  { destruct (decide (k ≤ n)) as [|Hn]; [done|exfalso].
    assert ((10 ^ N.of_nat (S n) ≤ 10 ^ N.of_nat k)%N) as Hpow
      by (apply N.pow_le_mono_r; lia).
    rewrite Nat2N.inj_succ, N.pow_succ_r' in Hpow. lia. }
  unfold pad. rewrite Hlen. split_and!.
  - rewrite string_length_app, length_zeros, Hlen. lia.
  - rewrite all_chars_app. apply andb_True. split;
      [apply zeros_digits | apply pretty_N_digits].
  - rewrite digits_value_app, digits_value_zeros, Hval.
    replace n with ((n - k) + k) at 2 by lia.
    rewrite Nat2N.inj_add, N.pow_add_r. lia.
Qed.

(** What [parse_number] returns on digits, a point and digits. *)
Lemma parse_number_point (neg : bool) (int frac : string) :
  int ≠ "" → all_chars is_digit int → all_chars is_digit frac →
  parse_number ((if neg then "-" else "") +:+ int +:+ "." +:+ frac) =
    Some (dec_norm
            (Dec (let v := Z.of_N (digits_value (digits_value 0 int) frac) in
                  if neg then (- v)%Z else v)
                 (String.length frac))).
Proof.
  intros Hne Hint Hfrac. unfold parse_number.
  assert (read_digits 0 0 (int +:+ "." +:+ frac)
          = (digits_value 0 int, String.length int, "." +:+ frac)) as Hread.
  { by rewrite read_digits_app. }
  assert (read_digits (digits_value 0 int) 0 frac
          = (digits_value (digits_value 0 int) frac, String.length frac, ""))
    as Hread'.
  { rewrite <-(string_app_nil_r frac) at 1. by rewrite read_digits_app. }
  assert (String.length int + String.length frac ≠ 0) as Hlen.
  { destruct int; [done|]. cbn [String.length]. lia. }
  destruct neg.
  - change ("-" +:+ int +:+ "." +:+ frac) with (String "-" (int +:+ "." +:+ frac)).
    cbv iota beta. rewrite Hread.
    change ("." +:+ frac) with (String "." frac). cbv iota beta.
    rewrite Hread'. by rewrite decide_False.
  - change ("" +:+ int +:+ "." +:+ frac) with (int +:+ "." +:+ frac).
    destruct int as [|c int']; [done|].
    cbn [all_chars] in Hint. apply andb_True in Hint as [Hc Hint].
    change (String c int' +:+ "." +:+ frac) with (String c (int' +:+ "." +:+ frac)) in *.
    assert (c ≠ "-"%char ∧ c ≠ "+"%char) as [Hm Hp].
    { split; intros ->; done. }
    destruct c as [[] [] [] [] [] [] [] []]; try done;
      cbv iota beta; rewrite Hread;
      change ("." +:+ frac) with (String "." frac); cbv iota beta;
      rewrite Hread'; by rewrite decide_False.
Qed.

Lemma dec_norm_times_ten m : dec_norm (Dec (10 * m) 1) = Dec m 0.
Proof.
  unfold dec_norm. simpl. rewrite decide_True.
  - f_equal. rewrite Z.mul_comm. by apply Z.div_mul.
  - rewrite Z.mul_comm. by apply Z.mod_mul.
Qed.

(** A number printed in positional notation is read back as it is. *)
Lemma coerce_positional d :
  canonical d → positional d → coerce (Num d) = Num d.
Proof.
  intros Hcan Hpos. destruct d as [m s].
  unfold coerce, astype_str, float_repr. cbn [mant scale].
  destruct (decide (Z.abs_N m = 0%N)) as [Hz|Hnz].
  { assert (m = 0%Z) as -> by lia.
    destruct Hcan as [Hs|Hm]; simpl in *; [by subst|done]. }
  destruct Hpos as [Hm|Hpt]; [simpl in Hm; lia|].
  unfold decpt in Hpt. cbn [mant scale] in Hpt.
  rewrite decide_True by done.
  set (a := Z.abs_N m) in *. set (p := (10 ^ N.of_nat s)%N).
  set (neg := (m <? 0)%Z).
  assert (m = if neg then (- Z.of_N a)%Z else Z.of_N a) as Hm.
  { unfold neg, a. destruct (Z.ltb_spec m 0); lia. }
  assert ((0 < p)%N) as Hp by (unfold p; apply N.neq_0_lt_0, N.pow_nonzero; lia).
  pose proof (N.div_mod a p ltac:(lia)) as Hdm.
  pose proof (N.mod_lt a p ltac:(lia)) as Hlt.
  set (frac := if decide (s = 0) then "0" else pad s (pretty (a `mod` p)%N)).
  assert (all_chars is_digit frac ∧
          dec_norm (Dec (let v := Z.of_N (digits_value (digits_value 0
                                   (pretty (a `div` p)%N)) frac) in
                         if neg then (- v)%Z else v) (String.length frac))
            = Dec m s) as [Hfrac Hval].
  { destruct (pretty_N_value (a `div` p)%N) as (k & _ & _ & _ & _ & Hq).
    rewrite Hq, N.mul_0_l, N.add_0_l. unfold frac. case_decide as Hs.
    - subst s. split; [done|]. cbn [digits_value String.length].
      assert (p = 1%N) as Hp1 by done. rewrite Hp1, N.div_1_r in *.
      unfold digit_val. simpl code. rewrite N.add_0_r.
      rewrite Hm. destruct neg; rewrite N2Z.inj_mul; simpl Z.of_N.
      + rewrite <-Z.mul_opp_r. apply dec_norm_times_ten.
      + apply dec_norm_times_ten.
    - assert ((a `mod` p)%N ≠ 0%N) as Hr.
      { intros Hr. destruct Hcan as [?|Hcan]; [done|]. simpl in Hcan.
        apply Hcan. rewrite Hr, N.add_0_r in Hdm.
        assert (p = (10 * 10 ^ N.of_nat (s - 1))%N) as Hp10.
        { unfold p. rewrite <-N.pow_succ_r', <-Nat2N.inj_succ. do 2 f_equal. lia. }
        assert (Z.of_N a = (10 * (Z.of_N (10 ^ N.of_nat (s - 1)) * Z.of_N (a `div` p)))%Z)
          as Ha by lia.
        destruct neg; rewrite Hm, Ha.
        - rewrite <-Z.mul_opp_r, Z.mul_comm. by apply Z.mod_mul.
        - rewrite Z.mul_comm. by apply Z.mod_mul. }
      destruct (pad_value s (a `mod` p)%N (a `div` p)%N Hr Hlt)
        as (Hlen & Hdig & Hv).
      split; [done|]. rewrite Hv, Hlen. fold p.
      replace (a `div` p * p + a `mod` p)%N with a by lia.
      rewrite <-Hm. by apply dec_norm_canonical_id. }
  assert (pretty (a `div` p)%N ≠ "") as Hne.
  { destruct (pretty_N_value (a `div` p)%N) as (k & Hlen & Hk & _).
    intros Heq. rewrite Heq in Hlen. simpl in Hlen. lia. }
  fold neg. fold frac. unfold strip_non_numeric.
  rewrite filter_chars_all.
  - unfold to_numeric. by rewrite parse_number_point, Hval
      by (done || apply pretty_N_digits).
  - rewrite !all_chars_app, !andb_True. split_and!.
    + by destruct neg.
    + eapply all_chars_impl, pretty_N_digits. apply digit_numeric.
    + done.
    + eapply all_chars_impl, Hfrac. apply digit_numeric.
Qed.
End ReprLemmas.

(** ** gen_dash_app_1.py: a second pass *)

Module GenDashIdempotence.
Import Pandas TableLemmas GenDash GenDashLemmas.
Import Hoold (resolved_titles).
Import TitleLemmas HooldIdempotence.

Lemma coerce_loop_id cs df :
  (∀ c s, c ∈ cs → getitem c df = Ok s → coerced s = s) →
  foldl coerce_column df cs = df.
Proof.
  induction cs as [|c cs IH]; intros Hcs; simpl; [done|].
  assert (coerce_column df c = df) as ->.
  { unfold coerce_column. destruct (assoc_get c (cols df)) as [s|] eqn:E; [|done].
    assert (getitem c df = Ok s) as Hs by (unfold getitem; by rewrite E).
    rewrite (Hcs c s) by (done || by left). by apply setitem_id. }
  apply IH. intros c' s ? ?. apply (Hcs c'); [by right|done].
Qed.

Lemma fill_loop_id cs df :
  (∀ c, c ∈ cs → ∃ s, getitem c df = Ok s ∧ fillna (Str "--") s = s) →
  foldl fill_column (Ok df) cs = Ok df.
Proof.
  induction cs as [|c cs IH]; intros Hcs; simpl; [done|].
  destruct (Hcs c) as (s & Hs & Hfill); [by left|].
  rewrite Hs. simpl. rewrite Hfill, (setitem_id c s df Hs).
  apply IH. intros c' ?. apply Hcs. by right.
Qed.

Lemma fillna_id v s : NaN ∉ s → fillna v s = s.
Proof.
  unfold fillna. induction s as [|c s IH]; csimpl; [done|].
  rewrite not_elem_of_cons. intros [? ?]. rewrite IH by done.
  unfold isna. by rewrite bool_decide_eq_false_2.
Qed.

Lemma fillna_no_NaN v s : v ≠ NaN → NaN ∉ fillna v s.
Proof.
  intros Hv. unfold fillna. intros (c & Hc & _)%list_elem_of_fmap.
  unfold isna in Hc. by case_bool_decide.
Qed.

Lemma coerced_reread s : Forall reread (coerced s) → coerced (coerced s) = coerced s.
Proof.
  intros Hs. unfold coerced at 1. rewrite coerce_reread by done.
  apply fillna_id. by apply fillna_no_NaN.
Qed.

Lemma mapR_ext {A B} (f g : A → result B) l :
  (∀ a, a ∈ l → f a = g a) → mapR f l = mapR g l.
Proof.
  induction l as [|a l IH]; intros Hfg; simpl; [done|].
  rewrite (Hfg a) by (by left). rewrite IH; [done|].
  intros a' ?. apply Hfg. by right.
Qed.

Section any_columns.
Context `{DateParser}.
Variables numeric filled fee : list string.
Hypothesis numeric_NoDup : NoDup numeric.
Hypothesis numeric_other :
  ∀ c, c ∈ numeric →
    (c ∉ filled) ∧ c ≠ "Item title" ∧ c ≠ "Order creation date" ∧ c ≠ "Total Fees".
Hypothesis filled_other :
  ∀ c, c ∈ filled →
    c ≠ "Item title" ∧ c ≠ "Order creation date" ∧ c ≠ "Total Fees".
Hypothesis fee_numeric : ∀ c, c ∈ fee → c ∈ numeric.
Hypothesis order_number : "Order number" ∉ numeric.
Hypothesis order_number_filled : "Order number" ∈ filled.

(** The dates that [strftime] has printed are read back. *)
Lemma to_datetime_strftime (date' : Series) :
  (∀ t, Str t ∈ dt_strftime date' →
        ∃ t', parse_datetime t = Some (Some t') ∧ strftime t' = t) →
  ∃ date'', to_datetime (dt_strftime date') = Ok date'' ∧
            dt_strftime date'' = dt_strftime date'.
Proof.
  unfold to_datetime, dt_strftime.
  induction date' as [|c s IH]; intros Hs; csimpl; [by eexists|].
  destruct IH as (k & -> & Hk).
  { intros t Ht. apply Hs. csimpl. by right. }
  destruct c as [|?|?|t]; csimpl; try (eexists; split; [done|]; csimpl; by f_equal).
  destruct (Hs (strftime t)) as (t' & -> & Ht'); [csimpl; by left|].
  eexists. split; [done|]. csimpl. by rewrite Ht', Hk.
Qed.

Lemma try_with_idem df out :
  wf df →
  try_with numeric filled fee df = Ok out →
  (∀ c s, c ∈ numeric → getitem c out = Ok s → Forall reread s) →
  (∀ orders, getitem "Order number" df = Ok orders → NaN ∉ orders) →
  (∀ date t, getitem "Order creation date" out = Ok date → Str t ∈ date →
             ∃ t', parse_datetime t = Some (Some t') ∧ strftime t' = t) →
  try_with numeric filled fee out = Ok out.
Proof.
  intros Hwf Hout Hnum Hord Hdate.
  assert (("Item title" ∉ numeric) ∧ ("Order creation date" ∉ numeric))
    as [Htn Hdn].
  { split; intros Hin; apply numeric_other in Hin as (? & ? & ? & ?); done. }
  assert (("Item title" ∉ filled) ∧ ("Order creation date" ∉ filled))
    as [Htf Hdf].
  { split; intros Hin; apply filled_other in Hin as (? & ? & ?); done. }
  destruct (try_with_Ok numeric filled fee numeric_NoDup numeric_other
              filled_other fee_numeric order_number df out Hout)
    as (date & date' & title & orders & fees & Ed & Ed' & Et & Eo & Ef &
        Hn & Hc & Hd & Ht & Htot & Hnumeric & Hfilled & Hfin & Hother).
  destruct (to_datetime_strftime date') as (date'' & Ed'' & Hs'').
  { intros t. by apply Hdate. }
  assert (getitem "Order number" out = Ok orders) as Eo'.
  { rewrite Hfilled, Eo by done. simpl. rewrite fillna_id; [done|]. by apply Hord. }
  unfold try_with. rewrite Hd. run. rewrite Ed''. run.
  set (df1 := setitem "Order creation date" date'' out).
  assert (∀ c, c ≠ "Order creation date" → getitem c df1 = getitem c out) as Hdf1.
  { intros c ?. unfold df1. by apply getitem_setitem_ne. }
  rewrite coerce_loop_id.
  2: { intros c s Hc' Hs. destruct (numeric_other c Hc') as (? & ? & ? & ?).
       rewrite Hdf1 in Hs by done. pose proof (Hnum c s Hc' Hs) as Hr.
       rewrite Hnumeric in Hs by done.
       destruct (getitem c df) as [s0|]; cbn in Hs; [|done].
       injection Hs as <-. by apply coerced_reread. }
  rewrite (Hdf1 "Item title") by done. rewrite Ht. run. get_set.
  rewrite (Hdf1 "Order number"), Eo' by done. run. get_set.
  rewrite ?(Hdf1 "Order number"), ?Eo' by done. run. get_set.
  rewrite !setitem_setitem. fold (resolved_titles orders (resolved_titles orders title)).
  rewrite resolved_titles_idem.
  2: { rewrite (wf_getitem _ _ _ Hwf Eo). symmetry. by eapply wf_getitem. }
  rewrite (setitem_id "Item title") by (by rewrite Hdf1).
  rewrite fill_loop_id.
  2: { intros c Hc'. destruct (filled_other c Hc') as (? & ? & ?).
       rewrite Hdf1, Hfilled by done.
       destruct (proj2 (getitem_Ok c df) (Hfin c Hc')) as [s0 ->]. simpl.
       eexists. split; [done|]. by apply fillna_fillna. }
  run.
  rewrite (mapR_ext _ (λ c, s ← getitem c df; mret (coerced s))), Ef.
  2: { intros c Hc'. apply fee_numeric in Hc'.
       destruct (numeric_other c Hc') as (? & ? & ? & ?).
       rewrite Hdf1 by done. by apply Hnumeric. }
  run.
  assert (nrows df1 = nrows df) as -> by done.
  rewrite (setitem_id "Total Fees") by (by rewrite Hdf1).
  unfold df1. get_set. rewrite setitem_setitem, Hs''. by rewrite setitem_id.
Qed.
End any_columns.
End GenDashIdempotence.

(** ** calculate_payout.py *)

Module CalculatePayoutLemmas.
Import Pandas TableLemmas CalculatePayout.

Lemma columns_df_replace old new df : columns (df_replace old new df) = columns df.
Proof.
  unfold columns, df_replace. cbn [cols]. rewrite <-list_fmap_compose.
  by apply list_fmap_ext.
Qed.

Lemma columns_df_select mask df : columns (df_select mask df) = columns df.
Proof.
  unfold columns, df_select. cbn [cols]. rewrite <-list_fmap_compose.
  by apply list_fmap_ext.
Qed.

Lemma project_Ok cs df :
  (∀ c, c ∈ cs → c ∈ columns df) → ∃ r, project cs df = Ok r ∧ columns r = cs.
Proof.
  intros Hcs. unfold project.
  assert (∃ ss, mapR (λ c, s ← getitem c df; mret (c, s)) cs = Ok ss ∧ ss.*1 = cs)
    as (ss & -> & Hss).
  { induction cs as [|c cs IH]; [by eexists|]. cbn [mapR].
    destruct (proj2 (getitem_Ok c df)) as [s ->]; [apply Hcs; by left|].
    destruct IH as (ss & -> & Hss); [intros; apply Hcs; by right|].
    eexists. split; [done|]. csimpl. by rewrite Hss. }
  eexists. split; [done|]. done.
Qed.

Lemma project_Raise cs df e :
  project cs df = Raise e → ∃ c, c ∈ cs ∧ (c ∉ columns df) ∧ e = KeyError c.
Proof.
  unfold project.
  destruct (mapR (λ c, s ← getitem c df; mret (c, s)) cs) as [ss|e'] eqn:E; [done|].
  cbn. intros [= ->]. induction cs as [|c cs IH]; [done|]. cbn [mapR] in E.
  destruct (getitem c df) as [s|e'] eqn:Ec; cbn in E.
  - destruct (mapR _ cs) as [ss|e'] eqn:E'; cbn in E; [done|]. simplify_eq.
    destruct IH as (c' & ? & ? & ->); [done|]. exists c'. split_and!; [by right|done..].
  - simplify_eq. apply getitem_Raise in Ec as [? ->]. exists c.
    split_and!; [by left|done..].
Qed.

Lemma project_columns cs df r : project cs df = Ok r → columns r = cs.
Proof.
  unfold project.
  destruct (mapR (λ c, s ← getitem c df; mret (c, s)) cs) as [ss|] eqn:E; [|done].
  cbn. intros [= <-]. unfold columns. cbn [cols].
  revert ss E. induction cs as [|c cs IH]; intros ss; cbn [mapR].
  - by intros [= <-].
  - destruct (getitem c df); cbn; [|done].
    destruct (mapR _ cs) as [ss'|]; cbn; [|done]. intros [= <-]. csimpl.
    by rewrite (IH ss').
Qed.

Lemma columns_rename old new df :
  columns (rename old new df)
    = (λ c, if decide (c = old) then new else c) <$> columns df.
Proof.
  unfold columns, rename. cbn [cols]. rewrite <-!list_fmap_compose.
  by apply list_fmap_ext.
Qed.

(** The report is built when the five columns it is made of are there;
    otherwise the [KeyError] of a missing one ends the script. *)
Lemma report_columns_needed csv :
  ((∀ c, c ∈ report_columns → c ∈ columns csv) → ∃ r, (report csv).2 = Ok r) ∧
  (∀ e, (report csv).2 = Raise e →
        ∃ c, c ∈ report_columns ∧ (c ∉ columns csv) ∧ e = KeyError c).
Proof.
  unfold report. cbn [snd]. set (csv' := replace_sentinel csv).
  assert (columns csv' = columns csv) as Hc by apply columns_df_replace.
  assert (∀ r0, columns r0 = report_columns →
            ∃ out, (let r' := rename "Transaction creation date" "Date" r0 in
                    r ← ref r'; backfill r r') = Ok out) as Hrest.
  { intros r0 Hr0. cbn zeta.
    set (r' := rename "Transaction creation date" "Date" r0).
    assert (columns r' = ["Date"; "Type"; "Order number"; "Net amount"; "Item title"])
      as Hr'.
    { unfold r'. by rewrite columns_rename, Hr0. }
    unfold ref, backfill.
    destruct (proj2 (getitem_Ok "Type" r')) as [type ->]; [rewrite Hr'; by_compute|].
    run.
    destruct (proj2 (getitem_Ok "Order number"
                (df_select ((λ c, bool_decide (c = Str "Order")) <$> type) r')))
      as [o ->]; [rewrite columns_df_select, Hr'; by_compute|].
    run.
    destruct (proj2 (getitem_Ok "Item title"
                (df_select ((λ c, bool_decide (c = Str "Order")) <$> type) r')))
      as [t ->]; [rewrite columns_df_select, Hr'; by_compute|].
    run.
    destruct (proj2 (getitem_Ok "Order number" r')) as [o' ->]; [rewrite Hr'; by_compute|].
    run.
    destruct (proj2 (getitem_Ok "Item title" r')) as [t' ->]; [rewrite Hr'; by_compute|].
    run. by eexists. }
  unfold drop_payouts, project_rename. split.
  - intros Hcs. rewrite <-Hc in Hcs.
    destruct (proj2 (getitem_Ok "Type" csv')) as [type ->]; [apply Hcs; by_compute|].
    run.
    destruct (project_Ok report_columns
                (df_select ((λ c, bool_decide (c ≠ Str "Payout")) <$> type) csv'))
      as (r & -> & Hr).
    { intros c ?. rewrite columns_df_select. by apply Hcs. }
    run. by apply Hrest.
  - intros e. destruct (getitem "Type" csv') as [type|e'] eqn:Et; run.
    2: { intros [= ->]. apply getitem_Raise in Et as [Hn ->]. rewrite Hc in Hn.
         exists "Type". split_and!; [by_compute|done..]. }
    destruct (project report_columns _) as [r|e'] eqn:Ep; run.
    2: { intros [= ->]. apply project_Raise in Ep as (c & ? & Hn & ->).
         rewrite columns_df_select, Hc in Hn. by exists c. }
    destruct (Hrest r (project_columns _ _ _ Ep)) as [out Hout].
    cbn zeta in Hout. rewrite Hout. done.
Qed.
End CalculatePayoutLemmas.

(** ** Rows *)

Module Rows.
Import Pandas TableLemmas Hoold HooldLemmas Examples IsoDates.

Lemma project_nrows cs df r : project cs df = Ok r → nrows r = nrows df.
Proof.
  unfold project. destruct (mapR _ cs); simpl; [|done]. by intros [= <-].
Qed.

Lemma project_rename_nrows report report' :
  CalculatePayout.project_rename report = Ok report' → nrows report' = nrows report.
Proof.
  unfold CalculatePayout.project_rename.
  destruct (project _ report) as [r|] eqn:E; simpl; [|done].
  intros [= <-]. simpl. by eapply project_nrows.
Qed.

Lemma backfill_frame ref report report' :
  CalculatePayout.backfill ref report = Ok report' →
  nrows report' = nrows report ∧
  ∀ c, c ≠ "Item title" → getitem c report' = getitem c report.
Proof.
  unfold CalculatePayout.backfill.
  destruct (getitem "Order number" report); simpl; [|done].
  destruct (getitem "Item title" report); simpl; [|done].
  intros [= <-]. split; [done|]. intros c ?. by apply getitem_setitem_ne.
Qed.

Lemma field_fmap (f : cell → cell) c df df' i s :
  i < length s →
  getitem c df = Ok s → getitem c df' = Ok (f <$> s) →
  field c (row df' i) = f <$> field c (row df i).
Proof.
  rewrite !field_row, !getitem_assoc. intros Hi.
  destruct (assoc_get c (cols df')) as [s'|], (assoc_get c (cols df)) as [s0|];
    intros [= ->] [= ->]. cbn [fmap option_fmap option_map].
  rewrite list_lookup_fmap. by destruct (lookup_lt_is_Some_2 s i Hi) as [x ->].
Qed.


End Rows.

(** ** gen_dash_app_1.py: what [parse_contents] changes *)

Module Frame.
Import Pandas TableLemmas GenDash GenDashLemmas Examples IsoDates.
Import Hoold (resolved_titles).

Lemma gen_dash_rewrites_metadata :
  ∃ out, (parse_contents orders_report).1 = Some out ∧
    getitem "Buyer name" orders_report = Ok [Str "bob"; NaN] ∧
    getitem "Buyer name" out = Ok [Str "bob"; Str "--"] ∧
    getitem "Order creation date" orders_report
      = Ok [Str "2024-01-05"; Str "2024-01-06"] ∧
    getitem "Order creation date" out
      = Ok [Str "2024-01-05 00:00:00"; Str "2024-01-06 00:00:00"] ∧
    columns out = columns orders_report ++ ["Total Fees"] ∧
    ¬ ((∀ c, c ∉ "Item title" :: numeric_columns →
             getitem c out = getitem c orders_report) ∧
       columns out = columns orders_report).
Proof.
  eexists. split; [vm_compute; reflexivity|].
  split_and!; try (vm_compute; reflexivity).
  intros [Hframe _].
  specialize (Hframe "Buyer name" ltac:(by_compute)).
  vm_compute in Hframe. discriminate.
Qed.

(** C4 (amended). When [parse_contents] of gen_dash_app_1.py loads a
    table, the result has the same number of rows and the same columns
    in the same order, with the one column Total Fees added at the end
    when the table had none. The date column holds the dates read and
    printed again; the title column holds the resolved titles; every
    numeric column that is present is coerced, absent values becoming
    0; in the nine columns filled for display the absent cells become
    [--] and the other cells stay; Total Fees holds the row-wise sum of
    the eight fee columns; every other column is as it was. *)
Theorem gen_dash_frame `{DateParser} (df out : DataFrame) (msg : message) :
  parse_contents df = (Some out, msg) →
  nrows out = nrows df ∧
  columns out = (if decide ("Total Fees" ∈ columns df) then columns df
                 else columns df ++ ["Total Fees"]) ∧
  (∀ c, c ∉ written_columns → getitem c out = getitem c df) ∧
  (∀ c, c ∈ filled_columns →
     getitem c out = s ← getitem c df; mret (fillna (Str "--") s)) ∧
  (∀ c, c ∈ numeric_columns →
     getitem c out = s ← getitem c df; mret (coerced s)) ∧
  ∃ date date' title orders fees,
    getitem "Order creation date" df = Ok date ∧
    to_datetime date = Ok date' ∧
    getitem "Item title" df = Ok title ∧
    getitem "Order number" df = Ok orders ∧
    mapR (λ c, s ← getitem c df; mret (coerced s)) fee_columns = Ok fees ∧
    getitem "Order creation date" out = Ok (dt_strftime date') ∧
    getitem "Item title" out = Ok (resolved_titles orders title) ∧
    getitem "Total Fees" out = Ok (sum_axis1 (nrows df) fees).
Proof.
  unfold parse_contents.
  destruct (parse_contents_try df) as [out'|] eqn:E; intros [= <- _].
  destruct (gen_dash_try_Ok df out' E)
    as (date & date' & title & orders & fees & Ed & Ed' & Et & Eo & Ef &
        Hn & Hc & Hd & Ht & Htot & Hnumeric & Hfilled & Hfin & Hother).
  split_and!; try done. by exists date, date', title, orders, fees.
Qed.

Lemma gen_dash_frame_witness :
  ∃ out, parse_contents orders_report = (Some out, Successfully_loaded) ∧
    nrows out = nrows orders_report ∧
    getitem "Buyer username" out = getitem "Buyer username" orders_report.
Proof.
  destruct (parse_contents orders_report) as [[out|] msg] eqn:E.
  2: { vm_compute in E. discriminate. }
  assert (msg = Successfully_loaded) as ->.
  { pose proof E as E'. vm_compute in E'. congruence. }
  exists out. split; [reflexivity|].
  destruct (gen_dash_frame orders_report out _ E) as (Hn & _ & Hother & _).
  split; [exact Hn|]. apply Hother. by_compute.
Defined.
End Frame.

(** ** Failures *)

Module Failures.
Import Pandas TableLemmas GenDash GenDashLemmas CalculatePayoutLemmas.
Import Examples IsoDates.


Lemma mapR_coerced_Ok df cs fees :
  mapR (λ c, s ← getitem c df; mret (coerced s)) cs = Ok fees →
  ∀ c, c ∈ cs → c ∈ columns df.
Proof.
  revert fees. induction cs as [|c cs IH]; intros fees; cbn [mapR].
  - by intros _ c ?%elem_of_nil.
  - destruct (getitem c df) as [s|] eqn:E; run; [|done].
    destruct (mapR _ cs) eqn:E'; run; [|done]. intros _ c' [->|?]%elem_of_cons.
    + apply getitem_Ok. eauto.
    + by eapply IH.
Qed.

End Failures.

(** ** A second pass *)

Module Idempotence.
Import Pandas TableLemmas ReprLemmas SumLemmas.
Import HooldLemmas HooldIdempotence GenDashLemmas GenDashIdempotence.
Import Examples IsoDates.

Lemma second_pass_differs :
  (∃ out out',
      (Hoold.parse_contents tiny_amount).1 = Some out ∧
      (Hoold.parse_contents out).1 = Some out' ∧
      getitem "Net amount" out = Ok [Num (Dec 1 5)] ∧
      getitem "Net amount" out' = Ok [NaN]) ∧
  (∃ out out',
      (GenDash.parse_contents no_order_numbers).1 = Some out ∧
      (GenDash.parse_contents out).1 = Some out' ∧
      getitem "Item title" out = Ok [Str "Widget A"; Str "Widget B"] ∧
      getitem "Item title" out' = Ok [Str "Widget A"; Str "Widget A"]).
Proof.
  split; eexists _, _.
  - split; [vm_compute; reflexivity|].
    split; [vm_compute; reflexivity|].
    split; vm_compute; reflexivity.
  - split; [vm_compute; reflexivity|].
    split; [vm_compute; reflexivity|].
    split; vm_compute; reflexivity.
Qed.

(** A cell that coercion has produced is read back as it is when the
    number in it, if any, prints in positional notation. *)
Lemma coerce_positional_reread c :
  (∀ x, coerce c = Num x → positional x) → reread (coerce c).
Proof.
  intros Hpos. unfold reread. destruct (coerce c) as [| |x|] eqn:E; try done.
  - unfold coerce, to_numeric in E. by destruct (parse_number _).
  - apply coerce_positional; [|by apply Hpos].
    unfold coerce, to_numeric in E.
    destruct (parse_number _) as [d|] eqn:Ep; simplify_eq.
    unfold parse_number in Ep. repeat case_match; simplify_eq;
      apply dec_norm_go_canonical.
  - unfold coerce, to_numeric in E. by destruct (parse_number _).
Qed.

Lemma coerce_series_reread (s : Series) :
  (∀ x, Num x ∈ coerce <$> s → positional x) → Forall reread (coerce <$> s).
Proof.
  intros Hpos. apply Forall_fmap, Forall_forall. intros c Hc.
  apply coerce_positional_reread. intros x Hx. apply Hpos.
  rewrite <-Hx. apply list_elem_of_fmap. by exists c.
Qed.

Lemma coerced_series_reread (s : Series) :
  (∀ x, Num x ∈ GenDash.coerced s → positional x) →
  Forall reread (GenDash.coerced s).
Proof.
  intros Hpos. unfold GenDash.coerced, fillna in *.
  apply Forall_fmap, Forall_fmap, Forall_forall. intros c Hc. cbn.
  unfold isna. case_bool_decide as Hna.
  - by vm_compute.
  - apply coerce_positional_reread. intros x Hx. apply Hpos.
    apply list_elem_of_fmap. exists (coerce c). split.
    + unfold isna. by rewrite bool_decide_eq_false_2.
    + apply list_elem_of_fmap. by exists c.
Qed.

(** C6 (amended). A second pass of [parse_contents] over a table that
    it has loaded returns that table again, in hoold.py when every
    amount of the table prints in positional notation (it is zero or at
    least 0.0001 and below 1e16 in magnitude), and in gen_dash_app_1.py
    when moreover every row of the input has an order number and the
    dates that the first pass has printed are read back to the same
    second. *)
Theorem normalize_idempotent `{DateParser} :
  (∀ df out msg,
     wf df →
     Hoold.parse_contents df = (Some out, msg) →
     (∀ net x, getitem "Net amount" out = Ok net → Num x ∈ net → positional x) →
     Hoold.parse_contents out = (Some out, msg)) ∧
  (∀ df out msg,
     wf df →
     GenDash.parse_contents df = (Some out, msg) →
     (∀ c s x, c ∈ GenDash.numeric_columns → getitem c out = Ok s →
               Num x ∈ s → positional x) →
     (∀ orders, getitem "Order number" df = Ok orders → NaN ∉ orders) →
     (∀ date t, getitem "Order creation date" out = Ok date → Str t ∈ date →
                ∃ t', parse_datetime t = Some (Some t') ∧ strftime t' = t) →
     GenDash.parse_contents out = (Some out, msg)).
Proof.
  split.
  - intros df out msg Hwf Hp Hpos. unfold Hoold.parse_contents in *.
    destruct (Hoold.parse_contents_try df) as [out'|] eqn:E; simplify_eq.
    rewrite (hoold_try_idem df out Hwf E); [done|].
    intros net Hnet.
    destruct (hoold_try_Ok df out E)
      as (date & date' & net0 & title & orders &
          _ & _ & _ & _ & _ & _ & _ & _ & Hn' & _).
    rewrite Hn' in Hnet. injection Hnet as <-.
    apply coerce_series_reread. intros x. by apply Hpos.
  - intros df out msg Hwf Hp Hpos Hord Hdate. unfold GenDash.parse_contents in *.
    destruct (GenDash.parse_contents_try df) as [out'|] eqn:E; simplify_eq.
    unfold GenDash.parse_contents_try in *.
    rewrite (try_with_idem GenDash.numeric_columns GenDash.filled_columns
               GenDash.fee_columns) with (df := df); try done;
      try first [by_compute | apply Forall_forall; by_compute].
    intros c s Hc Hs.
    destruct (gen_dash_try_Ok df out E)
      as (date & date' & title & orders & fees & _ & _ & _ & _ & _ &
          _ & _ & _ & _ & _ & Hnumeric & _).
    pose proof Hs as Hs'. rewrite Hnumeric in Hs' by done.
    destruct (getitem c df) as [s0|]; cbn in Hs'; [|done].
    injection Hs' as <-. apply coerced_series_reread. intros x. by apply (Hpos c).
Qed.

Lemma all_positional (df : DataFrame) :
  Forall (λ cs, Forall (λ c, match c with Num x => positional x | _ => True end)
                  cs.2) (cols df) →
  ∀ c s x, getitem c df = Ok s → Num x ∈ s → positional x.
Proof.
  intros Hall c s x Hs Hx. unfold getitem in Hs.
  destruct (assoc_get c (cols df)) as [s'|] eqn:E; simplify_eq.
  pose proof (assoc_get_Forall _ _ _ _ Hall E) as Hcs. cbn in Hcs.
  rewrite Forall_forall in Hcs. by apply (Hcs (Num x)).
Qed.

Ltac cell_positional :=
  first [exact I | left; reflexivity | right; vm_compute; by split].
Ltac cells_positional :=
  repeat first [apply Forall_nil_2 | apply Forall_cons_2; [cell_positional|]].
Ltac columns_positional :=
  repeat first [apply Forall_nil_2
               | apply Forall_cons_2; [cbn [snd]; cells_positional|]].

Lemma normalize_idempotent_witness :
  (∃ out, Hoold.parse_contents two_orders = (Some out, Hoold.Successfully_loaded) ∧
          Hoold.parse_contents out = (Some out, Hoold.Successfully_loaded)) ∧
  (∃ out, GenDash.parse_contents orders_report = (Some out, Hoold.Successfully_loaded) ∧
          GenDash.parse_contents out = (Some out, Hoold.Successfully_loaded)).
Proof.
  split.
  - destruct (Hoold.parse_contents two_orders) as [[out|] msg] eqn:E.
    2: { vm_compute in E. discriminate. }
    pose proof E as E'. vm_compute in E'. injection E' as <- <-.
    eexists. split; [reflexivity|].
    apply (proj1 normalize_idempotent two_orders); [repeat constructor|exact E|].
    intros net x. apply all_positional.
    columns_positional.
  - destruct (GenDash.parse_contents orders_report) as [[out|] msg] eqn:E.
    2: { vm_compute in E. discriminate. }
    pose proof E as E'. vm_compute in E'. injection E' as <- <-.
    eexists. split; [reflexivity|].
    apply (proj2 normalize_idempotent orders_report); [repeat constructor|exact E|..].
    + intros c s x _. apply all_positional.
      columns_positional.
    + intros orders [= <-]. by_compute.
    + intros date t [= <-] Ht.
      apply elem_of_cons in Ht as [[= ->]|Ht];
        [eexists; split; vm_compute; reflexivity|].
      apply elem_of_cons in Ht as [[= ->]|Ht];
        [eexists; split; vm_compute; reflexivity|].
      exfalso. exact (not_elem_of_nil _ Ht).
Defined.
End Idempotence.

Module ColumnNames.
Import PyStr SqlQuery Identifiers Names.

Lemma map_chars_app f s t : map_chars f (s +:+ t) = map_chars f s +:+ map_chars f t.
Proof.
  induction s as [|c s IH]; [done|].
  change (String (f c) (map_chars f (s +:+ t))
          = String (f c) (map_chars f s +:+ map_chars f t)).
  by rewrite IH.
Qed.

Lemma map_chars_id f s : all_chars (λ c, bool_decide (f c = c)) s → map_chars f s = s.
Proof.
  induction s as [|c s IH]; simpl; [done|].
  rewrite andb_True. intros [Hc%bool_decide_unpack Hs]. by rewrite Hc, IH.
Qed.

Lemma word_char_cases c :
  word_char c → is_space c = false ∧ lower_char c = c ∧
    (if is_lower c || is_digit c || is_space c then c else " "%char) = c.
Proof.
  destruct c as [[] [] [] [] [] [] [] []]; vm_compute; intuition.
Qed.

Lemma lower_word s : all_chars word_char s → lower s = s.
Proof.
  intros Hs. apply map_chars_id. eapply all_chars_impl, Hs.
  intros c Hc. apply bool_decide_pack. by apply word_char_cases.
Qed.

Lemma sub_special_word s : all_chars word_char s → sub_special s = s.
Proof.
  intros Hs. apply map_chars_id. eapply all_chars_impl, Hs.
  intros c Hc. apply bool_decide_pack. by apply word_char_cases.
Qed.

(** Lowering and substituting turn the underscores between words into
    spaces and leave the words. *)
Lemma sub_special_lower_join ws :
  Forall word ws → sub_special (lower (join "_" ws)) = join " " ws.
Proof.
  induction 1 as [|w ws [_ Hw] Hws IH]; [done|].
  destruct ws as [|w' ws].
  - simpl. by rewrite lower_word, sub_special_word.
  - change (join "_" (w :: w' :: ws)) with (w +:+ "_" +:+ join "_" (w' :: ws)).
    change (join " " (w :: w' :: ws)) with (w +:+ " " +:+ join " " (w' :: ws)).
    unfold lower, sub_special in *. rewrite !map_chars_app, IH.
    fold lower sub_special. by rewrite lower_word, sub_special_word.
Qed.

Lemma squeeze_word b w s :
  word w → squeeze b (w +:+ s) = w +:+ squeeze false s.
Proof.
  intros [Hne Hw]. revert b. induction w as [|c w IH]; intros b; [done|].
  simpl in Hw. apply andb_True in Hw as [Hc Hw].
  change (String c w +:+ s) with (String c (w +:+ s)). simpl.
  destruct (word_char_cases c Hc) as (-> & _).
  change (String c w +:+ squeeze false s) with (String c (w +:+ squeeze false s)).
  f_equal. destruct w as [|c' w]; [done|]. by apply IH.
Qed.

Lemma string_app_empty_r s : s +:+ "" = s.
Proof.
  induction s as [|c s IH]; [done|].
  change (String c (s +:+ "") = String c s). by rewrite IH.
Qed.

Lemma squeeze_join b ws :
  Forall word ws → ws ≠ [] → squeeze b (join " " ws) = join " " ws.
Proof.
  intros Hws. revert b. induction Hws as [|w ws Hw Hws IH]; intros b Hne; [done|].
  destruct ws as [|w' ws].
  - simpl. rewrite <-(string_app_empty_r w) at 1.
    rewrite squeeze_word by done. simpl. apply string_app_empty_r.
  - change (join " " (w :: w' :: ws)) with (w +:+ String " " (join " " (w' :: ws))).
    rewrite squeeze_word by done. f_equal.
    change (String " " (squeeze true (join " " (w' :: ws)))
            = String " " (join " " (w' :: ws))).
    f_equal. by apply IH.
Qed.

Lemma split_go_word cur w s :
  all_chars word_char w →
  split_go cur (w +:+ s) = split_go (rev (String.list_ascii_of_string w) ++ cur) s.
Proof.
  revert cur. induction w as [|c w IH]; intros cur Hw; [done|].
  simpl in Hw. apply andb_True in Hw as [Hc Hw].
  change (String c w +:+ s) with (String c (w +:+ s)).
  cbn [split_go]. destruct (word_char_cases c Hc) as (-> & _).
  rewrite IH by done. simpl. by rewrite <-app_assoc.
Qed.

Lemma split_join ws : Forall word ws → split (join " " ws) = ws.
Proof.
  unfold split. induction 1 as [|w ws Hw Hws IH]; [done|].
  assert (String.list_ascii_of_string w ≠ []) as Hne.
  { destruct Hw as [Hne _]. by destruct w. }
  destruct ws as [|w' ws].
  - simpl. rewrite <-(string_app_empty_r w) at 1.
    rewrite split_go_word by apply Hw. simpl.
    rewrite app_nil_r, rev_involutive, String.string_of_list_ascii_of_string.
    destruct (rev _) eqn:E; [|done].
    apply (f_equal (@rev _)) in E. by rewrite rev_involutive in E.
  - change (join " " (w :: w' :: ws)) with (w +:+ String " " (join " " (w' :: ws))).
    rewrite split_go_word by apply Hw. cbn [split_go].
    change (is_space " ") with true. cbn iota.
    rewrite app_nil_r, rev_involutive, String.string_of_list_ascii_of_string, IH.
    destruct (rev _) eqn:E; [|done].
    apply (f_equal (@rev _)) in E. by rewrite rev_involutive in E.
Qed.

(** The words of a name that is made of words joined by underscores. *)
Lemma words_of_join ws :
  Forall word ws → ws ≠ [] →
  split (squeeze false (sub_special (lower (join "_" ws)))) = ws.
Proof.
  intros Hws Hne. by rewrite sub_special_lower_join, squeeze_join, split_join.
Qed.

Lemma filter_id {A} (P : A → Prop) `{∀ x, Decision (P x)} (l : list A) :
  Forall P l → filter P l = l.
Proof.
  induction 1 as [|x l Hx Hl IH]; [done|].
  rewrite filter_cons_True by done. by rewrite IH.
Qed.

Lemma clean_column_name_join ws :
  Forall word ws → Forall (λ w, w ∉ filler_words) ws → ws ≠ [] →
  clean_column_name (join "_" ws) = named ws.
Proof.
  intros Hws Hfill Hne. unfold clean_column_name.
  rewrite words_of_join, filter_id by done.
  by destruct ws.
Qed.

Lemma clean_column_name_words column :
  clean_column_name column = "column" ∨
  ∃ ws, Forall word ws ∧ Forall (λ w, w ∉ filler_words) ws ∧ ws ≠ [] ∧
        clean_column_name column = named ws.
Proof.
  unfold clean_column_name.
  pose proof (split_go_words [] (squeeze false (sub_special (lower column)))
                I (squeeze_spaced _ _ (sub_special_spaced _))) as Hws.
  fold (split (squeeze false (sub_special (lower column)))) in Hws.
  set (words := split _) in *.
  destruct (filter _ words) as [|w ws] eqn:E; [by left|right].
  exists (w :: ws). rewrite <-E. split_and!.
  - rewrite Forall_forall in *. intros x [_ Hx]%list_elem_of_filter. auto.
  - apply Forall_forall. by intros x [Hx _]%list_elem_of_filter.
  - by rewrite E.
  - by rewrite E.
Qed.

(** X1. Cleaning a cleaned name gives it back. *)
Theorem clean_column_name_idempotent (column : string) :
  clean_column_name (clean_column_name column) = clean_column_name column.
Proof.
  destruct (clean_column_name_words column) as [->|(ws & Hws & Hfill & Hne & ->)];
    [by vm_compute|].
  destruct ws as [|w ws]; [done|].
  destruct (join_first w ws) as (c & r & Hj & Hc);
    [by apply Forall_cons_1 in Hws as [? _]|].
  unfold named. rewrite Hj. destruct (isalpha c) eqn:Ha.
  - rewrite <-Hj, clean_column_name_join by done.
    unfold named. by rewrite Hj, Ha.
  - rewrite <-Hj.
    change ("col_" +:+ join "_" (w :: ws)) with (join "_" ("col" :: w :: ws)).
    rewrite clean_column_name_join; [done| | |done].
    + constructor; [by split|done].
    + constructor; [by_compute|done].
Qed.

(** *** Names without letters or digits *)

Lemma symbol_cases c :
  negb (isalpha c) && negb (is_digit c) →
  is_space (if is_lower (lower_char c) || is_digit (lower_char c) || is_space (lower_char c)
            then lower_char c else " "%char).
Proof.
  destruct c as [[] [] [] [] [] [] [] []]; vm_compute; intuition.
Qed.

Lemma sub_special_lower_symbols s :
  all_chars (λ c, negb (isalpha c) && negb (is_digit c)) s →
  all_chars is_space (sub_special (lower s)).
Proof.
  induction s as [|c s IH]; simpl; [done|].
  intros [Hc Hs]%andb_True. apply andb_True. split; [|by apply IH].
  by apply symbol_cases.
Qed.

Lemma squeeze_spaces b s : all_chars is_space s → all_chars is_space (squeeze b s).
Proof.
  revert b. induction s as [|c s IH]; intros b; simpl; [done|].
  rewrite andb_True. intros [Hc Hs]. destruct (is_space c) eqn:E; [|done].
  destruct b; simpl; rewrite ?andb_True; auto.
Qed.

Lemma split_spaces s : all_chars is_space s → split_go [] s = [].
Proof.
  induction s as [|c s IH]; simpl; [done|].
  rewrite andb_True. intros [Hc Hs]. destruct (is_space c); [|done]. by apply IH.
Qed.

(** X2. A column name without any letter or digit, the empty name
    included, is cleaned to [column]. *)
Theorem clean_column_name_without_words (column : string) :
  all_chars (λ c, negb (isalpha c) && negb (is_digit c)) column →
  clean_column_name column = "column".
Proof.
  intros Hsym. unfold clean_column_name, split.
  by rewrite split_spaces
    by apply squeeze_spaces, sub_special_lower_symbols, Hsym.
Qed.

Lemma clean_column_name_without_words_witness :
  clean_column_name "$ (%) #" = "column".
Proof. apply clean_column_name_without_words. by vm_compute. Defined.

(** *** The loop of [clean_column_names] *)

Lemma unique_name_free fuel new_names base_name clean_name counter :
  clean_name ∉ new_names →
  unique_name fuel new_names base_name clean_name counter = Some clean_name.
Proof. intros Hfree. destruct fuel; simpl; by rewrite bool_decide_eq_false_2. Qed.

(** What the loop adds to [new_names] and to [original_names]: one name
    for every column, found by the inner loop from the names before it. *)
Lemma clean_loop_spec cs new_names original_names :
  ∃ added,
    foldl clean_step (Some (new_names, original_names)) cs
      = Some (new_names ++ added,
              foldl (λ m nc, <[nc.1 := nc.2]> m) original_names (zip added cs)) ∧
    length added = length cs ∧
    ∀ i col, cs !! i = Some col →
      ∃ name, added !! i = Some name ∧
        unique_name (length (new_names ++ take i added)) (new_names ++ take i added)
          (clean_column_name col) (clean_column_name col) 1 = Some name.
Proof.
  revert new_names original_names.
  induction cs as [|col cs IH]; intros new_names original_names.
  - exists []. rewrite app_nil_r. by split_and!.
  - destruct (unique_name_total new_names (clean_column_name col)) as [name E].
    destruct (IH (new_names ++ [name]) (<[name := col]> original_names))
      as (added & Eloop & Hlen & Hadded).
    exists (name :: added). split_and!.
    + cbn [foldl]. unfold clean_step at 2. cbn [mbind option_bind].
      rewrite E. cbn [mbind option_bind].
      rewrite Eloop. by rewrite <-app_assoc.
    + simpl. by rewrite Hlen.
    + intros [|i] c Hc.
      * injection Hc as <-. exists name. split; [done|].
        simpl. by rewrite app_nil_r.
      * destruct (Hadded i c Hc) as (n & Hn & Hu). exists n. split; [done|].
        simpl. by rewrite <-app_assoc in Hu.
Qed.

Lemma foldl_insert_notin (m : gmap string string) (l : list (string * string)) k :
  k ∉ l.*1 → foldl (λ m nc, <[nc.1 := nc.2]> m) m l !! k = m !! k.
Proof.
  revert m. induction l as [|[n c] l IH]; intros m Hk; [done|].
  simpl in *. apply not_elem_of_cons in Hk as [Hne Hk].
  rewrite IH by done. by rewrite lookup_insert_ne.
Qed.

Lemma foldl_insert_lookup (m : gmap string string) (ns cs : list string) i n :
  NoDup ns → length ns = length cs → ns !! i = Some n →
  foldl (λ m nc, <[nc.1 := nc.2]> m) m (zip ns cs) !! n = cs !! i.
Proof.
  revert m cs i. induction ns as [|n' ns IH]; intros m [|c cs] i Hnd Hlen Hi;
    try done.
  apply NoDup_cons in Hnd as [Hn' Hnd]. simpl in Hlen.
  destruct i as [|i]; simpl in *.
  - injection Hi as ->. rewrite foldl_insert_notin.
    + by rewrite lookup_insert_eq.
    + rewrite fst_zip by lia. done.
  - apply IH; [done|lia|done].
Qed.

Lemma foldl_insert_dom (m : gmap string string) (l : list (string * string)) k :
  is_Some (foldl (λ m nc, <[nc.1 := nc.2]> m) m l !! k) → k ∈ l.*1 ∨ is_Some (m !! k).
Proof.
  revert m. induction l as [|[n c] l IH]; intros m Hk; [by right|].
  simpl in *. apply IH in Hk as [Hk|Hk].
  - left. by right.
  - destruct (decide (n = k)) as [->|Hne].
    + left. by left.
    + right. by rewrite lookup_insert_ne in Hk.
Qed.

Lemma clean_column_names_spec df :
  ∃ names,
    clean_column_names df
      = Some (DF (nrows df) (zip names (cols df).*2),
              foldl (λ m nc, <[nc.1 := nc.2]> m) ∅ (zip names (columns df))) ∧
    length names = length (columns df) ∧
    ∀ i col, columns df !! i = Some col →
      ∃ name, names !! i = Some name ∧
        unique_name (length (take i names)) (take i names)
          (clean_column_name col) (clean_column_name col) 1 = Some name.
Proof.
  destruct (clean_loop_spec (columns df) [] ∅) as (names & E & Hlen & Hnames).
  exists names. unfold clean_column_names. rewrite E. by split_and!.
Qed.

Lemma columns_zip (names : list string) df :
  length names = length (columns df) →
  columns (DF (nrows df) (zip names (cols df).*2)) = names.
Proof.
  intros Hlen. unfold columns in *. simpl.
  rewrite length_fmap in Hlen. rewrite fst_zip; [done|]. rewrite length_fmap. lia.
Qed.

Lemma names_NoDup (names cs : list string) :
  length names = length cs →
  (∀ i col, cs !! i = Some col →
     ∃ name, names !! i = Some name ∧
       unique_name (length (take i names)) (take i names)
         (clean_column_name col) (clean_column_name col) 1 = Some name) →
  NoDup names.
Proof.
  intros Hlen Hnames. apply NoDup_alt. intros i j n Hi Hj.
  assert (∀ i j, i < j → names !! i = Some n → names !! j = Some n → False) as Hlt.
  { clear i j Hi Hj. intros i j Hij Hi Hj.
    destruct (cs !! j) as [col|] eqn:Hc.
    - destruct (Hnames j col Hc) as (n' & Hn' & Hu). simplify_eq.
      apply unique_name_fresh in Hu. apply Hu.
      apply list_elem_of_lookup. exists i. by rewrite lookup_take_lt.
    - apply lookup_ge_None in Hc. apply lookup_lt_Some in Hj. lia. }
  destruct (Nat.lt_total i j) as [?|[?|?]]; [|done|]; exfalso; eauto.
Qed.

(** X3. The mapping that [clean_column_names] returns leads from every
    new column name back to the name the column had, and holds nothing
    else. *)
Theorem original_names_round_trip (df : DataFrame) :
  ∃ df' original_names,
    clean_column_names df = Some (df', original_names) ∧
    (∀ i name, columns df' !! i = Some name →
       original_names !! name = columns df !! i) ∧
    (∀ name, is_Some (original_names !! name) ↔ name ∈ columns df').
Proof.
  destruct (clean_column_names_spec df) as (names & -> & Hlen & Hnames).
  eexists _, _. split; [done|]. rewrite columns_zip by done.
  pose proof (names_NoDup _ _ Hlen Hnames) as Hnd. split.
  - intros i n Hi. by apply foldl_insert_lookup.
  - intros n. split.
    + intros [Hn|Hn]%foldl_insert_dom.
      * rewrite fst_zip in Hn by lia. done.
      * rewrite lookup_empty in Hn. by destruct Hn.
    + intros (i & Hi)%list_elem_of_lookup.
      rewrite (foldl_insert_lookup _ _ _ i) by done.
      apply lookup_lt_is_Some. rewrite <-Hlen. by eapply lookup_lt_Some.
Qed.

(** X4. Every column gets its cleaned name, or its cleaned name with
    [_k] appended for some [k] from 1 on; it gets the cleaned name itself
    exactly when no column before it has got that name. When the cleaned
    names are pairwise distinct, they are the new names. *)
Theorem clean_column_names_suffixes (df : DataFrame) :
  ∃ df' original_names,
    clean_column_names df = Some (df', original_names) ∧
    (∀ i col, columns df !! i = Some col →
       ∃ name, columns df' !! i = Some name ∧
         (name = clean_column_name col ∨
          ∃ k, 1 ≤ k ∧ name = candidate (clean_column_name col) k) ∧
         (name = clean_column_name col ↔
          clean_column_name col ∉ take i (columns df'))) ∧
    (NoDup (clean_column_name <$> columns df) →
     columns df' = clean_column_name <$> columns df).
Proof.
  destruct (clean_column_names_spec df) as (names & -> & Hlen & Hnames).
  eexists _, _. split; [done|]. rewrite columns_zip by done.
  assert (∀ i col, columns df !! i = Some col →
       ∃ name, names !! i = Some name ∧
         (name = clean_column_name col ∨
          ∃ k, 1 ≤ k ∧ name = candidate (clean_column_name col) k) ∧
         (name = clean_column_name col ↔
          clean_column_name col ∉ take i names)) as Hshape.
  { intros i col Hcol. destruct (Hnames i col Hcol) as (name & Hname & Hu).
    exists name. split; [done|].
    destruct (decide (clean_column_name col ∈ take i names)) as [Hin|Hfree].
    - split.
      + right. clear Hname. revert Hu. generalize (length (take i names)).
        intros fuel. destruct fuel as [|fuel]; simpl;
          rewrite bool_decide_eq_true_2 by done; [done|].
        assert (1 ≤ 1) as Hk by lia. revert Hk. generalize 1 at 2 3 4.
        induction fuel as [|fuel IH]; intros k Hk; simpl;
          case_bool_decide; intros Hu; simplify_eq; eauto.
      + split; [|done]. intros ->. by apply unique_name_fresh in Hu.
    - rewrite unique_name_free in Hu by done. injection Hu as <-. by split; [left|]. }
  split; [done|]. intros Hnd.
  apply list_eq. intros i. rewrite list_lookup_fmap.
  destruct (columns df !! i) as [col|] eqn:Hcol; simpl.
  - revert col Hcol. induction (lt_wf i) as [i _ IH]. intros col Hcol.
    destruct (Hshape i col Hcol) as (name & Hname & _ & Hkept).
    rewrite Hname. f_equal. apply Hkept.
    intros (j & Hj)%list_elem_of_lookup.
    apply lookup_take_Some in Hj as [Hj Hji].
    destruct (columns df !! j) as [col'|] eqn:Hcol'.
    + rewrite (IH j Hji col' Hcol') in Hj. injection Hj as Hj.
      assert (i = j); [|lia].
      eapply NoDup_lookup; [exact Hnd|..]; rewrite list_lookup_fmap.
      * by rewrite Hcol.
      * rewrite Hcol'. simpl. by rewrite Hj.
    + apply lookup_ge_None in Hcol'. apply lookup_lt_Some in Hcol. lia.
  - apply lookup_ge_None. apply lookup_ge_None in Hcol. lia.
Qed.

(** *** Columns that all clean to one name *)

Lemma numbered_S base_name k :
  numbered base_name (S k)
  = numbered base_name k ++ [match k with 0 => base_name | _ => candidate base_name k end].
Proof. unfold numbered. by rewrite seq_S, fmap_app. Qed.

Lemma candidate_numbered base_name j k :
  candidate base_name j ∈ numbered base_name k ↔ 1 ≤ j < k.
Proof.
  unfold numbered. rewrite list_elem_of_fmap. split.
  - intros ([|i] & Heq & Hi%elem_of_seq).
    + by apply candidate_ne_base in Heq.
    + apply candidate_inj in Heq as ->. lia.
  - intros Hj. exists j. split; [by destruct j; [lia|]|]. apply elem_of_seq. lia.
Qed.

Lemma unique_name_numbered base_name k d j fuel :
  1 ≤ j → j + d = k → d ≤ fuel →
  unique_name fuel (numbered base_name k) base_name (candidate base_name j) (S j)
    = Some (candidate base_name k).
Proof.
  revert j fuel. induction d as [|d IH]; intros j fuel Hj Hk Hfuel.
  - replace j with k by lia. apply unique_name_free.
    rewrite candidate_numbered. lia.
  - destruct fuel as [|fuel]; [lia|]. simpl.
    rewrite bool_decide_eq_true_2 by (apply candidate_numbered; lia).
    apply IH; lia.
Qed.

Lemma clean_loop_numbered base_name cs k original_names :
  Forall (λ col, clean_column_name col = base_name) cs →
  ∃ original_names',
    foldl clean_step (Some (numbered base_name k, original_names)) cs
      = Some (numbered base_name (k + length cs), original_names').
Proof.
  intros Hcs. revert k original_names.
  induction Hcs as [|col cs Hcol Hcs IH]; intros k original_names.
  - rewrite Nat.add_0_r. by eexists.
  - cbn [foldl]. unfold clean_step at 2. cbn [mbind option_bind]. rewrite Hcol.
    assert (unique_name (length (numbered base_name k)) (numbered base_name k)
              base_name base_name 1
            = Some (match k with 0 => base_name | _ => candidate base_name k end))
      as ->.
    { destruct k as [|k]; [done|].
      unfold numbered at 1. rewrite length_fmap, length_seq. simpl.
      rewrite bool_decide_eq_true_2.
      - apply (unique_name_numbered base_name (S k) k); lia.
      - unfold numbered. simpl. by left. }
    cbn [mbind option_bind]. rewrite <-numbered_S.
    destruct (IH (S k) (<[match k with 0 => base_name | _ => candidate base_name k end
                          := col]> original_names)) as [m E].
    rewrite E. exists m. do 2 f_equal. simpl. f_equal. lia.
Qed.

(** X5. Columns that all clean to one name are numbered in their order:
    the first keeps the name, the others get [_1], [_2], ... *)
Theorem clean_column_names_numbers_duplicates (df : DataFrame) (base_name : string) :
  Forall (λ col, clean_column_name col = base_name) (columns df) →
  ∃ df' original_names,
    clean_column_names df = Some (df', original_names) ∧
    columns df' =
      (λ i, match i with 0 => base_name | _ => candidate base_name i end)
        <$> seq 0 (length (columns df)).
Proof.
  intros Hcs.
  destruct (clean_loop_numbered base_name (columns df) 0 ∅ Hcs) as [m E].
  unfold clean_column_names. change (@nil string) with (numbered base_name 0).
  rewrite E. cbn [mbind option_bind]. eexists _, _. split; [done|].
  rewrite columns_zip; [done|].
  unfold numbered. by rewrite length_fmap, length_seq.
Qed.

Lemma clean_column_names_numbers_duplicates_witness :
  ∃ df' original_names,
    clean_column_names Ledgers.same_names = Some (df', original_names) ∧
    columns df' = ["net_amount"; "net_amount_1"; "net_amount_2"].
Proof.
  apply (clean_column_names_numbers_duplicates Ledgers.same_names "net_amount").
  repeat constructor.
Defined.

End ColumnNames.

(** ** Selections *)

Module SelectLemmas.
Import Pandas TableLemmas.

Lemma select_filter {A} (P : A → Prop) `{∀ x, Decision (P x)} (l : list A) :
  select ((λ x, bool_decide (P x)) <$> l) l = filter P l.
Proof.
  induction l as [|x l IH]; [done|]. csimpl.
  case_bool_decide.
  - rewrite filter_cons_True by done. by rewrite IH.
  - rewrite filter_cons_False by done. done.
Qed.

Lemma select_none {A} (mask : list bool) (l : list A) :
  Forall (λ b, b = false) mask → select mask l = [].
Proof.
  intros Hmask. revert l. induction Hmask as [|b mask -> _ IH]; intros [|x l]; simpl; auto.
Qed.

Lemma length_select {A B} (mask : list bool) (l : list A) (k : list B) :
  length l = length k → length (select mask l) = length (select mask k).
Proof.
  revert l k. induction mask as [|b mask IH]; intros [|x l] [|y k] Hlen; try done.
  simpl in *. destruct b; simpl; auto.
Qed.

Lemma select_zip {A B} (mask : list bool) (l : list A) (k : list B) :
  select mask (zip l k) = zip (select mask l) (select mask k).
Proof.
  revert l k. induction mask as [|b mask IH]; intros [|x l] [|y k]; try done.
  - simpl. by destruct b, (select mask l).
  - simpl. destruct b; simpl; by rewrite IH.
Qed.

(** Selecting twice, the second time by a condition that implies the
    first. *)
Lemma select_select {A B} (p q : A → bool) (t : list A) (l : list B) :
  (∀ x, p x → q x) → length t = length l →
  select (p <$> select (q <$> t) t) (select (q <$> t) l) = select (p <$> t) l.
Proof.
  intros Hpq. revert l. induction t as [|x t IH]; intros [|y l] Hlen; try done.
  simpl in Hlen. csimpl. destruct (q x) eqn:Hq.
  - csimpl. destruct (p x); rewrite IH by lia; done.
  - destruct (p x) eqn:Hp.
    + specialize (Hpq x). rewrite Hp, Hq in Hpq. by destruct Hpq.
    + apply IH. lia.
Qed.

Lemma getitem_df_select mask c df :
  getitem c (df_select mask df) = s ← getitem c df; mret (select mask s).
Proof.
  rewrite !getitem_assoc. unfold df_select. cbn [cols].
  rewrite Purity.assoc_get_fmap. by destruct (assoc_get c (cols df)).
Qed.

Lemma getitem_df_replace old new c df :
  getitem c (df_replace old new df) = s ← getitem c df; mret (replace old new s).
Proof.
  rewrite !getitem_assoc. unfold df_replace. cbn [cols].
  rewrite Purity.assoc_get_fmap. by destruct (assoc_get c (cols df)).
Qed.

Lemma wf_df_replace old new df : wf df → wf (df_replace old new df).
Proof.
  unfold wf, df_replace. cbn [cols nrows]. rewrite Forall_fmap.
  intros Hwf. eapply Forall_impl; [exact Hwf|].
  intros [c s] Hs. simpl in *. unfold replace. by rewrite length_fmap.
Qed.

Lemma nrows_df_select mask df :
  length mask = nrows df →
  nrows (df_select mask df) = length (filter (λ b, b = true) mask).
Proof.
  unfold df_select. cbn [nrows]. generalize 0. revert mask.
  induction (nrows df) as [|n IH]; intros [|b mask] k Hlen; try done.
  simpl in *. destruct b.
  - rewrite filter_cons_True by done. simpl. f_equal. apply IH. lia.
  - rewrite filter_cons_False by done. apply IH. lia.
Qed.

Lemma length_filter_mask {A} (P : A → Prop) `{∀ x, Decision (P x)} (l : list A) :
  length (filter (λ b, b = true) ((λ x, bool_decide (P x)) <$> l))
  = length (filter P l).
Proof.
  induction l as [|x l IH]; [done|]. csimpl. case_bool_decide.
  - rewrite !filter_cons_True by done. simpl. by rewrite IH.
  - rewrite !filter_cons_False by done. done.
Qed.

(** The table that [project] returns, column by column. *)
Lemma project_cols cs df r :
  project cs df = Ok r →
  ∃ ss, mapR (λ c, getitem c df) cs = Ok ss ∧ r = DF (nrows df) (zip cs ss).
Proof.
  unfold project.
  destruct (mapR (λ c, s ← getitem c df; mret (c, s)) cs) as [ps|] eqn:E; [|done].
  cbn. intros [= <-].
  assert (∃ ss, mapR (λ c, getitem c df) cs = Ok ss ∧ ps = zip cs ss) as (ss & ? & ->);
    [|by eexists].
  revert ps E. induction cs as [|c cs IH]; intros ps; cbn [mapR].
  - intros [= <-]. by exists [].
  - destruct (getitem c df) as [s|]; cbn; [|done].
    destruct (mapR (λ c, s ← getitem c df; mret (c, s)) cs) as [ps'|]; cbn; [|done].
    intros [= <-]. destruct (IH ps' eq_refl) as (ss & -> & ->).
    by exists (s :: ss).
Qed.

End SelectLemmas.

(** ** app/app.py: what [transform] returns *)

Module TransformLemmas.
Import Pandas TableLemmas SelectLemmas CalculatePayoutLemmas App.

Lemma backfill_cell_empty o t : CalculatePayout.backfill_cell ∅ o t = t.
Proof. unfold CalculatePayout.backfill_cell. rewrite lookup_empty. by destruct (isna t). Qed.

Lemma zip_with_snd {A B} (f : A → B → B) (l : list A) (k : list B) :
  (∀ x y, f x y = y) → length k ≤ length l → zip_with f l k = k.
Proof.
  intros Hf. revert k. induction l as [|x l IH]; intros [|y k] Hlen; simpl in *;
    try done; try lia.
  rewrite Hf, IH by lia. done.
Qed.

(** Six columns read, in the order of [report_columns]. *)
Lemma mapR_six {A} (f : string → result A) c1 c2 c3 c4 c5 c6 ss :
  mapR f [c1; c2; c3; c4; c5; c6] = Ok ss →
  ∃ s1 s2 s3 s4 s5 s6,
    ss = [s1; s2; s3; s4; s5; s6] ∧ f c1 = Ok s1 ∧ f c2 = Ok s2 ∧ f c3 = Ok s3 ∧
    f c4 = Ok s4 ∧ f c5 = Ok s5 ∧ f c6 = Ok s6.
Proof.
  cbn [mapR].
  destruct (f c1) as [s1|]; [|done]. destruct (f c2) as [s2|]; [|done].
  destruct (f c3) as [s3|]; [|done]. destruct (f c4) as [s4|]; [|done].
  destruct (f c5) as [s5|]; [|done]. destruct (f c6) as [s6|]; [|done].
  cbn. intros [= <-]. by eexists _, _, _, _, _, _.
Qed.

Lemma order_is_not_order (type : Series) :
  Forall (λ b, b = false)
    ((λ c, bool_decide (c = Str "order"))
       <$> select ((λ c, bool_decide (c = Str "Order")) <$> type) type).
Proof.
  rewrite select_filter. apply Forall_fmap, Forall_forall.
  intros c [-> _]%list_elem_of_filter. done.
Qed.

Lemma getitem_DF_here c s n l : getitem c (DF n ((c, s) :: l)) = Ok s.
Proof. unfold getitem. cbn [cols assoc_get]. by rewrite decide_True. Qed.

Lemma getitem_DF_next c c' s n l :
  c' ≠ c → getitem c (DF n ((c', s) :: l)) = getitem c (DF n l).
Proof. intros Hne. unfold getitem. cbn [cols assoc_get]. by rewrite decide_False. Qed.

Lemma fmap_Ok_inv {A B} (f : A → B) (r : result A) y :
  (x ← r; mret (f x)) = Ok y → ∃ x, r = Ok x ∧ y = f x.
Proof. destruct r as [x|]; cbn; [|done]. intros [= <-]. by exists x. Qed.

Ltac getitem_DF :=
  repeat (rewrite getitem_DF_here || rewrite getitem_DF_next by done).

(** The six renamings of [transform], on the projected report. *)
Lemma renamed_report n s1 s2 s3 s4 s5 s6 :
  foldl (λ r on, rename on.1 on.2 r)
    (DF n (zip report_columns [s1; s2; s3; s4; s5; s6])) renames
  = DF n [("date", s1); ("type", s2); ("order", s3); ("net", s4);
          ("title", s5); ("buyer", s6)].
Proof. reflexivity. Qed.

(** The two loops of [transform] on a report whose rows are all of the
    type [Order]: [ref] stays empty and no title is written. *)
Lemma loops_without_orders n s1 s2 s3 s4 s5 s6 :
  Forall (λ b, b = false) ((λ c, bool_decide (c = Str "order")) <$> s2) →
  length s5 ≤ length s3 →
  let report := DF n [("date", s1); ("type", s2); ("order", s3); ("net", s4);
                      ("title", s5); ("buyer", s6)] in
  (r ← ref report; backfill r report) = Ok report.
Proof.
  intros Hnone Hlen report. unfold ref, report.
  getitem_DF. run. rewrite !getitem_df_select. getitem_DF. run.
  rewrite !(select_none _ _ Hnone). unfold backfill. getitem_DF. run.
  change (CalculatePayout.ref_of [] []) with (∅ : gmap cell cell).
  rewrite zip_with_snd by (done || apply backfill_cell_empty).
  by rewrite setitem_id by (by getitem_DF).
Qed.

(** X6. [transform] returns the Order rows of the table it is given, as
    that table is after the call, in the six columns of the report under
    their new names, every cell as it is in the table: the titles
    included, since the dictionary [ref] is filled from the rows whose
    type is [order], and the report has none. *)
Theorem transform_never_backfills (df out : DataFrame) :
  wf df →
  (transform df).2 = Ok out →
  ∃ type,
    getitem "Type" (transform df).1 = Ok type ∧
    let kept := (λ c, bool_decide (c = Str "Order")) <$> type in
    nrows out = length (filter (λ c, c = Str "Order") type) ∧
    columns out = ["date"; "type"; "order"; "net"; "title"; "buyer"] ∧
    ∀ old new, (old, new) ∈ renames →
      getitem new out = s ← getitem old (transform df).1; mret (select kept s).
Proof.
  intros Hwf. unfold transform. cbn [fst snd].
  set (df' := df_replace (Str "--") NaN df).
  assert (wf df') as Hwf' by by apply wf_df_replace.
  destruct (getitem "Type" df') as [type|] eqn:Etype; run; [|discriminate].
  set (kept := (λ c, bool_decide (c = Str "Order")) <$> type).
  destruct (project report_columns (df_select kept df')) as [r|] eqn:Er; run;
    [|discriminate].
  apply project_cols in Er as (ss & Ess & ->).
  apply mapR_six in Ess as (s1 & s2 & s3 & s4 & s5 & s6 & -> & E1 & E2 & E3 & E4 & E5 & E6).
  rewrite getitem_df_select in E1, E2, E3, E4, E5, E6.
  apply fmap_Ok_inv in E1 as (c1 & Ec1 & ->), E2 as (c2 & Ec2 & ->),
    E3 as (c3 & Ec3 & ->), E4 as (c4 & Ec4 & ->), E5 as (c5 & Ec5 & ->),
    E6 as (c6 & Ec6 & ->).
  rewrite Etype in Ec2. injection Ec2 as <-.
  rewrite renamed_report, loops_without_orders.
  2: { apply order_is_not_order. }
  2: { apply Nat.eq_le_incl, length_select.
       by rewrite (wf_getitem _ _ _ Hwf' Ec5), (wf_getitem _ _ _ Hwf' Ec3). }
  intros [= <-]. exists type. split; [done|]. cbn zeta. split_and!.
  - change (nrows (df_select kept df') = length (filter (λ c, c = Str "Order") type)).
    rewrite nrows_df_select.
    + apply length_filter_mask.
    + unfold kept. rewrite length_fmap. by apply (wf_getitem _ _ _ Hwf' Etype).
  - reflexivity.
  - intros old new Hin. unfold renames in Hin.
    repeat (apply elem_of_cons in Hin as [[= -> ->]|Hin];
            [getitem_DF;
             first [rewrite Ec1 | rewrite Etype | rewrite Ec3 | rewrite Ec4
                   | rewrite Ec5 | rewrite Ec6]; reflexivity|]).
    by apply elem_of_nil in Hin.
Qed.

Lemma loops_total n s1 s2 s3 s4 s5 s6 :
  let report := DF n [("date", s1); ("type", s2); ("order", s3); ("net", s4);
                      ("title", s5); ("buyer", s6)] in
  ∃ out, (r ← ref report; backfill r report) = Ok out.
Proof.
  intros report. unfold ref, report.
  getitem_DF. run. rewrite !getitem_df_select. getitem_DF. run.
  unfold backfill. getitem_DF. run. by eexists.
Qed.


Import Ledgers.
Lemma transform_never_backfills_witness :
  ∃ out, (App.transform ledger).2 = Ok out ∧
    getitem "title" out = Ok [NaN; Str "Widget A"].
Proof.
  destruct ((App.transform ledger).2) as [out|] eqn:E; [|vm_compute in E; discriminate].
  exists out. split; [reflexivity|].
  destruct (transform_never_backfills ledger out ltac:(repeat constructor) E)
    as (type & Ht & _ & _ & Hc).
  rewrite (Hc "Item title" "title") by by_compute.
  vm_compute in Ht. injection Ht as <-. vm_compute. reflexivity.
Defined.

End TransformLemmas.

(** ** calculate_payout.py: the rows and the titles of the report *)

Module ReportLemmas.
Import Pandas TableLemmas SelectLemmas CalculatePayoutLemmas CalculatePayout.
Import TransformLemmas LastTitles.

Lemma mapR_five {A} (f : string → result A) c1 c2 c3 c4 c5 ss :
  mapR f [c1; c2; c3; c4; c5] = Ok ss →
  ∃ s1 s2 s3 s4 s5,
    ss = [s1; s2; s3; s4; s5] ∧ f c1 = Ok s1 ∧ f c2 = Ok s2 ∧ f c3 = Ok s3 ∧
    f c4 = Ok s4 ∧ f c5 = Ok s5.
Proof.
  cbn [mapR].
  destruct (f c1) as [s1|]; [|done]. destruct (f c2) as [s2|]; [|done].
  destruct (f c3) as [s3|]; [|done]. destruct (f c4) as [s4|]; [|done].
  destruct (f c5) as [s5|]; [|done].
  cbn. intros [= <-]. by eexists _, _, _, _, _.
Qed.

(** [ref] holds, for every order number, the title of the last row that
    has it. *)
Lemma foldl_insert_last (m : gmap cell cell) (kvs : list (cell * cell)) k :
  foldl (λ ref oi, <[oi.1 := oi.2]> ref) m kvs !! k
  = match last_value k kvs with Some v => Some v | None => m !! k end.
Proof.
  unfold last_value. revert m. induction kvs as [|[k' v] kvs IH]; intros m; [done|].
  cbn [foldl]. rewrite IH. cbn [fst snd].
  destruct (decide (k' = k)) as [->|Hne].
  - rewrite filter_cons_True by done. rewrite last_cons.
    destruct (last (filter _ kvs)) as [[??]|]; cbn; [done|].
    by rewrite lookup_insert_eq.
  - rewrite filter_cons_False by done.
    destruct (last (filter _ kvs)) as [[??]|]; cbn; [done|].
    by rewrite lookup_insert_ne.
Qed.

Lemma ref_of_lookup orders items k :
  ref_of orders items !! k = last_value k (zip orders items).
Proof.
  unfold ref_of. rewrite foldl_insert_last, lookup_empty.
  by destruct (last_value _ _).
Qed.

Lemma backfill_cell_filled orders items o t :
  backfill_cell (ref_of orders items) o t = filled (zip orders items) o t.
Proof.
  unfold backfill_cell, filled. rewrite ref_of_lookup.
  destruct (isna t) eqn:Hna; [|done].
  apply bool_decide_eq_true in Hna as ->. done.
Qed.

(** The report that the script builds, column by column. *)
Lemma report_Ok csv out :
  wf csv → (report csv).2 = Ok out →
  ∃ date type order net title,
    getitem "Transaction creation date" (report csv).1 = Ok date ∧
    getitem "Type" (report csv).1 = Ok type ∧
    getitem "Order number" (report csv).1 = Ok order ∧
    getitem "Net amount" (report csv).1 = Ok net ∧
    getitem "Item title" (report csv).1 = Ok title ∧
    length type = nrows csv ∧ length order = nrows csv ∧ length title = nrows csv ∧
    let kept := (λ c, bool_decide (c ≠ Str "Payout")) <$> type in
    let order_rows := select ((λ c, bool_decide (c = Str "Order")) <$> type) (zip order title) in
    out = DF (nrows (df_select kept (report csv).1))
            [("Date", select kept date); ("Type", select kept type);
             ("Order number", select kept order); ("Net amount", select kept net);
             ("Item title",
              zip_with (filled order_rows) (select kept order) (select kept title))].
Proof.
  intros Hwf. unfold report. cbn [fst snd]. set (csv' := replace_sentinel csv).
  assert (wf csv') as Hwf' by by apply wf_df_replace.
  assert (nrows csv' = nrows csv) as Hn by done.
  unfold drop_payouts.
  destruct (getitem "Type" csv') as [type|] eqn:Etype; run; [|discriminate].
  set (kept := (λ c, bool_decide (c ≠ Str "Payout")) <$> type).
  unfold project_rename.
  destruct (project report_columns (df_select kept csv')) as [r|] eqn:Er; run;
    [|discriminate].
  apply project_cols in Er as (ss & Ess & ->).
  apply mapR_five in Ess as (s1 & s2 & s3 & s4 & s5 & -> & E1 & E2 & E3 & E4 & E5).
  rewrite getitem_df_select in E1, E2, E3, E4, E5.
  apply fmap_Ok_inv in E1 as (date & Ed & ->), E2 as (c2 & Ec2 & ->),
    E3 as (order & Eo & ->), E4 as (net & En & ->), E5 as (title & Et & ->).
  rewrite Etype in Ec2. injection Ec2 as <-.
  change (rename "Transaction creation date" "Date"
            (DF (nrows (df_select kept csv'))
               (zip report_columns
                  [select kept date; select kept type; select kept order;
                   select kept net; select kept title])))
    with (DF (nrows (df_select kept csv'))
            [("Date", select kept date); ("Type", select kept type);
             ("Order number", select kept order); ("Net amount", select kept net);
             ("Item title", select kept title)]).
  unfold ref. getitem_DF. run. rewrite !getitem_df_select. getitem_DF. run.
  unfold backfill. getitem_DF. run.
  pose proof (wf_getitem _ _ _ Hwf' Etype) as Hlt.
  pose proof (wf_getitem _ _ _ Hwf' Eo) as Hlo.
  pose proof (wf_getitem _ _ _ Hwf' Et) as Hlt'.
  intros [= <-]. exists date, type, order, net, title.
  split_and!; try done; try congruence. cbn zeta.
  unfold setitem. cbn -[select kept]. do 6 f_equal.
  apply (f_equal (pair "Item title")).
  apply zip_with_ext; [|done..]. intros o t.
  rewrite backfill_cell_filled. f_equal.
  rewrite <-!select_zip. apply select_select.
  - intros c Hc%bool_decide_unpack. subst c. done.
  - rewrite length_zip. lia.
Qed.

(** X8. The report holds the rows of the table that are not Payout rows,
    in their order, in the five columns of the report, with the date
    column named [Date]; the cells of the date, type, order number and
    amount columns are those of the table after the call. *)
Theorem report_drops_payouts (csv out : DataFrame) :
  wf csv →
  (report csv).2 = Ok out →
  ∃ type,
    getitem "Type" (report csv).1 = Ok type ∧
    let kept := (λ c, bool_decide (c ≠ Str "Payout")) <$> type in
    nrows out = length (filter (λ c, c ≠ Str "Payout") type) ∧
    columns out = ["Date"; "Type"; "Order number"; "Net amount"; "Item title"] ∧
    getitem "Type" out = Ok (filter (λ c, c ≠ Str "Payout") type) ∧
    getitem "Date" out
      = (s ← getitem "Transaction creation date" (report csv).1; mret (select kept s)) ∧
    ∀ c, c = "Order number" ∨ c = "Net amount" →
      getitem c out = s ← getitem c (report csv).1; mret (select kept s).
Proof.
  intros Hwf Hout.
  destruct (report_Ok csv out Hwf Hout)
    as (date & type & order & net & title & Ed & Et & Eo & En & Ei & Hlt & _ & _ & ->).
  exists type. split; [done|]. cbn zeta. split_and!.
  - change (nrows (df_select ((λ c, bool_decide (c ≠ Str "Payout")) <$> type) (report csv).1)
            = length (filter (λ c, c ≠ Str "Payout") type)).
    rewrite nrows_df_select.
    + apply length_filter_mask.
    + by rewrite length_fmap.
  - reflexivity.
  - getitem_DF. by rewrite select_filter.
  - getitem_DF. by rewrite Ed.
  - intros c [->| ->]; getitem_DF; [by rewrite Eo|by rewrite En].
Qed.

Import Ledgers.
Lemma report_drops_payouts_witness :
  ∃ out, (CalculatePayout.report ledger).2 = Ok out ∧
    getitem "Type" out = Ok [Str "Order"; Str "Order"; Str "Refund"].
Proof.
  destruct ((CalculatePayout.report ledger).2) as [out|] eqn:E;
    [|vm_compute in E; discriminate].
  exists out. split; [reflexivity|].
  destruct (report_drops_payouts ledger out ltac:(repeat constructor) E)
    as (type & Ht & _ & _ & Hc & _).
  rewrite Hc. vm_compute in Ht. injection Ht as <-. vm_compute. reflexivity.
Defined.

(** X9. In the report a row that has a title keeps it; a row without a
    title gets the title of the last Order row that has its order
    number, and stays without a title when there is no such row or when
    that row has none. *)
Theorem report_fills_titles_from_last_order (csv out : DataFrame) :
  wf csv →
  (report csv).2 = Ok out →
  ∃ type order title,
    getitem "Type" (report csv).1 = Ok type ∧
    getitem "Order number" (report csv).1 = Ok order ∧
    getitem "Item title" (report csv).1 = Ok title ∧
    let kept := (λ c, bool_decide (c ≠ Str "Payout")) <$> type in
    let order_rows :=
      select ((λ c, bool_decide (c = Str "Order")) <$> type) (zip order title) in
    getitem "Item title" out
      = Ok (zip_with (filled order_rows) (select kept order) (select kept title)).
Proof.
  intros Hwf Hout.
  destruct (report_Ok csv out Hwf Hout)
    as (date & type & order & net & title & Ed & Et & Eo & En & Ei & _ & _ & _ & ->).
  exists type, order, title. split_and!; [done..|]. cbn zeta. by getitem_DF.
Qed.

Lemma report_fills_titles_from_last_order_witness :
  ∃ out, (CalculatePayout.report ledger).2 = Ok out ∧
    getitem "Item title" out = Ok [Str "Widget A"; Str "Widget A"; Str "Widget A"].
Proof.
  destruct ((CalculatePayout.report ledger).2) as [out|] eqn:E;
    [|vm_compute in E; discriminate].
  exists out. split; [reflexivity|].
  destruct (report_fills_titles_from_last_order ledger out ltac:(repeat constructor) E)
    as (type & order & title & Ht & Ho & Hi & Hc).
  rewrite Hc. vm_compute in Ht, Ho, Hi.
  injection Ht as <-. injection Ho as <-. injection Hi as <-.
  vm_compute. reflexivity.
Defined.

End ReportLemmas.

(** ** hoold.py and gen_dash_app_1.py: the titles after loading *)

Module ResolvedTitles.
Import Pandas TableLemmas Titles TitleLemmas Hoold Untitled.

Lemma first_value_first k kvs i v :
  k ≠ NaN → v ≠ NaN → kvs !! i = Some (k, v) →
  (∀ i' v', i' < i → kvs !! i' = Some (k, v') → v' = NaN) →
  first_value k kvs = Some v.
Proof.
  intros Hk Hv. revert i. induction kvs as [|[k' v'] kvs IH]; intros i Hi Hbefore; [done|].
  cbn [first_value]. destruct i as [|i].
  - injection Hi as -> ->. rewrite decide_True by done.
    unfold notna, isna. by rewrite !bool_decide_eq_false_2.
  - assert (first_value k kvs = Some v) as Hrest.
    { apply (IH i); [done|]. intros i' w Hlt. apply (Hbefore (S i')). lia. }
    destruct (decide (k' = k)) as [->|]; [|done].
    rewrite (Hbefore 0 v'); [|lia|done].
    by rewrite andb_false_r.
Qed.

Lemma first_value_none k kvs :
  (∀ i v, kvs !! i = Some (k, v) → v = NaN) → first_value k kvs = None.
Proof.
  induction kvs as [|[k' v'] kvs IH]; intros Hall; [done|].
  cbn [first_value].
  assert (first_value k kvs = None) as ->.
  { apply IH. intros i v. apply (Hall (S i)). }
  destruct (decide (k' = k)) as [->|]; [|done].
  rewrite (Hall 0 v'); [|done]. by rewrite andb_false_r.
Qed.

(** One cell of the title column that [parse_contents] leaves. *)
Lemma resolved_titles_lookup orders title i o t :
  length orders = length title →
  orders !! i = Some o → title !! i = Some t →
  resolved_titles orders title !! i =
    Some (let found :=
            if decide (o = NaN) then (if decide (t = Str "--") then NaN else t)
            else default NaN
                   (first_value o (zip orders (replace (Str "--") NaN title))) in
          if decide (found = NaN) then Str "--" else found).
Proof.
  intros Hlen Ho Ht. unfold resolved_titles.
  rewrite assign_where_backfilled by (unfold replace; by rewrite length_fmap).
  unfold fillna. rewrite list_lookup_fmap, lookup_zip_with, Ho. cbn.
  assert (replace (Str "--") NaN title !! i
          = Some (if decide (t = Str "--") then NaN else t)) as ->.
  { unfold replace. by rewrite list_lookup_fmap, Ht. }
  cbn.
  unfold backfilled, notna, isna.
  destruct (decide (o = NaN)) as [->|Hne].
  - rewrite (bool_decide_eq_true_2 (NaN = NaN)) by done. cbn.
    destruct (decide (t = Str "--")); by case_bool_decide; case_decide.
  - rewrite (bool_decide_eq_false_2 (o = NaN)) by done. cbn.
    rewrite groupby_first_lookup.
    by case_bool_decide; case_decide.
Qed.

Lemma replaced_lookup (title : Series) i t :
  replace (Str "--") NaN title !! i = Some t →
  ∃ t', title !! i = Some t' ∧ t = (if decide (t' = Str "--") then NaN else t').
Proof.
  unfold replace. rewrite list_lookup_fmap.
  destruct (title !! i) as [t'|]; [|done]. cbn. intros [= <-]. by exists t'.
Qed.

Section titles.
Context `{DateParser}.

(** What both dashboards know of a table they have loaded. *)
Lemma loaded_titles df out :
  wf df →
  (Hoold.parse_contents df).1 = Some out ∨ (GenDash.parse_contents df).1 = Some out →
  ∃ orders title,
    getitem "Order number" df = Ok orders ∧
    getitem "Item title" df = Ok title ∧
    length orders = length title ∧
    getitem "Item title" out = Ok (resolved_titles orders title).
Proof.
  intros Hwf [Hout|Hout].
  - unfold Hoold.parse_contents in Hout.
    destruct (Hoold.parse_contents_try df) as [out'|] eqn:E; simplify_eq/=.
    destruct (HooldLemmas.hoold_try_Ok df out E)
      as (date & date' & net & title & orders &
          _ & _ & _ & Et & Eo & _ & _ & _ & _ & Ht & _).
    exists orders, title. split_and!; [done..| |done].
    by rewrite (wf_getitem _ _ _ Hwf Et), (wf_getitem _ _ _ Hwf Eo).
  - unfold GenDash.parse_contents in Hout.
    destruct (GenDash.parse_contents_try df) as [out'|] eqn:E; simplify_eq/=.
    destruct (GenDashLemmas.gen_dash_try_Ok df out E)
      as (date & date' & title & orders & fees &
          _ & _ & Et & Eo & _ & _ & _ & _ & Ht & _).
    exists orders, title. split_and!; [done..| |done].
    by rewrite (wf_getitem _ _ _ Hwf Et), (wf_getitem _ _ _ Hwf Eo).
Qed.

(** X10. In a table that either dashboard has loaded every row has a
    title or the sentinel, never NaN, and all the rows of one order
    number have the same. *)
Theorem one_title_per_order (df out : DataFrame) :
  wf df →
  (Hoold.parse_contents df).1 = Some out ∨ (GenDash.parse_contents df).1 = Some out →
  ∃ orders titles,
    getitem "Order number" df = Ok orders ∧
    getitem "Item title" out = Ok titles ∧
    length titles = nrows df ∧
    (NaN ∉ titles) ∧
    ∀ i j o, o ≠ NaN → orders !! i = Some o → orders !! j = Some o →
             titles !! i = titles !! j.
Proof.
  intros Hwf Hout.
  destruct (loaded_titles df out Hwf Hout) as (orders & title & Eo & Et & Hlen & Ht).
  exists orders, (resolved_titles orders title). split_and!; [done..| | |].
  - rewrite HooldLemmas.length_resolved_titles. by apply (wf_getitem _ _ _ Hwf Et).
  - unfold resolved_titles. by apply GenDashIdempotence.fillna_no_NaN.
  - intros i j o Hne Hi Hj.
    destruct (lookup_lt_is_Some_2 title i) as [ti Hti];
      [rewrite <-Hlen; by eapply lookup_lt_Some|].
    destruct (lookup_lt_is_Some_2 title j) as [tj Htj];
      [rewrite <-Hlen; by eapply lookup_lt_Some|].
    rewrite (resolved_titles_lookup _ _ i o ti), (resolved_titles_lookup _ _ j o tj)
      by done.
    cbn zeta. by destruct (decide (o = NaN)).
Qed.

(** X11. The title that the rows of an order number get is the title of
    the first row of that number that has one; when no row of the number
    has a title, they get the sentinel. A row without an order number
    keeps its title. *)
Theorem first_title_of_the_order_wins (df out : DataFrame) :
  wf df →
  (Hoold.parse_contents df).1 = Some out ∨ (GenDash.parse_contents df).1 = Some out →
  ∃ orders title titles,
    getitem "Order number" df = Ok orders ∧
    getitem "Item title" df = Ok title ∧
    getitem "Item title" out = Ok titles ∧
    (∀ i o t,
       o ≠ NaN → orders !! i = Some o → title !! i = Some t → ¬ untitled t →
       (∀ i' t', i' < i → orders !! i' = Some o → title !! i' = Some t' → untitled t') →
       ∀ j, orders !! j = Some o → titles !! j = Some t) ∧
    (∀ o,
       o ≠ NaN →
       (∀ i t, orders !! i = Some o → title !! i = Some t → untitled t) →
       ∀ j, orders !! j = Some o → titles !! j = Some (Str "--")) ∧
    (∀ j t,
       orders !! j = Some NaN → title !! j = Some t →
       titles !! j = Some (if decide (untitled t) then Str "--" else t)).
Proof.
  intros Hwf Hout.
  destruct (loaded_titles df out Hwf Hout) as (orders & title & Eo & Et & Hlen & Ht).
  exists orders, title, (resolved_titles orders title). split_and!; [done..| | |].
  - intros i o t Ho Hi Hti Ht' Hbefore j Hj.
    destruct (lookup_lt_is_Some_2 title j) as [tj Htj];
      [rewrite <-Hlen; by eapply lookup_lt_Some|].
    rewrite (resolved_titles_lookup _ _ j o tj) by done.
    cbn zeta. destruct (decide (o = NaN)) as [|_]; [done|].
    rewrite (first_value_first o _ i t); cbn.
    + rewrite decide_False; [done|]. intros ->. apply Ht'. by left.
    + done.
    + intros ->. apply Ht'. by left.
    + apply lookup_zip_with_Some. exists o, t. split_and!; [done..|].
      unfold replace. rewrite list_lookup_fmap, Hti. cbn.
      rewrite decide_False; [done|]. intros ->. apply Ht'. by right.
    + intros i' v' Hlt (o' & t' & [= <- <-] & Hi' & Hv')%lookup_zip_with_Some.
      apply replaced_lookup in Hv' as (t'' & Hv' & ->).
      destruct (Hbefore i' t'' Hlt Hi' Hv') as [->| ->]; done.
  - intros o Ho Hall j Hj.
    destruct (lookup_lt_is_Some_2 title j) as [tj Htj];
      [rewrite <-Hlen; by eapply lookup_lt_Some|].
    rewrite (resolved_titles_lookup _ _ j o tj) by done.
    cbn zeta. destruct (decide (o = NaN)) as [|_]; [done|].
    rewrite first_value_none; [done|].
    intros i v (o' & t' & [= <- <-] & Hi' & Hv')%lookup_zip_with_Some.
    apply replaced_lookup in Hv' as (t'' & Hv' & ->).
    destruct (Hall i t'' Hi' Hv') as [->| ->]; done.
  - intros j t Hj Htj.
    rewrite (resolved_titles_lookup _ _ j NaN t) by done. cbn zeta.
    unfold untitled. repeat case_decide; try done; intuition congruence.
Qed.

End titles.

Import Ledgers IsoDates.
Lemma one_title_per_order_witness :
  ∃ out titles, (Hoold.parse_contents ledger).1 = Some out ∧
    getitem "Item title" out = Ok titles ∧ (NaN ∉ titles) ∧
    titles !! 0 = titles !! 3.
Proof.
  destruct ((Hoold.parse_contents ledger).1) as [out|] eqn:E;
    [|vm_compute in E; discriminate].
  destruct (one_title_per_order ledger out ltac:(repeat constructor) (or_introl E))
    as (orders & titles & Ho & Ht & _ & Hn & Hsame).
  exists out, titles. split_and!; [reflexivity|done..|].
  vm_compute in Ho. injection Ho as <-.
  by apply (Hsame 0 3 (Str "O1")).
Defined.

Lemma first_title_of_the_order_wins_witness :
  ∃ out titles, (Hoold.parse_contents ledger).1 = Some out ∧
    getitem "Item title" out = Ok titles ∧
    titles !! 0 = Some (Str "Widget A") ∧ titles !! 1 = Some (Str "--").
Proof.
  destruct ((Hoold.parse_contents ledger).1) as [out|] eqn:E;
    [|vm_compute in E; discriminate].
  destruct (first_title_of_the_order_wins ledger out ltac:(repeat constructor)
              (or_introl E))
    as (orders & title & titles & Ho & Hi & Ht & Hfirst & Hnone & _).
  vm_compute in Ho, Hi. injection Ho as <-. injection Hi as <-.
  exists out, titles. split_and!; [reflexivity|done|..].
  - apply (Hfirst 2 (Str "O1") (Str "Widget A")); try done.
    + intros [?|?]; done.
    + intros [|[|i']] t' Hlt Ho Ht';
        [vm_compute in Ht'; injection Ht' as <-; by right
        |vm_compute in Ho; discriminate
        |lia].
  - apply (Hnone (Str "--")); try done.
    intros [|[|[|[|i]]]] t Ho Ht'; try (vm_compute in Ho; discriminate).
    vm_compute in Ht'. injection Ht' as <-. by right.
Defined.

End ResolvedTitles.

(** ** The theme toggle *)

Module ThemeLemmas.
Import Themes.

Lemma toggle_with_click first n current_theme :
  toggle_with first (Some n) current_theme
  = toggle_with (flipped current_theme) None "".
Proof. reflexivity. Qed.

Lemma theme_store_first first current_theme :
  theme_store (toggle_with first None current_theme) = first.
Proof. reflexivity. Qed.

Lemma flipped_flipped_flipped t : flipped (flipped (flipped t)) = flipped t.
Proof.
  unfold flipped. destruct (decide (t = "light")); reflexivity.
Qed.

(** X12. After a click the theme is [dark] when it was [light] and
    [light] in every other case, so that from the first click on the
    theme, and with it the five styles, come back every second click;
    between [light] and [dark] two clicks lead back. Before any click
    hoold.py sets the dark theme and gen_dash_app_1.py the light one,
    whatever is stored. *)
Theorem toggle_theme_alternates (first current_theme : string) (k m n : nat) :
  let once := toggle_with first (Some k) current_theme in
  let twice := toggle_with first (Some m) (theme_store once) in
  let thrice := toggle_with first (Some n) (theme_store twice) in
  (theme_store once = if decide (current_theme = "light") then "dark" else "light") ∧
  thrice = once ∧
  (current_theme = "light" ∨ current_theme = "dark" → theme_store twice = current_theme) ∧
  theme_store (HooldApp.toggle_theme None current_theme) = "dark" ∧
  theme_store (GenDashApp.toggle_theme None current_theme) = "light".
Proof.
  cbn zeta. rewrite !toggle_with_click, !theme_store_first. split_and!.
  - reflexivity.
  - by rewrite flipped_flipped_flipped.
  - intros [-> | ->]; reflexivity.
  - reflexivity.
  - reflexivity.
Qed.

End ThemeLemmas.

(** ** Splitting *)

Module SplitLemmas.
Import PyStr2 Uploads.

Lemma split_on_cons sep s : ∃ w ws, split_on sep s = w :: ws.
Proof.
  induction s as [|c s (w & ws & IH)]; [by eexists _, _|].
  cbn [split_on]. case_decide; [by eexists _, _|]. rewrite IH. by eexists _, _.
Qed.

Lemma length_split_on sep s : length (split_on sep s) = S (count_char sep s).
Proof.
  induction s as [|c s IH]; [done|]. cbn [split_on count_char].
  case_decide; [simpl; by rewrite IH|].
  destruct (split_on_cons sep s) as (w & ws & E). rewrite E in *. simpl in *. lia.
Qed.

Lemma count_char_app c s t :
  count_char c (s +:+ t) = count_char c s + count_char c t.
Proof.
  induction s as [|c' s IH]; [done|].
  change (String c' s +:+ t) with (String c' (s +:+ t)). cbn [count_char].
  rewrite IH. lia.
Qed.

Lemma split_on_free sep s : count_char sep s = 0 → split_on sep s = [s].
Proof.
  induction s as [|c s IH]; [done|]. cbn [split_on count_char].
  case_decide; [done|]. intros Hs. by rewrite IH.
Qed.

(** Two pieces: the text before the separator and the text after it. *)
Lemma split_on_two sep s t b :
  split_on sep s = [t; b] ↔
  s = t +:+ String sep b ∧ count_char sep t = 0 ∧ count_char sep b = 0.
Proof.
  revert t. induction s as [|c s IH]; intros t.
  - split; [done|]. intros (Hs & _). by destruct t.
  - cbn [split_on]. destruct (decide (c = sep)) as [->|Hne].
    + split.
      * intros [= <- Hb].
        assert (count_char sep s = 0) as Hs.
        { pose proof (length_split_on sep s) as Hlen. rewrite Hb in Hlen.
          simpl in Hlen. lia. }
        rewrite split_on_free in Hb by done. by injection Hb as <-.
      * intros (Hs & Ht & Hb). destruct t as [|c' t].
        -- injection Hs as ->. by rewrite split_on_free.
        -- injection Hs as -> _. cbn [count_char] in Ht.
           rewrite decide_True in Ht by done. lia.
    + destruct (split_on_cons sep s) as (w & ws & E). rewrite E.
      split.
      * intros [= <- ->]. apply IH in E as (-> & Hw & Hb).
        split_and!; [done| |done]. cbn [count_char]. by rewrite decide_False.
      * intros (Hs & Ht & Hb). destruct t as [|c' t].
        -- injection Hs as ->. done.
        -- injection Hs as -> ->. cbn [count_char] in Ht.
           rewrite decide_False in Ht by done.
           assert (split_on sep (t +:+ String sep b) = [t; b]) as E'.
           { apply IH. by split_and!. }
           rewrite E' in E. by injection E as <- <-.
Qed.

End SplitLemmas.

(** ** [parse_contents] from the upload string *)

Module UploadLemmas.
Import PyStr2 Uploads SplitLemmas.

Section parse_contents.
Variable b64decode : string → option (list Byte.byte).
Variables read_csv read_excel : list Byte.byte → string + DataFrame.
Variable try_block : DataFrame → result DataFrame.

Local Abbreviation parse_contents :=
  (parse_contents b64decode read_csv read_excel try_block).

(** X13. [parse_contents] raises, outside its [try] block, exactly when
    the upload string does not hold one comma, or holds one and what
    follows it is not base64; the file name plays no part in that. *)
Theorem parse_contents_escapes (contents filename : string) (e : escaped) :
  parse_contents contents filename = inl e ↔
  (count_char "," contents ≠ 1 ∧
   e = ValueError_unpack (S (count_char "," contents))) ∨
  (∃ content_type content_string,
     contents = content_type +:+ "," +:+ content_string ∧
     count_char "," contents = 1 ∧
     b64decode content_string = None ∧ e = binascii_Error).
Proof.
  unfold parse_contents.
  pose proof (length_split_on "," contents) as Hlen.
  destruct (split_on "," contents) as [|t [|b [|x parts]]] eqn:E;
    rewrite ?E in Hlen; simpl in Hlen.
  - done.
  - split; [intros [= <-]; left; split; [lia|f_equal; lia]|].
    intros [[_ ->]|(? & ? & _ & Hc & _)]; [simpl; by rewrite <-Hlen|lia].
  - apply split_on_two in E as (-> & Ht & Hb).
    destruct (b64decode b) as [decoded|] eqn:Ed.
    + split; [done|]. intros [[Hc _]|(t' & b' & Heq & _ & Hd & _)]; [lia|].
      assert (split_on "," (t +:+ String "," b) = [t'; b']) as E'.
      { rewrite Heq in Hlen |- *.
        change ("," +:+ b') with (String "," b') in Hlen |- *.
        apply split_on_two. split; [done|].
        rewrite count_char_app in Hlen.
        cbn [count_char] in Hlen. rewrite decide_True in Hlen by done. lia. }
      assert (split_on "," (t +:+ String "," b) = [t; b]) as E''.
      { apply split_on_two. by split_and!. }
      rewrite E' in E''. injection E'' as -> ->. congruence.
    + split.
      * intros [= <-]. right. exists t, b. split_and!; [done|lia|done..].
      * intros [[Hc _]|(_ & _ & _ & _ & _ & ->)]; [lia|done].
  - split; [intros [= <-]; left; split; [lia|simpl; by rewrite <-Hlen]|].
    intros [[_ ->]|(? & ? & _ & Hc & _)]; [simpl; by rewrite <-Hlen|lia].
Qed.

(** X14. [parse_contents] returns a table only for a file name that
    holds [csv] or [xls], letter case counting; the table is what the
    [try] block makes of the table read, which [pd.read_csv] has read
    when the name holds [csv], also when it holds [xls] as well, and
    [pd.read_excel] otherwise. *)
Theorem parse_contents_loads (contents filename message : string) (out : DataFrame) :
  parse_contents contents filename = inr (Some out, message) →
  ∃ content_type content_string decoded df,
    contents = content_type +:+ "," +:+ content_string ∧
    b64decode content_string = Some decoded ∧
    (contains "csv" filename ∨ contains "xls" filename) ∧
    (if contains "csv" filename then read_csv decoded else read_excel decoded) = inr df ∧
    try_block df = Ok out ∧
    message = "Successfully loaded " +:+ filename.
Proof.
  unfold parse_contents.
  destruct (split_on "," contents) as [|t [|b [|x parts]]] eqn:E; try done.
  apply split_on_two in E as (-> & _ & _).
  destruct (b64decode b) as [decoded|] eqn:Ed; [|done].
  intros Hout. exists t, b, decoded.
  destruct (contains "csv" filename) eqn:Hcsv.
  - destruct (read_csv decoded) as [e|df] eqn:Er; [by simplify_eq|].
    destruct (try_block df) as [df'|] eqn:Et; simplify_eq.
    exists df. split_and!; try done. by left.
  - destruct (contains "xls" filename) eqn:Hxls; [|by simplify_eq].
    destruct (read_excel decoded) as [e|df] eqn:Er; [by simplify_eq|].
    destruct (try_block df) as [df'|] eqn:Et; simplify_eq.
    exists df. split_and!; try done. by right.
Qed.

End parse_contents.

Import Examples IsoDates.
Lemma parse_contents_loads_witness :
  ∃ out message,
    HooldApp.parse_contents (λ _, Some []) (λ _, inr two_orders) (λ _, inl "")
      "data:text/csv;base64,QQ==" "report.csv"
      = inr (Some out, message) ∧
    message = "Successfully loaded report.csv".
Proof.
  destruct (HooldApp.parse_contents (λ _, Some []) (λ _, inr two_orders) (λ _, inl "")
              "data:text/csv;base64,QQ==" "report.csv")
    as [e|[[out|] message]] eqn:E;
    [vm_compute in E; discriminate| |vm_compute in E; discriminate].
  exists out, message. split; [reflexivity|].
  destruct (parse_contents_loads _ _ _ _ _ _ _ _ E)
    as (? & ? & ? & ? & _ & _ & _ & _ & _ & ->).
  reflexivity.
Defined.

End UploadLemmas.

(** ** ebay_sql_query.py: the upload and the query after it *)

Module SqlUploadLemmas.
Import PyStr PyStr2 SqlQuery SqlUpload Identifiers.

Section upload.
Variable b64decode : string → option (list Byte.byte).
Variable read_csv : list Byte.byte → string + DataFrame.
Variable db : Type.
Variable connect : db.
Variable to_sql : DataFrame → db → db * option string.

Lemma clean_column_names_Some df df' original_names :
  clean_column_names df = Some (df', original_names) →
  nrows df' = nrows df ∧ length (columns df') = length (columns df) ∧
  NoDup (columns df') ∧ Forall sql_identifier (columns df').
Proof.
  destruct (clean_loop_inv (columns df) [] ∅) as (names & m & E & Hnd & Hid & Hlen);
    [constructor..|].
  unfold clean_column_names. rewrite E. simpl. intros [= <- <-].
  assert (length names = length (cols df).*2) as Hlen'.
  { rewrite Hlen. unfold columns. by rewrite !length_fmap. }
  unfold columns at 1 3 4. simpl. rewrite fst_zip by lia. by split_and!.
Qed.

Lemma clean_column_names_total df : is_Some (clean_column_names df).
Proof.
  destruct (clean_loop_inv (columns df) [] ∅) as (names & m & E & _);
    [constructor..|].
  unfold clean_column_names. rewrite E. by eexists.
Qed.

(** What [validate_csv] returns, and what it has checked of a table
    that it returns. *)
Lemma validate_csv_returns (contents filename : string) (max_size_mb : nat) :
  ∃ validated message,
    validate_csv b64decode read_csv contents filename max_size_mb
      = Some (validated, message) ∧
    (is_Some validated ↔ message = File_uploaded_successfully) ∧
    ∀ df original_names, validated = Some (df, original_names) →
      endswith ".csv" (lower filename) ∧
      0 < nrows df ∧ columns df ≠ [] ∧
      NoDup (columns df) ∧ Forall sql_identifier (columns df) ∧
      ∃ content_type content_string decoded read,
        contents = content_type +:+ "," +:+ content_string ∧
        b64decode content_string = Some decoded ∧
        length decoded ≤ max_size_mb * (1024 * 1024) ∧
        read_csv decoded = inr read ∧
        Forall (λ c, ¬ startswith "Unnamed:" c) (columns read) ∧
        clean_column_names read = Some (df, original_names).
Proof.
  unfold validate_csv.
  destruct (endswith ".csv" (lower filename)) eqn:Hcsv; cbn [negb].
  2: { eexists _, _. split; [done|]. split; [|done]. split; [by intros [??]|done]. }
  destruct (split_on "," contents) as [|t [|b [|x parts]]] eqn:E.
  1, 2, 4: eexists _, _; (split; [done|]); (split; [|done]);
    (split; [by intros [??]|done]).
  apply SplitLemmas.split_on_two in E as (-> & _ & _).
  destruct (b64decode b) as [decoded|] eqn:Ed.
  2: { eexists _, _. split; [done|]. split; [|done]. split; [by intros [??]|done]. }
  case_decide as Hsize.
  { eexists _, _. split; [done|]. split; [|done]. split; [by intros [??]|done]. }
  destruct (read_csv decoded) as [e|read] eqn:Er.
  { eexists _, _. split; [done|]. split; [|done]. split; [by intros [??]|done]. }
  destruct (empty read) eqn:Hempty.
  { eexists _, _. split; [done|]. split; [|done]. split; [by intros [??]|done]. }
  destruct (existsb (startswith "Unnamed:") (columns read)) eqn:Hun.
  { eexists _, _. split; [done|]. split; [|done]. split; [by intros [??]|done]. }
  destruct (clean_column_names_total read) as [[df names] Ec]. rewrite Ec.
  cbn [mbind option_bind]. eexists _, _. split; [done|]. split; [done|].
  intros df' names' [= <- <-].
  destruct (clean_column_names_Some _ _ _ Ec) as (Hn & Hlen & Hnd & Hid).
  unfold empty in Hempty. apply orb_false_iff in Hempty as [Hrows Hcols].
  apply bool_decide_eq_false in Hrows, Hcols.
  split_and!; [done|lia| |done..|].
  - intros Hnil. rewrite Hnil in Hlen. unfold columns in Hlen.
    rewrite length_fmap in Hlen. by destruct (cols read).
  - exists t, b, decoded, read. split_and!; [done|done|lia|done| |done].
    apply Forall_forall. intros c Hc Hstart.
    assert (existsb (startswith "Unnamed:") (columns read) = true) as Hex; [|congruence].
    apply existsb_exists. exists c. split; [by apply list_elem_of_In|].
    by apply Is_true_true.
Qed.

(** X15. [validate_csv] always returns, and returns a table exactly with
    the message of success. A table it returns comes from a file whose
    name ends in [.csv], letter case aside, whose upload string holds
    one comma and decodes to no more than the size allowed; it has at
    least one row and one column, as the table read, none of whose
    column names starts with [Unnamed:]; its column names are
    identifiers, pairwise distinct. *)
Theorem validate_csv_accepts (contents filename : string) (max_size_mb : nat) :
  ∃ validated message,
    validate_csv b64decode read_csv contents filename max_size_mb
      = Some (validated, message) ∧
    (is_Some validated ↔ message = File_uploaded_successfully) ∧
    ∀ df original_names, validated = Some (df, original_names) →
      endswith ".csv" (lower filename) ∧
      0 < nrows df ∧ columns df ≠ [] ∧
      NoDup (columns df) ∧ Forall sql_identifier (columns df) ∧
      ∃ content_type content_string decoded read,
        contents = content_type +:+ "," +:+ content_string ∧
        b64decode content_string = Some decoded ∧
        length decoded ≤ max_size_mb * (1024 * 1024) ∧
        read_csv decoded = inr read ∧
        Forall (λ c, ¬ startswith "Unnamed:" c) (columns read) ∧
        clean_column_names read = Some (df, original_names).
Proof. apply validate_csv_returns. Qed.

Local Abbreviation process_upload :=
  (process_upload b64decode read_csv db connect to_sql).


End upload.

(** X19. When the database answers a query, the message under the
    result names the kind of result shown: a single value for a table of
    one row and one column, whose cell is the value shown; a single row
    for one row of several columns, shown field by field; and the number
    of rows otherwise, with the whole table shown when it has at least
    two rows and a column, and the note of no results when it has no row
    or no column. *)
Theorem run_query_info_matches (read_sql_query : string → result DataFrame)
    (data_store_df result_df : DataFrame) (n_clicks : nat) (query : string) :
  query ≠ "" →
  read_sql_query query = Ok result_df →
  wf result_df →
  ∃ shown info,
    run_query read_sql_query data_store_df n_clicks (Some query)
      = Ok (update shown, "", update info) ∧
    match shown with
    | NoResults =>
        (nrows result_df = 0 ∨ cols result_df = []) ∧
        info = "Query returned " +:+ pretty (nrows result_df) +:+ " rows"
    | ScalarResult value =>
        (∃ c, cols result_df = [(c, [value])]) ∧
        info = "Query returned a single value"
    | SingleRow fields =>
        nrows result_df = 1 ∧ 2 ≤ length fields ∧ fields = row result_df 0 ∧
        info = "Query returned a single row"
    | DataTable df =>
        df = result_df ∧ 2 ≤ nrows df ∧ cols df ≠ [] ∧
        info = "Query returned " +:+ pretty (nrows df) +:+ " rows"
    end.
Proof.
  intros Hq Hread Hwf. unfold run_query. destruct query as [|c q]; [done|].
  rewrite Hread. eexists _, _. split; [done|].
  unfold create_result_component, empty, is_scalar_result, is_single_row_result.
  destruct result_df as [n cs]. cbn [nrows cols] in *.
  destruct (decide (n = 0)) as [->|Hn].
  { rewrite bool_decide_eq_true_2 by done. cbn. split; [by left|done]. }
  rewrite (bool_decide_eq_false_2 (n = 0)) by done.
  destruct cs as [|[c1 s1] cs].
  { rewrite !(bool_decide_eq_false_2 (length [] = 1)) by done.
    rewrite !(bool_decide_eq_false_2 (1 < length [])) by (cbn; lia).
    rewrite !andb_false_r. cbn. split; [by right|done]. }
  rewrite (bool_decide_eq_false_2 (_ :: _ = [])) by done. cbn [orb].
  destruct (decide (n = 1)) as [->|Hn1].
  2: { rewrite !(bool_decide_eq_false_2 (n = 1)) by done. cbn.
       split_and!; [done|lia|done..]. }
  rewrite !(bool_decide_eq_true_2 (1 = 1)) by done. cbn [andb].
  destruct cs as [|[c2 s2] cs].
  - rewrite !(bool_decide_eq_true_2 (length [_] = 1)) by done.
    apply Forall_cons_1 in Hwf as [Hs1 _]. cbn in Hs1.
    destruct s1 as [|v [|??]]; try done. cbn. split; [by exists c1|done].
  - rewrite !(bool_decide_eq_false_2 (length (_ :: _ :: _) = 1)) by (cbn; lia).
    rewrite !(bool_decide_eq_true_2 (1 < length (_ :: _ :: _))) by (cbn; lia).
    split_and!; [done|cbn; lia|done..].
Qed.

Import Ledgers.
Lemma run_query_info_matches_witness :
  run_query (λ _, Ok count_result) (DF 0 []) 1 (Some "SELECT COUNT(1) FROM data")
    = Ok (update (ScalarResult (Num (Dec 42 0))), "",
          update "Query returned a single value").
Proof.
  destruct (run_query_info_matches (λ _, Ok count_result) (DF 0 []) count_result 1
              "SELECT COUNT(1) FROM data" ltac:(done) eq_refl ltac:(repeat constructor))
    as (shown & info & E & _).
  pose proof E as E'. vm_compute in E'. injection E' as <- <-. exact E.
Defined.

End SqlUploadLemmas.

(** ** The date filters *)

Module DateFilterLemmas.
Import Pandas TableLemmas SelectLemmas CalculatePayoutLemmas DateFilters.

Lemma select_all {A} (mask : list bool) (l : list A) :
  Forall (λ b, b = true) mask → length l ≤ length mask → select mask l = l.
Proof.
  intros Hmask. revert l. induction Hmask as [|b mask -> _ IH]; intros [|x l] Hlen;
    simpl in *; try done; try lia.
  rewrite IH by lia. done.
Qed.

(** Selecting twice is selecting once, by both conditions. *)
Lemma select_select_and {A B} (p q : A → bool) (l : list A) (k : list B) :
  length l = length k →
  select (p <$> select (q <$> l) l) (select (q <$> l) k)
  = select ((λ x, q x && p x) <$> l) k.
Proof.
  revert k. induction l as [|x l IH]; intros [|y k] Hlen; try done.
  simpl in Hlen. csimpl. destruct (q x); csimpl.
  - destruct (p x); rewrite IH by lia; done.
  - apply IH. lia.
Qed.

Lemma zip_with_andb_fmap {A} (p q : A → bool) (l : list A) :
  zip_with andb (p <$> l) (q <$> l) = (λ x, p x && q x) <$> l.
Proof. induction l as [|x l IH]; [done|]. csimpl. by rewrite IH. Qed.

Lemma df_select_all mask df :
  wf df → length mask = nrows df → Forall (λ b, b = true) mask →
  df_select mask df = df.
Proof.
  intros Hwf Hlen Hall. destruct df as [n cs]. unfold df_select. cbn [nrows cols] in *.
  f_equal.
  - rewrite select_all by (done || rewrite length_seq; lia). by rewrite length_seq.
  - unfold wf in Hwf. cbn [cols nrows] in Hwf.
    induction Hwf as [|[c s] cs Hs Hcs IH]; [done|]. csimpl. rewrite IH.
    simpl in Hs. rewrite select_all by (done || lia). done.
Qed.

Lemma count_select {A} (p q : A → bool) (l : list A) :
  length (filter (λ b, b = true) (p <$> select (q <$> l) l))
  = length (filter (λ b, b = true) ((λ x, q x && p x) <$> l)).
Proof.
  induction l as [|x l IH]; [done|]. csimpl. destruct (q x); csimpl.
  - destruct (p x).
    + rewrite !filter_cons_True by done. simpl. by rewrite IH.
    + rewrite !filter_cons_False by done. done.
  - rewrite filter_cons_False by done. done.
Qed.

Lemma length_select_mask {A} (q : A → bool) (l : list A) :
  length (select (q <$> l) l) = length (filter (λ b, b = true) (q <$> l)).
Proof.
  induction l as [|x l IH]; [done|]. csimpl. destruct (q x).
  - rewrite filter_cons_True by done. simpl. by rewrite IH.
  - rewrite filter_cons_False by done. done.
Qed.

Lemma wf_df_select (q : cell → bool) (date : Series) df :
  wf df → length date = nrows df → wf (df_select (q <$> date) df).
Proof.
  intros Hwf Hlen. unfold wf. rewrite nrows_df_select by by rewrite length_fmap.
  unfold df_select. cbn [cols]. rewrite Forall_fmap.
  eapply Forall_impl; [exact Hwf|]. intros [c s] Hs. simpl in *.
  rewrite <-length_select_mask. apply length_select. lia.
Qed.

Section filters.
Context `{DateParser} `{MonthYearParser}.

(** Two selections, one after the other, on a table whose date column
    is [date]. *)
Lemma twice_selected (p q : cell → bool) date_column (date : Series) df out :
  wf df → getitem date_column df = Ok date →
  out = df_select (p <$> select (q <$> date) date) (df_select (q <$> date) df) →
  let kept := (λ c, q c && p c) <$> date in
  nrows out = length (filter (λ b, b = true) kept) ∧
  columns out = columns df ∧
  ∀ c, getitem c out = s ← getitem c df; mret (select kept s).
Proof.
  intros Hwf Hdate -> kept.
  pose proof (wf_getitem _ _ _ Hwf Hdate) as Hlen. split_and!.
  - rewrite nrows_df_select.
    + apply count_select.
    + rewrite length_fmap, nrows_df_select by by rewrite length_fmap.
      apply length_select_mask.
  - by rewrite !columns_df_select.
  - intros c. rewrite !getitem_df_select.
    destruct (getitem c df) as [s|] eqn:Es; run; [|done].
    f_equal. apply select_select_and.
    by rewrite Hlen, (wf_getitem _ _ _ Hwf Es).
Qed.

Lemma all_true (date : Series) : Forall (λ b, b = true) ((λ _ : cell, true) <$> date).
Proof. apply Forall_fmap, Forall_forall. done. Qed.

(** X17. The filters keep the rows of the table whose date passes both
    of them, in their order and with all their cells, the dates read as
    timestamps. The date range is applied only when both of its ends are
    given; it includes both ends, taken as the timestamps that the texts
    are read as. A month is applied when one is selected. A row without
    a date passes no filter, and is kept when none is applied. *)
Theorem date_filtered_rows (date_column : string) (df out : DataFrame)
    (start_date end_date selected_month_year : option string) :
  wf df →
  date_filtered date_column df start_date end_date selected_month_year = inr out →
  ∃ raw date,
    getitem date_column df = Ok raw ∧
    to_datetime raw = Ok date ∧
    let kept := keeps start_date end_date selected_month_year <$> date in
    nrows out = length (filter (λ b, b = true) kept) ∧
    columns out = columns df ∧
    getitem date_column out = Ok (select kept date) ∧
    (∀ c, c ≠ date_column → getitem c out = s ← getitem c df; mret (select kept s)) ∧
    (truthy start_date && truthy end_date = false →
     truthy selected_month_year = false → Forall (λ b, b = true) kept) ∧
    (truthy start_date && truthy end_date = true ∨ truthy selected_month_year = true →
     ∀ i, date !! i = Some NaN → kept !! i = Some false) ∧
    (truthy start_date && truthy end_date = true →
     truthy selected_month_year = false →
     ∃ a b,
       parse_datetime (default "" start_date) = Some a ∧
       parse_datetime (default "" end_date) = Some b ∧
       ∀ i t, date !! i = Some (Timestamp t) →
         kept !! i = Some (match a, b with
                           | Some a, Some b => dt_le a t && dt_le t b
                           | _, _ => false
                           end)).
Proof.
  intros Hwf. unfold date_filtered.
  destruct (getitem date_column df) as [raw|] eqn:Eraw; [|done].
  destruct (to_datetime raw) as [date|] eqn:Edate; [|done].
  set (df0 := setitem date_column date df).
  assert (length date = nrows df) as Hlen.
  { unfold to_datetime in Edate. apply length_mapR in Edate.
    by rewrite Edate, (wf_getitem _ _ _ Hwf Eraw). }
  assert (wf df0) as Hwf0 by by apply wf_setitem.
  assert (getitem date_column df0 = Ok date) as Hdate0 by apply getitem_setitem_eq.
  set (q := λ c : cell,
         if truthy start_date && truthy end_date then
           ge_cell (mjoin (parse_datetime (default "" start_date))) c &&
           le_cell (mjoin (parse_datetime (default "" end_date))) c
         else true).
  set (p := λ c : cell,
         if truthy selected_month_year then
           month_is (mjoin (parse_month_year (default "" selected_month_year))) c &&
           year_is (mjoin (parse_month_year (default "" selected_month_year))) c
         else true).
  intros Hout.
  assert (out = df_select (p <$> select (q <$> date) date) (df_select (q <$> date) df0))
    as Hsel.
  { assert (∀ df1, df1 = df_select (q <$> date) df0 →
              match (if truthy selected_month_year then
                       match parse_month_year (default "" selected_month_year) with
                       | None => inl (ValueError_month_year (default "" selected_month_year))
                       | Some month_year_date =>
                           match getitem date_column df1 with
                           | Raise e => inl (Raised e)
                           | Ok date =>
                               inr (df_select
                                      (zip_with andb (month_is month_year_date <$> date)
                                         (year_is month_year_date <$> date)) df1)
                           end
                       end
                     else inr df1) with
              | inr out' =>
                  out' = df_select (p <$> select (q <$> date) date) df1
              | inl _ => True
              end) as Hmonth.
    { intros df1 ->. unfold p. destruct (truthy selected_month_year).
      - destruct (parse_month_year _) as [my|]; [|done].
        rewrite getitem_df_select, Hdate0. run.
        by rewrite zip_with_andb_fmap.
      - symmetry. apply df_select_all.
        + by apply wf_df_select.
        + rewrite length_fmap, nrows_df_select by by rewrite length_fmap.
          apply length_select_mask.
        + apply all_true. }
    revert Hout. unfold q in Hmonth |- *.
    destruct (truthy start_date && truthy end_date).
    - destruct (parse_datetime (default "" start_date)) as [a|]; [|done].
      destruct (parse_datetime (default "" end_date)) as [b|]; [|done].
      rewrite zip_with_andb_fmap. cbn [mjoin option_join].
      intros Hout. specialize (Hmonth _ eq_refl). cbv beta in Hmonth.
      fold df0 in Hmonth |- *.
      destruct (if truthy selected_month_year then _ else _) as [|out']; [done|].
      by injection Hout as <-.
    - intros Hout.
      assert (df_select ((λ _ : cell, true) <$> date) df0 = df0) as Hid.
      { apply df_select_all; [done|by rewrite length_fmap|apply all_true]. }
      specialize (Hmonth df0). rewrite Hid in Hmonth. specialize (Hmonth eq_refl).
      fold df0 in Hout.
      destruct (if truthy selected_month_year then _ else _) as [|out']; [done|].
      injection Hout as <-. by rewrite Hid. }
  destruct (twice_selected p q date_column date df0 out Hwf0 Hdate0 Hsel)
    as (Hn & Hc & Hg).
  exists raw, date. split_and!; [done..| | | | | | |].
  - exact Hn.
  - rewrite Hc. apply columns_setitem_in. apply getitem_Ok. by exists raw.
  - by rewrite Hg, Hdate0.
  - intros c Hne. rewrite Hg. unfold df0. by rewrite getitem_setitem_ne.
  - intros Hr Hm. apply Forall_fmap, Forall_forall. intros c _.
    unfold keeps. by rewrite Hr, Hm.
  - intros Hon i Hi. rewrite list_lookup_fmap, Hi. cbn. f_equal. unfold keeps.
    destruct Hon as [-> | ->]; cbn.
    + done.
    + apply andb_false_r.
  - intros Hr Hm. subst q. cbn beta in Hsel. rewrite Hr in *.
    revert Hout. unfold df0.
    destruct (parse_datetime (default "" start_date)) as [a|] eqn:Ea; [|done].
    destruct (parse_datetime (default "" end_date)) as [b|] eqn:Eb; [|done].
    intros _. exists a, b. split_and!; [done..|].
    intros i t Hi. rewrite list_lookup_fmap, Hi. cbn. f_equal. unfold keeps.
    rewrite Hr, Hm, Ea, Eb, andb_true_r. cbn.
    destruct a, b; cbn; by rewrite ?andb_false_r.
Qed.

End filters.

Import Ledgers IsoDates MonthYear.
Lemma date_filtered_rows_witness :
  ∃ out,
    date_filtered "Transaction creation date" dated
      (Some "2024-01-01") (Some "2024-01-31") None = inr out ∧
    getitem "Net amount" out = Ok [Str "2"].
Proof.
  destruct (date_filtered "Transaction creation date" dated
              (Some "2024-01-01") (Some "2024-01-31") None) as [e|out] eqn:E;
    [vm_compute in E; discriminate|].
  exists out. split; [reflexivity|].
  destruct (date_filtered_rows "Transaction creation date" dated out
              (Some "2024-01-01") (Some "2024-01-31") None
              ltac:(repeat constructor) E)
    as (raw & date & Hraw & Hdate & _ & _ & _ & Hc & _).
  rewrite Hc by done. vm_compute in Hraw. injection Hraw as <-.
  vm_compute in Hdate. injection Hdate as <-. vm_compute. reflexivity.
Defined.

End DateFilterLemmas.

(** ** The month and year selector *)

Module MonthYearLemmas.
Import Pandas DateFilters MonthYear.

Lemma elem_of_unique (s : Series) c : c ∈ unique s ↔ c ∈ s.
Proof.
  induction s as [|x s IH]; [done|]. cbn [unique].
  rewrite !elem_of_cons, list_elem_of_filter, IH.
  destruct (decide (c = x)) as [->|Hne]; [split; by left|].
  split; [intros [?|[_ ?]]; auto|intros [?|?]; auto].
Qed.

Lemma NoDup_unique (s : Series) : NoDup (unique s).
Proof.
  induction s as [|x s IH]; [constructor|]. cbn [unique]. constructor.
  - rewrite list_elem_of_filter. by intros [? _].
  - by apply NoDup_filter.
Qed.

(** *** Sorting *)

Section sorting.
Context {A : Type} (lt : A → A → bool) (R : relation A).

Lemma insert_by_Permutation x l : insert_by lt x l ≡ₚ x :: l.
Proof.
  induction l as [|y l IH]; [done|]. cbn [insert_by].
  destruct (lt y x); [|done]. rewrite IH. apply Permutation_swap.
Qed.

Lemma sorted_by_Permutation l : sorted_by lt l ≡ₚ l.
Proof.
  induction l as [|x l IH]; [done|].
  change (sorted_by lt (x :: l)) with (insert_by lt x (sorted_by lt l)).
  by rewrite insert_by_Permutation, IH.
Qed.

(** On elements that [R] orders strictly and that [lt] compares as [R]
    does, the list sorted is increasing. *)
Lemma insert_by_sorted x l :
  Transitive R →
  (∀ y, y ∈ l → (lt y x = true ↔ R y x) ∧ (R y x ∨ R x y)) →
  StronglySorted R l → StronglySorted R (insert_by lt x l).
Proof.
  intros Htrans Hx Hl. induction Hl as [|y l Hl IH Hy]; [by repeat constructor|].
  cbn [insert_by]. destruct (Hx y ltac:(by left)) as [Hlt Htot].
  destruct (lt y x).
  - constructor.
    + apply IH. intros z Hz. apply Hx. by right.
    + rewrite insert_by_Permutation. constructor; [by apply Hlt|done].
  - assert (R x y) as Hxy.
    { destruct Htot as [Hyx|?]; [|done]. by apply Hlt in Hyx. }
    constructor; [by constructor|]. constructor; [done|].
    eapply Forall_impl; [exact Hy|]. intros z Hz. by trans y.
Qed.

Lemma sorted_by_sorted l :
  Transitive R → NoDup l →
  (∀ x y, x ∈ l → y ∈ l → (lt x y = true ↔ R x y) ∧ (x ≠ y → R x y ∨ R y x)) →
  StronglySorted R (sorted_by lt l).
Proof.
  intros Htrans Hnd Hl. induction Hnd as [|x l Hx Hnd IH]; [constructor|].
  change (sorted_by lt (x :: l)) with (insert_by lt x (sorted_by lt l)).
  apply insert_by_sorted; [done| |].
  - intros y Hy. rewrite sorted_by_Permutation in Hy.
    destruct (Hl y x ltac:(by right) ltac:(by left)) as [Hlt Htot].
    split; [done|]. apply Htot. intros ->. done.
  - apply IH. intros y z Hy Hz. apply Hl; by right.
Qed.

End sorting.

(** *** Months *)

Lemma strftime_B_Y_label t : strftime_B_Y t = label (year t, month t).
Proof. reflexivity. Qed.

Lemma dt_lt_months y m y' m' :
  dt_lt (DT y m 1 0 0 0) (DT y' m' 1 0 0 0) = true ↔ earlier (y, m) (y', m').
Proof.
  unfold dt_lt, dt_fields, earlier.
  cbn [lex_lt year month day hour minute second fst snd].
  change (1 <? 1) with false. change (1 =? 1) with true.
  change (0 <? 0) with false. change (0 =? 0) with true.
  cbn [orb andb].
  destruct (Nat.ltb_spec y y'), (Nat.eqb_spec y y'), (Nat.ltb_spec m m'),
    (Nat.eqb_spec m m'); cbn [orb andb]; split; intros; try done; lia.
Qed.

Global Instance earlier_trans : Transitive earlier.
Proof. intros [??] [??] [??]. unfold earlier. simpl. lia. Qed.

Section options.
Context `{MonthYearParser}.

Lemma keyed_readable (date labels : Series) :
  Forall readable date →
  (∀ c, c ∈ labels → c ∈ dt_strftime_B_Y date) →
  ∃ keys, keyed labels = Some (inr keys) ∧ Forall2 (keyed_as date) labels keys.
Proof.
  intros Hdate. induction labels as [|c labels IH]; intros Hlabels.
  - exists []. by split; [|constructor].
  - destruct IH as (keys & Ek & Hk); [intros; apply Hlabels; by right|].
    assert (c ∈ dt_strftime_B_Y date) as Hc by (apply Hlabels; by left).
    unfold dt_strftime_B_Y in Hc. apply list_elem_of_fmap in Hc as (d & -> & Hd).
    rewrite Forall_forall in Hdate. destruct (Hdate d Hd) as (t & -> & Ht).
    exists ((strftime_B_Y t, DT (year t) (month t) 1 0 0 0) :: keys).
    cbn [keyed]. rewrite Ht, Ek. split; [done|]. constructor; [|done].
    by exists t.
Qed.

(** X18. When every row has a date, and the label of its month is read
    back as that month, the options of the month selector are the
    labels of the months in which the table has a row, each once, in
    the order of time. *)
Theorem month_year_options_in_order_of_time (date : Series) :
  Forall (λ c, ∃ t, c = Timestamp t ∧
            parse_month_year (strftime_B_Y t)
              = Some (Some (DT (year t) (month t) 1 0 0 0))) date →
  ∃ months : list (nat * nat),
    month_year_options date = Some (inr (label <$> months)) ∧
    StronglySorted earlier months ∧
    ∀ y m, (y, m) ∈ months ↔ ∃ t, Timestamp t ∈ date ∧ year t = y ∧ month t = m.
Proof.
  intros Hdate. fold readable in Hdate.
  destruct (keyed_readable date (unique (dt_strftime_B_Y date)) Hdate)
    as (keys & Ek & Hk); [intros c Hc; by apply elem_of_unique|].
  unfold month_year_options. rewrite Ek.
  set (lt := λ p q : string * datetime, dt_lt p.2 q.2).
  set (f := λ p : string * datetime, (year p.2, month p.2)).
  assert (∀ p, p ∈ keys →
            ∃ t, Timestamp t ∈ date ∧
                 p = (strftime_B_Y t, DT (year t) (month t) 1 0 0 0)) as Hkeys.
  { intros p Hp. apply list_elem_of_lookup in Hp as [i Hi].
    destruct (Forall2_lookup_r _ _ _ _ _ Hk Hi) as (c & _ & t & ? & _ & ?). eauto. }
  assert (keys.*1 = (λ c, match c with Str s => s | _ => "" end)
                      <$> unique (dt_strftime_B_Y date)) as Hfst.
  { clear -Hk. induction Hk as [|c p cs ps (t & _ & -> & ->) _ IH]; [done|].
    csimpl. by rewrite IH. }
  assert (NoDup keys) as Hnd.
  { apply (NoDup_fmap_1 fst). rewrite Hfst.
    apply NoDup_fmap_2_strong; [|apply NoDup_unique].
    intros c c' Hc Hc' Heq.
    apply elem_of_unique, list_elem_of_fmap in Hc as (d & -> & Hd).
    apply elem_of_unique, list_elem_of_fmap in Hc' as (d' & -> & Hd').
    rewrite Forall_forall in Hdate.
    destruct (Hdate d Hd) as (t & -> & _), (Hdate d' Hd') as (t' & -> & _).
    simpl in Heq. by rewrite Heq. }
  assert (∀ p q, p ∈ keys → q ∈ keys → f p = f q → p = q) as Hinj.
  { intros p q (t & _ & ->)%Hkeys (t' & _ & ->)%Hkeys. unfold f. simpl.
    intros [= Hy Hm]. by rewrite !strftime_B_Y_label, Hy, Hm. }
  exists (f <$> sorted_by lt keys). split_and!.
  - do 2 f_equal. rewrite <-list_fmap_compose.
    apply Forall_fmap_ext, Forall_forall. intros p Hp.
    rewrite sorted_by_Permutation in Hp.
    apply Hkeys in Hp as (t & _ & ->). done.
  - apply (StronglySorted_fmap f (λ p q, earlier (f p) (f q)) earlier); [done|].
    apply sorted_by_sorted; [|done|].
    + intros p q r. apply earlier_trans.
    + intros p q Hp Hq. pose proof (Hinj p q Hp Hq) as Hpq.
      apply Hkeys in Hp as (t & _ & ->). apply Hkeys in Hq as (t' & _ & ->).
      unfold lt, f in *. cbn [fst snd year month] in *. split.
      * apply dt_lt_months.
      * intros Hne. unfold earlier. cbn [fst snd].
        destruct (decide (year t = year t' ∧ month t = month t')) as [[Hy Hm]|Hn].
        -- destruct Hne. apply Hpq. by rewrite Hy, Hm.
        -- lia.
  - intros y m. rewrite list_elem_of_fmap. split.
    + intros (p & Hf & Hp). rewrite sorted_by_Permutation in Hp.
      apply Hkeys in Hp as (t & Ht & ->). unfold f in Hf. simpl in Hf.
      injection Hf as -> ->. by exists t.
    + intros (t & Ht & <- & <-).
      assert (Str (strftime_B_Y t) ∈ unique (dt_strftime_B_Y date)) as Hl.
      { apply elem_of_unique, list_elem_of_fmap. by exists (Timestamp t). }
      apply list_elem_of_lookup in Hl as [i Hi].
      destruct (Forall2_lookup_l _ _ _ _ _ Hk Hi) as (p & Hp & t' & Ht' & Heq & ->).
      exists (strftime_B_Y t', DT (year t') (month t') 1 0 0 0). split.
      * unfold f. simpl. injection Heq as Heq.
        rewrite Forall_forall in Hdate.
        destruct (Hdate _ Ht) as (t1 & [= <-] & H1).
        destruct (Hdate _ Ht') as (t2 & [= <-] & H2).
        rewrite Heq, H2 in H1. by injection H1 as -> ->.
      * rewrite sorted_by_Permutation. apply list_elem_of_lookup. by exists i.
Qed.

End options.

Import Ledgers.
Lemma month_year_options_in_order_of_time_witness :
  ∃ months : list (nat * nat),
    month_year_options four_dates = Some (inr (label <$> months)) ∧
    StronglySorted earlier months ∧
    ((2023, 12) ∈ months).
Proof.
  destruct (month_year_options_in_order_of_time four_dates) as (months & E & Hs & Hm).
  - repeat (constructor; [eexists; split; [reflexivity|vm_compute; reflexivity]|]).
    constructor.
  - exists months. split_and!; [done..|].
    apply Hm. exists (DT 2023 12 31 23 59 59). split_and!; [|done..].
    unfold four_dates. do 3 right. left.
Defined.

End MonthYearLemmas.

(** ** hoold.py: the message for a missing column *)

Module MissingColumns.
Import Pandas TableLemmas PyStr2 Uploads SplitLemmas.

Section parse_contents.
Context `{DateParser}.
Variable b64decode : string → option (list Byte.byte).
Variables read_csv read_excel : list Byte.byte → string + DataFrame.

Lemma getitem_cases c df :
  (c ∈ columns df ∧ ∃ s, getitem c df = Ok s) ∨
  ((c ∉ columns df) ∧ getitem c df = Raise (KeyError c)).
Proof.
  destruct (getitem c df) as [s|e] eqn:E.
  - left. split; [|by exists s]. apply getitem_Ok. by exists s.
  - right. by apply getitem_Raise in E as [? ->].
Qed.

(** X20. When the table that hoold.py has read lacks some of the four
    columns that [parse_contents] works on, and its dates can be read,
    the message names the first that is missing, in the order
    Transaction creation date, Net amount, Item title, Order number. *)
Theorem parse_contents_names_first_missing_column
    (content_type content_string filename c : string)
    (decoded : list Byte.byte) (df : DataFrame) :
  count_char "," content_type = 0 →
  count_char "," content_string = 0 →
  b64decode content_string = Some decoded →
  contains "csv" filename →
  read_csv decoded = inr df →
  (∀ date, getitem "Transaction creation date" df = Ok date →
           ∃ date', to_datetime date = Ok date') →
  head (filter (λ c, c ∉ columns df)
          ["Transaction creation date"; "Net amount"; "Item title"; "Order number"])
    = Some c →
  HooldApp.parse_contents b64decode read_csv read_excel
    (content_type +:+ "," +:+ content_string) filename
  = inr (None, "Error processing " +:+ filename +:+ ": '" +:+ c +:+ "'").
Proof.
  intros Ht Hs Hd Hcsv Hr Hdates Hfirst.
  unfold HooldApp.parse_contents, parse_contents.
  assert (split_on "," (content_type +:+ "," +:+ content_string)
          = [content_type; content_string]) as ->.
  { apply split_on_two. by split_and!. }
  rewrite Hd. apply Is_true_true in Hcsv. rewrite Hcsv, Hr.
  assert (Hoold.parse_contents_try df = Raise (KeyError c)) as ->; [|done].
  rewrite HooldLemmas.hoold_try_eq. revert Hfirst.
  destruct (getitem_cases "Transaction creation date" df) as [[Hin [date Ed]]|[Hn ->]].
  2: { rewrite filter_cons_True by done. by intros [= <-]. }
  rewrite filter_cons_False by (by intros ?). rewrite Ed. run.
  destruct (Hdates date Ed) as [date' ->]. run.
  destruct (getitem_cases "Net amount" df) as [[Hin2 [net ->]]|[Hn ->]].
  2: { rewrite filter_cons_True by done. by intros [= <-]. }
  rewrite filter_cons_False by (by intros ?). run.
  destruct (getitem_cases "Item title" df) as [[Hin3 [title ->]]|[Hn ->]].
  2: { rewrite filter_cons_True by done. by intros [= <-]. }
  rewrite filter_cons_False by (by intros ?). run.
  destruct (getitem_cases "Order number" df) as [[Hin4 [orders ->]]|[Hn ->]].
  2: { rewrite filter_cons_True by done. by intros [= <-]. }
  rewrite filter_cons_False by (by intros ?). done.
Qed.

End parse_contents.

Import Ledgers IsoDates.
Lemma parse_contents_names_first_missing_column_witness :
  HooldApp.parse_contents (λ _, Some []) (λ _, inr no_titles) (λ _, inl "")
    "data:text/csv;base64,QQ==" "report.csv"
  = inr (None, "Error processing report.csv: 'Item title'").
Proof.
  apply (parse_contents_names_first_missing_column
           (λ _, Some []) (λ _, inr no_titles) (λ _, inl "")
           "data:text/csv;base64" "QQ==" "report.csv" "Item title" [] no_titles).
  - vm_compute. reflexivity.
  - vm_compute. reflexivity.
  - reflexivity.
  - vm_compute. exact I.
  - reflexivity.
  - intros date Hd. vm_compute in Hd. injection Hd as <-.
    eexists. vm_compute. reflexivity.
  - vm_compute. reflexivity.
Defined.

End MissingColumns.

(** ** The columns of numbers after loading *)

Module NumberColumns.
Import Pandas TableLemmas.

Lemma coerce_number_or_NaN c : coerce c = NaN ∨ ∃ d, coerce c = Num d.
Proof.
  unfold coerce, to_numeric. destruct (parse_number _); [right|left]; eauto.
Qed.

Lemma coerced_numbers (s : Series) : Forall (λ c, ∃ d, c = Num d) (GenDash.coerced s).
Proof.
  unfold GenDash.coerced, fillna. apply Forall_fmap, Forall_fmap, Forall_forall.
  intros c _. cbn. destruct (coerce_number_or_NaN c) as [->|[d ->]]; cbn; eauto.
Qed.

Section loaded.
Context `{DateParser}.

(** X21. In a table that gen_dash_app_1.py has loaded, every cell of a
    numeric column, and of Total Fees, holds a number, none is absent;
    in a table that hoold.py has loaded, every cell of Net amount holds a
    number or NaN. *)
Theorem loaded_columns_hold_numbers :
  (∀ df out msg c s,
     GenDash.parse_contents df = (Some out, msg) →
     c ∈ "Total Fees" :: GenDash.numeric_columns →
     getitem c out = Ok s →
     Forall (λ x, ∃ d, x = Num d) s) ∧
  (∀ df out msg s,
     Hoold.parse_contents df = (Some out, msg) →
     getitem "Net amount" out = Ok s →
     Forall (λ x, x = NaN ∨ ∃ d, x = Num d) s).
Proof.
  split.
  - intros df out msg c s Hp Hc Hs. unfold GenDash.parse_contents in Hp.
    destruct (GenDash.parse_contents_try df) as [out'|] eqn:E; simplify_eq.
    destruct (GenDashLemmas.gen_dash_try_Ok df out E)
      as (date & date' & title & orders & fees & _ & _ & _ & _ & Hfees &
          _ & _ & _ & _ & Htotal & Hnumeric & _).
    apply elem_of_cons in Hc as [->|Hc].
    + rewrite Htotal in Hs. injection Hs as <-. unfold sum_axis1.
      apply Forall_fmap, Forall_forall. intros i _. cbn. eauto.
    + rewrite Hnumeric in Hs by done.
      destruct (getitem c df) as [s0|]; cbn in Hs; [|done].
      injection Hs as <-. apply coerced_numbers.
  - intros df out msg s Hp Hs. unfold Hoold.parse_contents in Hp.
    destruct (Hoold.parse_contents_try df) as [out'|] eqn:E; simplify_eq.
    destruct (HooldLemmas.hoold_try_Ok df out E)
      as (date & date' & net & title & orders &
          _ & _ & _ & _ & _ & _ & _ & _ & Hn & _).
    rewrite Hn in Hs. injection Hs as <-.
    apply Forall_fmap, Forall_forall. intros c _. apply coerce_number_or_NaN.
Qed.

End loaded.
End NumberColumns.

(** ** The preview of the table uploaded *)

Module Preview.
Import SqlQuery TableLemmas.

Lemma row_head df i : i < 5 → row (head df) i = row df i.
Proof.
  intros Hi. unfold row, head. cbn [cols]. rewrite <-list_fmap_compose.
  apply list_fmap_ext. intros j [c s] _. cbn. by rewrite lookup_take_lt.
Qed.

(** X22. The preview that [process_upload] and [run_query] show is made
    of the first five rows of the table, or of all its rows when it has
    fewer, under the same column names; for a table of at least two
    rows and one column it is shown as a table. *)
Theorem preview_shows_first_five_rows (df : DataFrame) :
  rows (head df) = take 5 (rows df) ∧
  columns (head df) = columns df ∧
  (wf df → wf (head df)) ∧
  (2 ≤ nrows df → cols df ≠ [] →
   create_result_component (head df) = DataTable (head df)).
Proof.
  split_and!.
  - unfold rows. rewrite <-fmap_take, take_seq.
    change (nrows (head df)) with (nrows df `min` 5). rewrite Nat.min_comm.
    apply list_fmap_ext. intros j i Hj. apply row_head.
    apply lookup_seq in Hj. lia.
  - unfold columns, head. cbn [cols]. rewrite <-list_fmap_compose.
    by apply list_fmap_ext.
  - unfold wf, head. cbn [cols nrows]. intros Hwf. rewrite Forall_fmap.
    eapply Forall_impl; [exact Hwf|]. intros [c s] Hs. cbn in *.
    rewrite length_take. lia.
  - intros Hn Hc. unfold create_result_component, empty, is_scalar_result,
      is_single_row_result.
    change (nrows (head df)) with (nrows df `min` 5).
    rewrite !(bool_decide_eq_false_2 (nrows df `min` 5 = 0)) by lia.
    rewrite !(bool_decide_eq_false_2 (nrows df `min` 5 = 1)) by lia.
    rewrite bool_decide_eq_false_2; [done|].
    unfold head. cbn [cols]. by destruct (cols df).
Qed.

End Preview.
